(** * A shallow embedding of sim.c

    sim.c simulates four in-order pipelined cores, each with a private
    direct-mapped write-back cache, connected by a snooping MESI bus to one
    main memory.  This file embeds the decoder, the ALU, the cache helpers,
    the per-core pipeline step, the bus helpers and the body of the main
    loop of [simulate], and proves properties of them.

    Conventions.
    - C integers are [Z]; unsigned 32-bit wrap-around is [u32], the
      conversion to [int32_t] is [i32].
    - Zero-initialised C arrays ([regs], [imem], cache [data]/[tag]/[state],
      the bus [block], main memory) are finite maps read with default 0
      (default [MESI_I] for cache states): every index the program uses is
      in range, and an unwritten cell holds the initial zero.
    - The four-element arrays [cores] and [requests] are lists.
    - The [#define]d MESI states and bus commands are enumerations. *)

From stdpp Require Import gmap list list_numbers.

#[local] Set Warnings "-clear-no-such-hyp".

Local Open Scope Z_scope.

(** ** Architecture constants *)

Definition NUM_CORES : Z := 4.
Definition REG_COUNT : Z := 16.
Definition IMEM_SIZE : Z := 1024.
Definition MAIN_MEM_WORDS : Z := Z.shiftl 1 20.

Definition CACHE_WORDS : Z := 512.
Definition CACHE_LINES : Z := 64.
Definition BLOCK_WORDS : Z := 8.
Definition OFFSET_BITS : Z := 3.
Definition INDEX_BITS : Z := 6.
Definition TAG_BITS : Z := 20 - OFFSET_BITS - INDEX_BITS.
Definition INDEX_MASK : Z := Z.shiftl 1 INDEX_BITS - 1.
Definition OFFSET_MASK : Z := Z.shiftl 1 OFFSET_BITS - 1.
Definition TAG_MASK : Z := Z.shiftl 1 TAG_BITS - 1.

Inductive bus_cmd := BUS_NONE | BUS_RD | BUS_RDX | BUS_FLUSH.
Inductive mesi := MESI_I | MESI_S | MESI_E | MESI_M.

Global Instance bus_cmd_eq_dec : EqDecision bus_cmd.
Proof. solve_decision. Defined.
Global Instance mesi_eq_dec : EqDecision mesi.
Proof. solve_decision. Defined.

Definition OP_ADD : Z := 0.
Definition OP_SUB : Z := 1.
Definition OP_AND : Z := 2.
Definition OP_OR : Z := 3.
Definition OP_XOR : Z := 4.
Definition OP_MUL : Z := 5.
Definition OP_SLL : Z := 6.
Definition OP_SRA : Z := 7.
Definition OP_SRL : Z := 8.
Definition OP_BEQ : Z := 9.
Definition OP_BNE : Z := 10.
Definition OP_BLT : Z := 11.
Definition OP_BGT : Z := 12.
Definition OP_BLE : Z := 13.
Definition OP_BGE : Z := 14.
Definition OP_JAL : Z := 15.
Definition OP_LW : Z := 16.
Definition OP_SW : Z := 17.
Definition OP_HALT : Z := 20.

(** ** Machine integers and zero-initialised arrays *)

Definition u32 (x : Z) : Z := x mod 2 ^ 32.
Definition i32 (x : Z) : Z :=
  let y := x mod 2 ^ 32 in if y <? 2 ^ 31 then y else y - 2 ^ 32.

(** [a[i]] for an array of words, [a[i] = v], and the same for the array of
    MESI states. *)
Definition rdw (a : gmap Z Z) (i : Z) : Z := default 0 (a !! i).
Definition wrw (a : gmap Z Z) (i v : Z) : gmap Z Z := <[i := v]> a.
Definition rds (a : gmap Z mesi) (i : Z) : mesi := default MESI_I (a !! i).
Definition wrs (a : gmap Z mesi) (i : Z) (v : mesi) : gmap Z mesi := <[i := v]> a.

(** [for (i = 0; i < BLOCK_WORDS; i++) a[dst i] = src i;] *)
Definition copy_block (dst src : Z → Z) (a : gmap Z Z) : gmap Z Z :=
  foldl (λ a i, wrw a (dst i) (src i)) a (seqZ 0 BLOCK_WORDS).

(** ** Data model *)

Record Instruction := {
  i_raw : Z; i_op : Z; i_rd : Z; i_rs : Z; i_rt : Z; i_imm : Z; i_pc : Z }.

Record FetchStage := { f_valid : bool; f_inst : Instruction }.
Record DecodeStage := { d_valid : bool; d_inst : Instruction }.
Record ExecStage := {
  e_valid : bool; e_inst : Instruction;
  e_rs_val : Z; e_rt_val : Z; e_rd_val : Z }.
Record MemStage := {
  m_valid : bool; m_inst : Instruction;
  m_alu_result : Z; m_mem_addr : Z; m_store_data : Z;
  m_is_load : bool; m_is_store : bool;
  m_miss : bool; m_waiting : bool; m_request_queued : bool;
  m_load_value : Z }.
Record WbStage := { w_valid : bool; w_inst : Instruction; w_value : Z }.

Record Cache := {
  c_data : gmap Z Z; c_tag : gmap Z Z; c_state : gmap Z mesi }.

Record Stats := {
  cycles : Z; instructions : Z;
  read_hit : Z; write_hit : Z; read_miss : Z; write_miss : Z;
  decode_stall : Z; mem_stall : Z }.

Record Core := {
  id : Z;
  imem : gmap Z Z;
  regs : gmap Z Z;
  pc : Z;
  redirect_pending : bool;
  redirect_pc : Z;
  stop_fetch : bool;
  halted : bool;
  done_ : bool;
  fetch : FetchStage;
  decode : DecodeStage;
  exec : ExecStage;
  mem : MemStage;
  wb : WbStage;
  cache : Cache;
  stats : Stats }.

Record BusRequest := {
  r_active : bool; r_cmd : bus_cmd; r_addr : Z; r_origin : Z }.

Record BusState := {
  phase : Z;
  cmd : bus_cmd;
  origin : Z;
  addr : Z;
  shared : Z;
  provider : Z;
  block : gmap Z Z;
  delay : Z;
  index : Z;
  bus_cmd_out : bus_cmd;
  bus_origid_out : Z;
  bus_addr_out : Z;
  bus_data_out : Z;
  bus_shared_out : Z }.

(** The zero-filled values of [= {0}] initialisers. *)
Definition inst0 : Instruction :=
  {| i_raw := 0; i_op := 0; i_rd := 0; i_rs := 0; i_rt := 0; i_imm := 0; i_pc := 0 |}.
Definition fetch0 : FetchStage := {| f_valid := false; f_inst := inst0 |}.
Definition decode0 : DecodeStage := {| d_valid := false; d_inst := inst0 |}.
Definition exec0 : ExecStage :=
  {| e_valid := false; e_inst := inst0; e_rs_val := 0; e_rt_val := 0; e_rd_val := 0 |}.
Definition mem0 : MemStage :=
  {| m_valid := false; m_inst := inst0; m_alu_result := 0; m_mem_addr := 0;
     m_store_data := 0; m_is_load := false; m_is_store := false; m_miss := false;
     m_waiting := false; m_request_queued := false; m_load_value := 0 |}.
Definition wb0 : WbStage := {| w_valid := false; w_inst := inst0; w_value := 0 |}.
Definition cache0 : Cache := {| c_data := ∅; c_tag := ∅; c_state := ∅ |}.
Definition stats0 : Stats :=
  {| cycles := 0; instructions := 0; read_hit := 0; write_hit := 0;
     read_miss := 0; write_miss := 0; decode_stall := 0; mem_stall := 0 |}.
Definition request0 : BusRequest :=
  {| r_active := false; r_cmd := BUS_NONE; r_addr := 0; r_origin := 0 |}.
Definition bus0 : BusState :=
  {| phase := 0; cmd := BUS_NONE; origin := 0; addr := 0; shared := 0;
     provider := 0; block := ∅; delay := 0; index := 0;
     bus_cmd_out := BUS_NONE; bus_origid_out := 0; bus_addr_out := 0;
     bus_data_out := 0; bus_shared_out := 0 |}.

(** Field assignments [c->f = v]. *)
Definition set_regs (c : Core) (v : gmap Z Z) : Core :=
  {| id := id c; imem := imem c; regs := v; pc := pc c;
     redirect_pending := redirect_pending c; redirect_pc := redirect_pc c;
     stop_fetch := stop_fetch c; halted := halted c; done_ := done_ c;
     fetch := fetch c; decode := decode c; exec := exec c; mem := mem c;
     wb := wb c; cache := cache c; stats := stats c |}.
Definition set_pc (c : Core) (v : Z) : Core :=
  {| id := id c; imem := imem c; regs := regs c; pc := v;
     redirect_pending := redirect_pending c; redirect_pc := redirect_pc c;
     stop_fetch := stop_fetch c; halted := halted c; done_ := done_ c;
     fetch := fetch c; decode := decode c; exec := exec c; mem := mem c;
     wb := wb c; cache := cache c; stats := stats c |}.
Definition set_redirect (c : Core) (p : bool) (v : Z) : Core :=
  {| id := id c; imem := imem c; regs := regs c; pc := pc c;
     redirect_pending := p; redirect_pc := v;
     stop_fetch := stop_fetch c; halted := halted c; done_ := done_ c;
     fetch := fetch c; decode := decode c; exec := exec c; mem := mem c;
     wb := wb c; cache := cache c; stats := stats c |}.
Definition set_stop_fetch (c : Core) (v : bool) : Core :=
  {| id := id c; imem := imem c; regs := regs c; pc := pc c;
     redirect_pending := redirect_pending c; redirect_pc := redirect_pc c;
     stop_fetch := v; halted := halted c; done_ := done_ c;
     fetch := fetch c; decode := decode c; exec := exec c; mem := mem c;
     wb := wb c; cache := cache c; stats := stats c |}.
Definition set_halted (c : Core) (v : bool) : Core :=
  {| id := id c; imem := imem c; regs := regs c; pc := pc c;
     redirect_pending := redirect_pending c; redirect_pc := redirect_pc c;
     stop_fetch := stop_fetch c; halted := v; done_ := done_ c;
     fetch := fetch c; decode := decode c; exec := exec c; mem := mem c;
     wb := wb c; cache := cache c; stats := stats c |}.
Definition set_done (c : Core) (v : bool) : Core :=
  {| id := id c; imem := imem c; regs := regs c; pc := pc c;
     redirect_pending := redirect_pending c; redirect_pc := redirect_pc c;
     stop_fetch := stop_fetch c; halted := halted c; done_ := v;
     fetch := fetch c; decode := decode c; exec := exec c; mem := mem c;
     wb := wb c; cache := cache c; stats := stats c |}.
Definition set_mem (c : Core) (v : MemStage) : Core :=
  {| id := id c; imem := imem c; regs := regs c; pc := pc c;
     redirect_pending := redirect_pending c; redirect_pc := redirect_pc c;
     stop_fetch := stop_fetch c; halted := halted c; done_ := done_ c;
     fetch := fetch c; decode := decode c; exec := exec c; mem := v;
     wb := wb c; cache := cache c; stats := stats c |}.
Definition set_cache (c : Core) (v : Cache) : Core :=
  {| id := id c; imem := imem c; regs := regs c; pc := pc c;
     redirect_pending := redirect_pending c; redirect_pc := redirect_pc c;
     stop_fetch := stop_fetch c; halted := halted c; done_ := done_ c;
     fetch := fetch c; decode := decode c; exec := exec c; mem := mem c;
     wb := wb c; cache := v; stats := stats c |}.
Definition set_stats (c : Core) (v : Stats) : Core :=
  {| id := id c; imem := imem c; regs := regs c; pc := pc c;
     redirect_pending := redirect_pending c; redirect_pc := redirect_pc c;
     stop_fetch := stop_fetch c; halted := halted c; done_ := done_ c;
     fetch := fetch c; decode := decode c; exec := exec c; mem := mem c;
     wb := wb c; cache := cache c; stats := v |}.
(** The latch update at the end of a core's turn: [c->wb = next_wb; ...]. *)
Definition set_latches (c : Core) (nw : WbStage) (nm : MemStage)
    (ne : ExecStage) (nd : DecodeStage) (nf : FetchStage) : Core :=
  {| id := id c; imem := imem c; regs := regs c; pc := pc c;
     redirect_pending := redirect_pending c; redirect_pc := redirect_pc c;
     stop_fetch := stop_fetch c; halted := halted c; done_ := done_ c;
     fetch := nf; decode := nd; exec := ne; mem := nm;
     wb := nw; cache := cache c; stats := stats c |}.

(** ** Utility helpers (sim.c 176-237) *)

Definition sign_extend (val bits : Z) : Z :=
  let mask := u32 (Z.shiftl 1 bits - 1) in
  let val := Z.land val mask in
  let val :=
    if Z.land val (Z.shiftl 1 (bits - 1)) =? 0 then val
    else Z.lor val (u32 (Z.lnot mask)) in
  i32 val.

Definition decode_inst (raw pc : Z) : Instruction :=
  {| i_raw := raw;
     i_op := Z.land (Z.shiftr raw 24) 255;
     i_rd := Z.land (Z.shiftr raw 20) 15;
     i_rs := Z.land (Z.shiftr raw 16) 15;
     i_rt := Z.land (Z.shiftr raw 12) 15;
     i_imm := sign_extend (Z.land raw 4095) 12;
     i_pc := pc |}.

Definition dest_reg (inst : Instruction) : Z :=
  if (i_op inst =? OP_HALT) || (i_op inst =? OP_SW) then -1
  else if (OP_BEQ <=? i_op inst) && (i_op inst <=? OP_BGE) then -1
  else if i_op inst =? OP_JAL then 15
  else if i_rd inst <=? 1 then -1
  else i_rd inst.

Definition is_alu_or_lw (op : Z) : bool :=
  (op =? OP_ADD) || (op =? OP_SUB) || (op =? OP_AND) || (op =? OP_OR)
  || (op =? OP_XOR) || (op =? OP_MUL) || (op =? OP_SLL) || (op =? OP_SRA)
  || (op =? OP_SRL) || (op =? OP_LW).

Definition is_branch (op : Z) : bool :=
  (op =? OP_BEQ) || (op =? OP_BNE) || (op =? OP_BLT) || (op =? OP_BGT)
  || (op =? OP_BLE) || (op =? OP_BGE).

(** The [out] array and [*count] of the C function, as the list of the
    entries written. *)
Definition source_regs (inst : Instruction) : list Z :=
  if is_alu_or_lw (i_op inst) then [i_rs inst; i_rt inst]
  else if i_op inst =? OP_SW then [i_rd inst; i_rs inst; i_rt inst]
  else if is_branch (i_op inst) then [i_rs inst; i_rt inst; i_rd inst]
  else if i_op inst =? OP_JAL then [i_rd inst]
  else [].

(** ** Cache helpers (sim.c 332-386) *)

Definition cache_index (a : Z) : Z := Z.land (Z.shiftr a OFFSET_BITS) INDEX_MASK.

Definition cache_tag (a : Z) : Z :=
  Z.land (Z.shiftr a (OFFSET_BITS + INDEX_BITS)) TAG_MASK.

Definition line_base_addr (tag idx : Z) : Z :=
  Z.lor (u32 (Z.shiftl (Z.land tag TAG_MASK) (OFFSET_BITS + INDEX_BITS)))
        (u32 (Z.shiftl idx OFFSET_BITS)).

Definition writeback_line (c : Cache) (idx : Z) (mem : gmap Z Z) : gmap Z Z :=
  if bool_decide (rds (c_state c) idx ≠ MESI_M) then mem
  else
    let base := line_base_addr (rdw (c_tag c) idx) idx in
    copy_block (λ i, Z.land (u32 (base + i)) (MAIN_MEM_WORDS - 1))
               (λ i, rdw (c_data c) (idx * BLOCK_WORDS + i)) mem.

Definition fill_cache_line (c : Cache) (idx tag : Z) (blk : gmap Z Z)
    (new_state : mesi) (mem : gmap Z Z) : Cache * gmap Z Z :=
  let mem := writeback_line c idx mem in
  let data := copy_block (λ i, idx * BLOCK_WORDS + i) (λ i, rdw blk i) (c_data c) in
  ({| c_data := data;
      c_tag := wrw (c_tag c) idx (Z.land tag TAG_MASK);
      c_state := wrs (c_state c) idx new_state |}, mem).

(** [state_out] is the value of [*state_out] on entry; the second component
    is its value on return. *)
Definition cache_lookup (c : Cache) (a : Z) (state_out : mesi) : bool * mesi :=
  let idx := cache_index a in
  let tag := cache_tag a in
  if bool_decide (rds (c_state c) idx ≠ MESI_I) && (rdw (c_tag c) idx =? tag)
  then (true, rds (c_state c) idx)
  else (false, state_out).

Definition cache_read (c : Cache) (a : Z) : Z :=
  let idx := cache_index a in
  let offset := Z.land a OFFSET_MASK in
  rdw (c_data c) (idx * BLOCK_WORDS + offset).

Definition cache_write (c : Cache) (a data : Z) : Cache :=
  let idx := cache_index a in
  let offset := Z.land a OFFSET_MASK in
  {| c_data := wrw (c_data c) (idx * BLOCK_WORDS + offset) data;
     c_tag := c_tag c; c_state := c_state c |}.

(** ** Counters and latch field updates *)

Definition inc (x : Z) : Z := u32 (x + 1).

Definition inc_cycles (s : Stats) : Stats :=
  {| cycles := inc (cycles s); instructions := instructions s;
     read_hit := read_hit s; write_hit := write_hit s;
     read_miss := read_miss s; write_miss := write_miss s;
     decode_stall := decode_stall s; mem_stall := mem_stall s |}.
Definition inc_instructions (s : Stats) : Stats :=
  {| cycles := cycles s; instructions := inc (instructions s);
     read_hit := read_hit s; write_hit := write_hit s;
     read_miss := read_miss s; write_miss := write_miss s;
     decode_stall := decode_stall s; mem_stall := mem_stall s |}.
Definition inc_read_hit (s : Stats) : Stats :=
  {| cycles := cycles s; instructions := instructions s;
     read_hit := inc (read_hit s); write_hit := write_hit s;
     read_miss := read_miss s; write_miss := write_miss s;
     decode_stall := decode_stall s; mem_stall := mem_stall s |}.
Definition inc_write_hit (s : Stats) : Stats :=
  {| cycles := cycles s; instructions := instructions s;
     read_hit := read_hit s; write_hit := inc (write_hit s);
     read_miss := read_miss s; write_miss := write_miss s;
     decode_stall := decode_stall s; mem_stall := mem_stall s |}.
Definition inc_read_miss (s : Stats) : Stats :=
  {| cycles := cycles s; instructions := instructions s;
     read_hit := read_hit s; write_hit := write_hit s;
     read_miss := inc (read_miss s); write_miss := write_miss s;
     decode_stall := decode_stall s; mem_stall := mem_stall s |}.
Definition inc_write_miss (s : Stats) : Stats :=
  {| cycles := cycles s; instructions := instructions s;
     read_hit := read_hit s; write_hit := write_hit s;
     read_miss := read_miss s; write_miss := inc (write_miss s);
     decode_stall := decode_stall s; mem_stall := mem_stall s |}.
Definition inc_decode_stall (s : Stats) : Stats :=
  {| cycles := cycles s; instructions := instructions s;
     read_hit := read_hit s; write_hit := write_hit s;
     read_miss := read_miss s; write_miss := write_miss s;
     decode_stall := inc (decode_stall s); mem_stall := mem_stall s |}.
Definition inc_mem_stall (s : Stats) : Stats :=
  {| cycles := cycles s; instructions := instructions s;
     read_hit := read_hit s; write_hit := write_hit s;
     read_miss := read_miss s; write_miss := write_miss s;
     decode_stall := decode_stall s; mem_stall := inc (mem_stall s) |}.

Definition mem_set_request_queued (m : MemStage) (v : bool) : MemStage :=
  {| m_valid := m_valid m; m_inst := m_inst m; m_alu_result := m_alu_result m;
     m_mem_addr := m_mem_addr m; m_store_data := m_store_data m;
     m_is_load := m_is_load m; m_is_store := m_is_store m; m_miss := m_miss m;
     m_waiting := m_waiting m; m_request_queued := v;
     m_load_value := m_load_value m |}.
Definition mem_set_miss_waiting (m : MemStage) (v w : bool) : MemStage :=
  {| m_valid := m_valid m; m_inst := m_inst m; m_alu_result := m_alu_result m;
     m_mem_addr := m_mem_addr m; m_store_data := m_store_data m;
     m_is_load := m_is_load m; m_is_store := m_is_store m; m_miss := v;
     m_waiting := w; m_request_queued := m_request_queued m;
     m_load_value := m_load_value m |}.
Definition mem_set_valid (m : MemStage) (v : bool) : MemStage :=
  {| m_valid := v; m_inst := m_inst m; m_alu_result := m_alu_result m;
     m_mem_addr := m_mem_addr m; m_store_data := m_store_data m;
     m_is_load := m_is_load m; m_is_store := m_is_store m; m_miss := m_miss m;
     m_waiting := m_waiting m; m_request_queued := m_request_queued m;
     m_load_value := m_load_value m |}.
Definition mem_set_load_value (m : MemStage) (v : Z) : MemStage :=
  {| m_valid := m_valid m; m_inst := m_inst m; m_alu_result := m_alu_result m;
     m_mem_addr := m_mem_addr m; m_store_data := m_store_data m;
     m_is_load := m_is_load m; m_is_store := m_is_store m; m_miss := m_miss m;
     m_waiting := m_waiting m; m_request_queued := m_request_queued m;
     m_load_value := v |}.
Definition cache_set_state (c : Cache) (idx : Z) (v : mesi) : Cache :=
  {| c_data := c_data c; c_tag := c_tag c; c_state := wrs (c_state c) idx v |}.

(** ** ALU and branch compare (sim.c 523-550) *)

Definition perform_compare (inst : Instruction) (rs rt : Z) : bool :=
  if i_op inst =? OP_BEQ then rs =? rt
  else if i_op inst =? OP_BNE then negb (rs =? rt)
  else if i_op inst =? OP_BLT then rs <? rt
  else if i_op inst =? OP_BGT then rs >? rt
  else if i_op inst =? OP_BLE then rs <=? rt
  else if i_op inst =? OP_BGE then rs >=? rt
  else false.

(** [rs] and [rt] are [int32_t] values; the result is a [uint32_t]. *)
Definition perform_alu (inst : Instruction) (rs rt : Z) : Z :=
  let shift := Z.land (u32 rt) 31 in
  if i_op inst =? OP_ADD then u32 (rs + rt)
  else if i_op inst =? OP_SUB then u32 (rs - rt)
  else if i_op inst =? OP_AND then u32 (Z.land rs rt)
  else if i_op inst =? OP_OR then u32 (Z.lor rs rt)
  else if i_op inst =? OP_XOR then u32 (Z.lxor rs rt)
  else if i_op inst =? OP_MUL then u32 (rs * rt)
  else if i_op inst =? OP_SLL then u32 (Z.shiftl (u32 rs) shift)
  else if i_op inst =? OP_SRA then u32 (Z.shiftr rs shift)
  else if i_op inst =? OP_SRL then u32 (Z.shiftr (u32 rs) shift)
  else if i_op inst =? OP_JAL then u32 (Z.land (i_pc inst + 1) 1023)
  else 0.

(** ** One cycle of one core (sim.c 602-820) *)

(** Writeback commit (602-613). *)
Definition wb_commit (c : Core) : Core :=
  if w_valid (wb c) then
    let dst := dest_reg (w_inst (wb c)) in
    let c := if dst >=? 0 then set_regs c (wrw (regs c) dst (w_value (wb c))) else c in
    let c := set_stats c (inc_instructions (stats c)) in
    if i_op (w_inst (wb c)) =? OP_HALT then set_halted c true else c
  else c.

Record MemOut := {
  mo_core : Core; mo_req : BusRequest;
  mo_next_wb : WbStage; mo_next_mem : MemStage; mo_mem_advances : bool }.

(** Memory stage (629-694).  [i] is the core's index in [cores], [req] is
    [requests[i]], [next_wb] and [next_mem] start as [{0}] and [c->mem]. *)
Definition mem_stage (i : Z) (c : Core) (req : BusRequest) : MemOut :=
  let next_wb := wb0 in
  let next_mem := mem c in
  if negb (m_valid (mem c)) then
    {| mo_core := c; mo_req := req; mo_next_wb := next_wb;
       mo_next_mem := next_mem; mo_mem_advances := false |}
  else if m_waiting (mem c) then
    {| mo_core := set_stats c (inc_mem_stall (stats c)); mo_req := req;
       mo_next_wb := next_wb; mo_next_mem := next_mem; mo_mem_advances := false |}
  else
    let inst := m_inst (mem c) in
    if (i_op inst =? OP_LW) || (i_op inst =? OP_SW) then
      let counted := m_miss (mem c) in
      let '(hit, state) := cache_lookup (cache c) (m_mem_addr (mem c)) MESI_I in
      let c :=
        if counted then c
        else if hit && bool_decide (state ≠ MESI_I) then
          if i_op inst =? OP_LW then set_stats c (inc_read_hit (stats c))
          else set_stats c (inc_write_hit (stats c))
        else
          if i_op inst =? OP_LW then set_stats c (inc_read_miss (stats c))
          else set_stats c (inc_write_miss (stats c)) in
      if negb hit || bool_decide (state = MESI_I)
         || ((i_op inst =? OP_SW) && bool_decide (state = MESI_S)) then
        let '(c, req) :=
          if m_request_queued (mem c) then (c, req)
          else
            (set_mem c (mem_set_request_queued (mem c) true),
             {| r_active := true;
                r_cmd := if i_op inst =? OP_LW then BUS_RD else BUS_RDX;
                r_addr := Z.land (m_mem_addr (mem c)) (Z.shiftl 1 20 - 1);
                r_origin := i |}) in
        let next_mem := mem_set_miss_waiting next_mem true true in
        let c := set_stats c (inc_mem_stall (stats c)) in
        {| mo_core := c; mo_req := req; mo_next_wb := next_wb;
           mo_next_mem := next_mem; mo_mem_advances := false |}
      else if i_op inst =? OP_LW then
        let next_mem :=
          mem_set_load_value next_mem (cache_read (cache c) (m_mem_addr (mem c))) in
        let next_wb :=
          {| w_valid := true; w_inst := inst; w_value := m_load_value next_mem |} in
        let next_mem := mem_set_valid next_mem false in
        {| mo_core := c; mo_req := req; mo_next_wb := next_wb;
           mo_next_mem := next_mem; mo_mem_advances := true |}
      else
        let c :=
          set_cache c (cache_write (cache c) (m_mem_addr (mem c)) (m_store_data (mem c))) in
        let c :=
          if bool_decide (state = MESI_E)
          then set_cache c (cache_set_state (cache c) (cache_index (m_mem_addr (mem c))) MESI_M)
          else c in
        let next_wb := {| w_valid := true; w_inst := inst; w_value := 0 |} in
        let next_mem := mem_set_valid next_mem false in
        {| mo_core := c; mo_req := req; mo_next_wb := next_wb;
           mo_next_mem := next_mem; mo_mem_advances := true |}
    else
      let next_wb :=
        {| w_valid := true; w_inst := inst; w_value := m_alu_result (mem c) |} in
      let next_mem := mem_set_valid next_mem false in
      {| mo_core := c; mo_req := req; mo_next_wb := next_wb;
         mo_next_mem := next_mem; mo_mem_advances := true |}.

Record ExecOut := {
  eo_next_exec : ExecStage; eo_next_mem : MemStage; eo_exec_free_next : bool }.

(** Execute stage (696-721); [next_exec] starts as [c->exec]. *)
Definition exec_stage (c : Core) (next_mem : MemStage) (mem_advances : bool) : ExecOut :=
  let next_exec := exec c in
  let mem_free_next := negb (m_valid (mem c)) || mem_advances in
  let exec_can_move := e_valid (exec c) && mem_free_next in
  let exec_free_next := negb (e_valid (exec c)) || exec_can_move in
  if e_valid (exec c) && exec_can_move then
    let inst := e_inst (exec c) in
    let next_exec :=
      {| e_valid := false; e_inst := e_inst next_exec; e_rs_val := e_rs_val next_exec;
         e_rt_val := e_rt_val next_exec; e_rd_val := e_rd_val next_exec |} in
    let next_mem :=
      if (i_op inst =? OP_LW) || (i_op inst =? OP_SW) then
        let a := u32 (e_rs_val (exec c) + e_rt_val (exec c)) in
        {| m_valid := true; m_inst := inst; m_alu_result := 0;
           m_mem_addr := Z.land a (Z.shiftl 1 20 - 1);
           m_store_data := u32 (e_rd_val (exec c));
           m_is_load := (i_op inst =? OP_LW); m_is_store := (i_op inst =? OP_SW);
           m_miss := false; m_waiting := false; m_request_queued := false;
           m_load_value := 0 |}
      else
        {| m_valid := true; m_inst := inst;
           m_alu_result := perform_alu inst (e_rs_val (exec c)) (e_rt_val (exec c));
           m_mem_addr := m_mem_addr next_mem; m_store_data := m_store_data next_mem;
           m_is_load := false; m_is_store := false;
           m_miss := false; m_waiting := false; m_request_queued := false;
           m_load_value := 0 |} in
    {| eo_next_exec := next_exec; eo_next_mem := next_mem;
       eo_exec_free_next := exec_free_next |}
  else
    {| eo_next_exec := next_exec; eo_next_mem := next_mem;
       eo_exec_free_next := exec_free_next |}.

Record DecOut := {
  do_core : Core; do_next_exec : ExecStage; do_next_decode : DecodeStage;
  do_decode_moves : bool; do_decode_free_next : bool; do_fetch_moves : bool }.

(** The body of the hazard loop (731-742) for one source register. *)
Definition hazard_on (c : Core) (decode_stall : bool) (reg : Z) : bool :=
  if reg <=? 1 then decode_stall
  else
    let s := if e_valid (exec c) && (dest_reg (e_inst (exec c)) =? reg) then true else decode_stall in
    let s := if m_valid (mem c) && (dest_reg (m_inst (mem c)) =? reg) then true else s in
    if w_valid (wb c) && (dest_reg (w_inst (wb c)) =? reg) then true else s.

(** Decode stage, first half (723-747): the write of R1 and the hazard
    check.  Returns the core and [decode_stall]. *)
Definition decode_hazard (c : Core) (exec_free_next : bool) : Core * bool :=
  if d_valid (decode c) then
    let inst := d_inst (decode c) in
    let c := set_regs c (wrw (regs c) 1 (u32 (i_imm inst))) in
    let srcs := source_regs inst in
    let decode_stall := foldl (hazard_on c) false srcs in
    let decode_stall := if negb exec_free_next then true else decode_stall in
    let c := if decode_stall then set_stats c (inc_decode_stall (stats c)) else c in
    (c, decode_stall)
  else (c, false).

(** Decode stage, second half (749-783): branch resolution and the hand-over
    to Execute. *)
Definition decode_issue (c : Core) (next_exec : ExecStage) : Core * ExecStage :=
  let inst := d_inst (decode c) in
  let next_exec :=
    {| e_valid := true; e_inst := inst;
       e_rs_val := i32 (rdw (regs c) (i_rs inst));
       e_rt_val := i32 (rdw (regs c) (i_rt inst));
       e_rd_val := i32 (rdw (regs c) (i_rd inst)) |} in
  let c :=
    if (OP_BEQ <=? i_op inst) && (i_op inst <=? OP_BGE) then
      let taken := perform_compare inst (e_rs_val next_exec) (e_rt_val next_exec) in
      if taken then set_redirect c true (Z.land (rdw (regs c) (i_rd inst)) 1023) else c
    else if i_op inst =? OP_JAL then
      set_redirect c true (Z.land (rdw (regs c) (i_rd inst)) 1023)
    else c in
  let c := set_regs c (wrw (regs c) 1 (u32 (i_imm inst))) in
  (c, next_exec).

(** Decode stage (723-783); [next_decode] starts as [c->decode]. *)
Definition decode_stage (c : Core) (next_exec : ExecStage) (exec_free_next : bool) : DecOut :=
  let next_decode := decode c in
  let decode_has_inst := d_valid (decode c) in
  let hz := decode_hazard c exec_free_next in
  let decode_stall := hz.2 in
  let decode_moves := decode_has_inst && negb decode_stall && exec_free_next in
  let decode_free_next := negb (d_valid (decode c)) || decode_moves in
  let fetch_moves := f_valid (fetch c) && decode_free_next in
  if decode_moves then
    let iss := decode_issue hz.1 next_exec in
    let next_decode := {| d_valid := false; d_inst := d_inst next_decode |} in
    {| do_core := iss.1; do_next_exec := iss.2; do_next_decode := next_decode;
       do_decode_moves := decode_moves; do_decode_free_next := decode_free_next;
       do_fetch_moves := fetch_moves |}
  else
    let next_decode :=
      if negb decode_stall then {| d_valid := false; d_inst := d_inst next_decode |}
      else next_decode in
    {| do_core := hz.1; do_next_exec := next_exec; do_next_decode := next_decode;
       do_decode_moves := decode_moves; do_decode_free_next := decode_free_next;
       do_fetch_moves := fetch_moves |}.

Record FetchOut := {
  fo_core : Core; fo_next_decode : DecodeStage; fo_next_fetch : FetchStage }.

(** Fetch stage (785-809); [next_fetch] starts as [c->fetch]. *)
Definition fetch_stage (c : Core) (next_decode : DecodeStage)
    (decode_free_next fetch_moves : bool) : FetchOut :=
  let next_fetch := fetch c in
  let next_decode :=
    if fetch_moves then {| d_valid := true; d_inst := f_inst (fetch c) |}
    else next_decode in
  if negb (stop_fetch c) && decode_free_next then
    if redirect_pending c then
      let inst := decode_inst (rdw (imem c) (redirect_pc c)) (redirect_pc c) in
      let next_fetch := {| f_valid := true; f_inst := inst |} in
      let c := set_pc c (Z.land (redirect_pc c + 1) (IMEM_SIZE - 1)) in
      let c := set_redirect c false (redirect_pc c) in
      {| fo_core := c; fo_next_decode := next_decode; fo_next_fetch := next_fetch |}
    else
      let inst := decode_inst (rdw (imem c) (pc c)) (pc c) in
      let next_fetch := {| f_valid := true; f_inst := inst |} in
      let c := if i_op inst =? OP_HALT then set_stop_fetch c true else c in
      let c := set_pc c (Z.land (pc c + 1) (IMEM_SIZE - 1)) in
      {| fo_core := c; fo_next_decode := next_decode; fo_next_fetch := next_fetch |}
  else if fetch_moves then
    {| fo_core := c; fo_next_decode := next_decode;
       fo_next_fetch := {| f_valid := false; f_inst := f_inst next_fetch |} |}
  else
    {| fo_core := c; fo_next_decode := next_decode; fo_next_fetch := next_fetch |}.

(** [if (!c->done) c->stats.cycles++;] (618-619). *)
Definition count_cycle (c : Core) : Core :=
  if negb (done_ c) then set_stats c (inc_cycles (stats c)) else c.

(** The body of the pipeline-advance loop (616-820) for core [i]. *)
Definition advance_core (i : Z) (c : Core) (req : BusRequest) : Core * BusRequest :=
  let c := count_cycle c in
  let mo := mem_stage i c req in
  let eo := exec_stage (mo_core mo) (mo_next_mem mo) (mo_mem_advances mo) in
  let dc := decode_stage (mo_core mo) (eo_next_exec eo) (eo_exec_free_next eo) in
  let fo := fetch_stage (do_core dc) (do_next_decode dc)
              (do_decode_free_next dc) (do_fetch_moves dc) in
  let c := set_latches (fo_core fo) (mo_next_wb mo) (eo_next_mem eo)
             (do_next_exec dc) (fo_next_decode fo) (fo_next_fetch fo) in
  let any_valid :=
    f_valid (fetch c) || d_valid (decode c) || e_valid (exec c)
    || m_valid (mem c) || w_valid (wb c) in
  let c := if halted c && negb any_valid then set_done c true else c in
  (c, mo_req mo).

(** ** Bus helpers (sim.c 390-482) *)

Definition set_bus_out (b : BusState) (c : bus_cmd) (o a d s : Z) : BusState :=
  {| phase := phase b; cmd := cmd b; origin := origin b; addr := addr b;
     shared := shared b; provider := provider b; block := block b;
     delay := delay b; index := index b;
     bus_cmd_out := c; bus_origid_out := o; bus_addr_out := a;
     bus_data_out := d; bus_shared_out := s |}.

Definition reset_bus_out (b : BusState) : BusState := set_bus_out b BUS_NONE 0 0 0 0.

Definition set_phase (b : BusState) (p : Z) : BusState :=
  {| phase := p; cmd := cmd b; origin := origin b; addr := addr b;
     shared := shared b; provider := provider b; block := block b;
     delay := delay b; index := index b;
     bus_cmd_out := bus_cmd_out b; bus_origid_out := bus_origid_out b;
     bus_addr_out := bus_addr_out b; bus_data_out := bus_data_out b;
     bus_shared_out := bus_shared_out b |}.
Definition set_cmd (b : BusState) (c : bus_cmd) : BusState :=
  {| phase := phase b; cmd := c; origin := origin b; addr := addr b;
     shared := shared b; provider := provider b; block := block b;
     delay := delay b; index := index b;
     bus_cmd_out := bus_cmd_out b; bus_origid_out := bus_origid_out b;
     bus_addr_out := bus_addr_out b; bus_data_out := bus_data_out b;
     bus_shared_out := bus_shared_out b |}.
Definition set_delay (b : BusState) (d : Z) : BusState :=
  {| phase := phase b; cmd := cmd b; origin := origin b; addr := addr b;
     shared := shared b; provider := provider b; block := block b;
     delay := d; index := index b;
     bus_cmd_out := bus_cmd_out b; bus_origid_out := bus_origid_out b;
     bus_addr_out := bus_addr_out b; bus_data_out := bus_data_out b;
     bus_shared_out := bus_shared_out b |}.
Definition set_index (b : BusState) (i : Z) : BusState :=
  {| phase := phase b; cmd := cmd b; origin := origin b; addr := addr b;
     shared := shared b; provider := provider b; block := block b;
     delay := delay b; index := i;
     bus_cmd_out := bus_cmd_out b; bus_origid_out := bus_origid_out b;
     bus_addr_out := bus_addr_out b; bus_data_out := bus_data_out b;
     bus_shared_out := bus_shared_out b |}.

(** [addr & ~(BLOCK_WORDS - 1)] on [uint32_t]. *)
Definition block_base (a : Z) : Z := Z.land a (u32 (Z.lnot (BLOCK_WORDS - 1))).

Definition mem_clear_waiting (m : MemStage) : MemStage :=
  mem_set_miss_waiting m (m_miss m) false.

Definition complete_transaction (b : BusState) (cores : list Core) (ram : gmap Z Z)
    : list Core * gmap Z Z :=
  if (origin b <? 0) || (origin b >=? NUM_CORES) then (cores, ram)
  else
    let base := block_base (addr b) in
    let ram :=
      copy_block (λ i, Z.land (u32 (base + i)) (MAIN_MEM_WORDS - 1))
                 (λ i, rdw (block b) i) ram in
    match cores !! Z.to_nat (origin b) with
    | None => (cores, ram)
    | Some c =>
        let idx := cache_index base in
        let tag := cache_tag base in
        let new_state :=
          if bool_decide (cmd b = BUS_RD)
          then (if shared b =? 0 then MESI_E else MESI_S)
          else MESI_M in
        let '(ca, ram) := fill_cache_line (cache c) idx tag (block b) new_state ram in
        let c := set_cache c ca in
        let c :=
          if m_valid (mem c) && m_waiting (mem c)
          then set_mem c (mem_clear_waiting (mem c)) else c in
        (<[Z.to_nat (origin b) := c]> cores, ram)
    end.

(** The three out-parameters of [apply_snoop]. *)
Record Snoop := { sn_shared : Z; sn_provider : Z; sn_block : gmap Z Z }.

Definition apply_snoop (ca : Cache) (cache_id origin : Z) (cmd : bus_cmd) (a : Z)
    (out : Snoop) : Cache * Snoop :=
  if cache_id =? origin then (ca, out)
  else
    let idx := cache_index a in
    let tag := cache_tag a in
    let state := rds (c_state ca) idx in
    if bool_decide (state = MESI_I) || negb (rdw (c_tag ca) idx =? tag) then (ca, out)
    else
      if bool_decide (state = MESI_M) then
        let blk :=
          copy_block (λ i, i) (λ i, rdw (c_data ca) (idx * BLOCK_WORDS + i)) (sn_block out) in
        (cache_set_state ca idx (if bool_decide (cmd = BUS_RD) then MESI_S else MESI_I),
         {| sn_shared := 1; sn_provider := cache_id; sn_block := blk |})
      else if bool_decide (state = MESI_E) then
        (cache_set_state ca idx (if bool_decide (cmd = BUS_RD) then MESI_S else MESI_I),
         {| sn_shared := 1; sn_provider := sn_provider out; sn_block := sn_block out |})
      else if bool_decide (state = MESI_S) && bool_decide (cmd = BUS_RDX) then
        (cache_set_state ca idx MESI_I,
         {| sn_shared := 1; sn_provider := sn_provider out; sn_block := sn_block out |})
      else
        (ca, {| sn_shared := 1; sn_provider := sn_provider out; sn_block := sn_block out |}).

(** The snoop loop (457-459) over [cores[i..]]. *)
Fixpoint snoop_caches (i : Z) (cores : list Core) (origin : Z) (cmd : bus_cmd) (a : Z)
    (out : Snoop) : list Core * Snoop :=
  match cores with
  | [] => ([], out)
  | c :: rest =>
      let '(ca, out) := apply_snoop (cache c) i origin cmd a out in
      let '(rest, out) := snoop_caches (i + 1) rest origin cmd a out in
      (set_cache c ca :: rest, out)
  end.

Definition start_bus_transaction (b : BusState) (req : BusRequest) (cores : list Core)
    (mem : gmap Z Z) : BusState * list Core :=
  let '(cores, out) :=
    snoop_caches 0 cores (r_origin req) (r_cmd req) (r_addr req)
      {| sn_shared := 0; sn_provider := -1; sn_block := ∅ |} in
  let b :=
    if sn_provider out =? -1 then
      let base := block_base (r_addr req) in
      {| phase := 1; cmd := r_cmd req; origin := r_origin req; addr := r_addr req;
         shared := sn_shared out; provider := 4;
         block := copy_block (λ i, i)
                    (λ i, rdw mem (Z.land (u32 (base + i)) (MAIN_MEM_WORDS - 1))) (block b);
         delay := 16; index := 0;
         bus_cmd_out := bus_cmd_out b; bus_origid_out := bus_origid_out b;
         bus_addr_out := bus_addr_out b; bus_data_out := bus_data_out b;
         bus_shared_out := bus_shared_out b |}
    else
      {| phase := 1; cmd := r_cmd req; origin := r_origin req; addr := r_addr req;
         shared := sn_shared out; provider := sn_provider out;
         block := copy_block (λ i, i) (λ i, rdw (sn_block out) i) (block b);
         delay := 0; index := 0;
         bus_cmd_out := bus_cmd_out b; bus_origid_out := bus_origid_out b;
         bus_addr_out := bus_addr_out b; bus_data_out := bus_data_out b;
         bus_shared_out := bus_shared_out b |} in
  (set_bus_out b (r_cmd req) (r_origin req)
     (Z.land (r_addr req) (Z.shiftl 1 20 - 1)) 0 (shared b), cores).

(** ** The main loop of [simulate] (sim.c 552-885) *)

Record Sim := {
  cores : list Core;
  requests : list BusRequest;
  bus : BusState;
  rr_next : Z;
  main_mem : gmap Z Z;
  cycle : Z }.

(** [load_imem] and [load_mem]: the words of the file, the rest zero. *)
Definition load_words (size : Z) (lines : list Z) : gmap Z Z :=
  list_to_map (imap (λ i w, (Z.of_nat i, u32 w)) (take (Z.to_nat size) lines)).

Definition init_core (i : Z) (lines : list Z) : Core :=
  let im := load_words IMEM_SIZE lines in
  let first := decode_inst (rdw im 0) 0 in
  {| id := i; imem := im; regs := wrw (wrw ∅ 0 0) 1 0; pc := Z.land (0 + 1) (IMEM_SIZE - 1);
     redirect_pending := false; redirect_pc := 0;
     stop_fetch := (i_op first =? OP_HALT); halted := false; done_ := false;
     fetch := {| f_valid := true; f_inst := first |};
     decode := decode0; exec := exec0; mem := mem0; wb := wb0;
     cache := cache0; stats := stats0 |}.

(** The state on entry to the loop, from the four instruction files and the
    memory image. *)
Definition init_sim (imem0 imem1 imem2 imem3 memin : list Z) : Sim :=
  {| cores := imap (λ i lines, init_core (Z.of_nat i) lines) [imem0; imem1; imem2; imem3];
     requests := replicate 4 request0;
     bus := bus0; rr_next := 0;
     main_mem := load_words MAIN_MEM_WORDS memin;
     cycle := 0 |}.

(** The pipeline-advance loop over [cores[i..]] and [requests[i..]]. *)
Fixpoint advance_cores (i : Z) (cs : list Core) (rs : list BusRequest)
    : list Core * list BusRequest :=
  match cs, rs with
  | c :: cs, r :: rs =>
      let '(c, r) := advance_core i c r in
      let '(cs, rs) := advance_cores (i + 1) cs rs in
      (c :: cs, r :: rs)
  | _, _ => (cs, rs)
  end.

Definition request_active (rs : list BusRequest) (idx : Z) : bool :=
  match rs !! Z.to_nat idx with Some r => r_active r | None => false end.

(** The arbitration scan (825-831) over the remaining values of [k]. *)
Fixpoint scan_requests (ks : list Z) (rs : list BusRequest) (rr : Z) : Z :=
  match ks with
  | [] => -1
  | k :: ks =>
      let idx := Z.rem (rr + k) NUM_CORES in
      if request_active rs idx then idx else scan_requests ks rs rr
  end.

Definition deactivate (r : BusRequest) : BusRequest :=
  {| r_active := false; r_cmd := r_cmd r; r_addr := r_addr r; r_origin := r_origin r |}.

Definition set_bus (s : Sim) (b : BusState) : Sim :=
  {| cores := cores s; requests := requests s; bus := b; rr_next := rr_next s;
     main_mem := main_mem s; cycle := cycle s |}.

(** Bus arbitration (822-839). *)
Definition arbitrate (s : Sim) : Sim :=
  if phase (bus s) =? 0 then
    let chosen := scan_requests (seqZ 0 NUM_CORES) (requests s) (rr_next s) in
    if chosen =? -1 then s
    else
      match requests s !! Z.to_nat chosen with
      | None => s
      | Some req =>
          let '(b, cs) := start_bus_transaction (bus s) req (cores s) (main_mem s) in
          {| cores := cs;
             requests := <[Z.to_nat chosen := deactivate req]> (requests s);
             bus := b; rr_next := Z.rem (chosen + 1) NUM_CORES;
             main_mem := main_mem s; cycle := cycle s |}
      end
  else s.

(** Bus output for this cycle (841-856). *)
Definition drive_bus (b : BusState) : BusState :=
  if phase b =? 2 then
    set_bus_out b BUS_FLUSH (provider b) (u32 (block_base (addr b) + index b))
      (rdw (block b) (index b)) (shared b)
  else if (phase b =? 1) && (delay b =? 0) && bool_decide (bus_cmd_out b = BUS_NONE) then
    let b := set_index (set_phase b 2) 0 in
    set_bus_out b BUS_FLUSH (provider b) (u32 (block_base (addr b) + index b))
      (rdw (block b) (index b)) (shared b)
  else b.

(** Bus timing advance (860-870). *)
Definition advance_bus (s : Sim) : Sim :=
  let b := bus s in
  if (phase b =? 1) && (delay b >? 0) then set_bus s (set_delay b (delay b - 1))
  else if (phase b =? 2) && bool_decide (bus_cmd_out b = BUS_FLUSH) then
    let b := set_index b (index b + 1) in
    if index b >=? BLOCK_WORDS then
      let '(cs, m) := complete_transaction b (cores s) (main_mem s) in
      {| cores := cs; requests := requests s;
         bus := set_cmd (set_phase b 0) BUS_NONE; rr_next := rr_next s;
         main_mem := m; cycle := cycle s |}
    else set_bus s b
  else s.

(** The pipeline part of one cycle: Writeback commit for every core, then
    the next-state computation of every core. *)
Definition pipeline_phase (s : Sim) : Sim :=
  let cs := wb_commit <$> cores s in
  let '(cs, rs) := advance_cores 0 cs (requests s) in
  {| cores := cs; requests := rs; bus := bus s; rr_next := rr_next s;
     main_mem := main_mem s; cycle := cycle s |}.

(** The bus part of one cycle. *)
Definition bus_phase (s : Sim) : Sim :=
  let s := arbitrate s in
  advance_bus (set_bus s (drive_bus (bus s))).

(** One iteration of the loop, up to the exit tests, followed by [cycle++]. *)
Definition sim_cycle (s : Sim) : Sim :=
  let s := set_bus s (reset_bus_out (bus s)) in
  let s := bus_phase (pipeline_phase s) in
  {| cores := cores s; requests := requests s; bus := bus s; rr_next := rr_next s;
     main_mem := main_mem s; cycle := cycle s + 1 |}.


(** The state at the start of cycle [n]. *)
Fixpoint run (n : nat) (s : Sim) : Sim :=
  match n with
  | O => s
  | S n => sim_cycle (run n s)
  end.

(** * Properties *)

(** ** Arrays *)

Lemma rdw_wrw_eq (a : gmap Z Z) i v : rdw (wrw a i v) i = v.
Proof. unfold rdw, wrw. by rewrite lookup_insert_eq. Qed.

Lemma rdw_wrw_ne (a : gmap Z Z) i j v : i ≠ j → rdw (wrw a i v) j = rdw a j.
Proof. intros. unfold rdw, wrw. by rewrite lookup_insert_ne. Qed.

Lemma rds_wrs_eq (a : gmap Z mesi) i v : rds (wrs a i v) i = v.
Proof. unfold rds, wrs. by rewrite lookup_insert_eq. Qed.

Lemma rds_wrs_ne (a : gmap Z mesi) i j v : i ≠ j → rds (wrs a i v) j = rds a j.
Proof. intros. unfold rds, wrs. by rewrite lookup_insert_ne. Qed.

Section copy_loop.
Variables dst src : Z → Z.

Let body (a : gmap Z Z) (i : Z) : gmap Z Z := wrw a (dst i) (src i).

Lemma copy_loop_out (ks : list Z) (a : gmap Z Z) (k : Z) :
  (∀ i, i ∈ ks → dst i ≠ k) → rdw (foldl body a ks) k = rdw a k.
Proof.
  revert a. induction ks as [|i ks IH]; intros a Hk; simpl; [done|].
  rewrite IH.
  - unfold body. apply rdw_wrw_ne, Hk. by left.
  - intros j Hj. apply Hk. by right.
Qed.

Lemma copy_loop_in (ks : list Z) (a : gmap Z Z) (i : Z) :
  (∀ j, j ∈ ks → dst j = dst i → j = i) → i ∈ ks →
  rdw (foldl body a ks) (dst i) = src i.
Proof.
  revert a. induction ks as [|j ks IH]; intros a Hinj Hi; simpl.
  - by apply elem_of_nil in Hi.
  - destruct (decide (i ∈ ks)) as [Hin|Hout].
    + apply IH; [|done]. intros k Hk. apply Hinj. by right.
    + apply elem_of_cons in Hi as [->|]; [|done].
      rewrite copy_loop_out.
      * unfold body. apply rdw_wrw_eq.
      * intros k Hk Heq. apply Hout.
        rewrite <- (Hinj k); [done| by right | done].
Qed.
End copy_loop.

Lemma copy_block_in dst src a i :
  (∀ j, 0 ≤ j < BLOCK_WORDS → dst j = dst i → j = i) → 0 ≤ i < BLOCK_WORDS →
  rdw (copy_block dst src a) (dst i) = src i.
Proof.
  intros Hinj Hi. unfold copy_block. apply copy_loop_in.
  - intros j Hj. apply Hinj. apply elem_of_seqZ in Hj. lia.
  - apply elem_of_seqZ. lia.
Qed.

Lemma copy_block_out dst src a k :
  (∀ i, 0 ≤ i < BLOCK_WORDS → dst i ≠ k) →
  rdw (copy_block dst src a) k = rdw a k.
Proof.
  intros Hk. unfold copy_block. apply copy_loop_out.
  intros i Hi. apply Hk. apply elem_of_seqZ in Hi. lia.
Qed.

(** ** Address arithmetic *)

(** Bits [hi:lo] of [a], as the spec names address fields. *)
Definition bits (hi lo a : Z) : Z := (a / 2 ^ lo) mod 2 ^ (hi - lo + 1).

Lemma cache_index_div a : cache_index a = (a / 8) mod 64.
Proof.
  unfold cache_index, INDEX_MASK, INDEX_BITS, OFFSET_BITS.
  change (Z.shiftl 1 6 - 1) with (Z.ones 6).
  by rewrite Z.land_ones, Z.shiftr_div_pow2 by lia.
Qed.

Lemma cache_tag_div a : cache_tag a = (a / 512) mod 2048.
Proof.
  unfold cache_tag, TAG_MASK, TAG_BITS, INDEX_BITS, OFFSET_BITS.
  change (Z.shiftl 1 (20 - 3 - 6) - 1) with (Z.ones 11).
  by rewrite Z.land_ones, Z.shiftr_div_pow2 by lia.
Qed.

Lemma offset_mod a : Z.land a OFFSET_MASK = a mod 8.
Proof.
  unfold OFFSET_MASK, OFFSET_BITS. change (Z.shiftl 1 3 - 1) with (Z.ones 3).
  by rewrite Z.land_ones by lia.
Qed.

Lemma block_base_div a : 0 ≤ a < 2 ^ 32 → block_base a = 8 * (a / 8).
Proof.
  intros Ha. unfold block_base.
  change (u32 (Z.lnot (BLOCK_WORDS - 1))) with (Z.land (Z.ones 32) (Z.lnot (Z.ones 3))).
  rewrite Z.land_assoc, (Z.land_ones a 32) by lia.
  rewrite Z.mod_small by lia.
  rewrite <- Z.ldiff_land, Z.ldiff_ones_r by lia.
  rewrite Z.shiftl_mul_pow2, Z.shiftr_div_pow2 by lia.
  change (2 ^ 3) with 8. lia.
Qed.

Lemma cache_index_block_base a : 0 ≤ a < 2 ^ 32 → cache_index (block_base a) = cache_index a.
Proof.
  intros Ha. rewrite block_base_div, !cache_index_div by done.
  by rewrite (Z.mul_comm 8), Z.div_mul by lia.
Qed.

Lemma cache_tag_block_base a : 0 ≤ a < 2 ^ 32 → cache_tag (block_base a) = cache_tag a.
Proof.
  intros Ha. rewrite block_base_div, !cache_tag_div by done.
  f_equal. change 512 with (8 * 64).
  rewrite <- !Z.div_div by lia. by rewrite (Z.mul_comm 8), Z.div_mul by lia.
Qed.

Lemma cache_tag_range a : 0 ≤ cache_tag a < 2048.
Proof. rewrite cache_tag_div. apply Z.mod_pos_bound. lia. Qed.

Lemma cache_index_range a : 0 ≤ cache_index a < 64.
Proof. rewrite cache_index_div. apply Z.mod_pos_bound. lia. Qed.

Lemma land_tag_mask t : 0 ≤ t < 2048 → Z.land t TAG_MASK = t.
Proof.
  intros Ht. unfold TAG_MASK, TAG_BITS, INDEX_BITS, OFFSET_BITS.
  change (Z.shiftl 1 (20 - 3 - 6) - 1) with (Z.ones 11).
  rewrite Z.land_ones by lia. apply Z.mod_small. lia.
Qed.

Lemma fill_cache_line_line c idx tag blk st ram :
  let c' := (fill_cache_line c idx tag blk st ram).1 in
  rdw (c_tag c') idx = Z.land tag TAG_MASK ∧ rds (c_state c') idx = st ∧
  ∀ i, 0 ≤ i < BLOCK_WORDS → rdw (c_data c') (idx * BLOCK_WORDS + i) = rdw blk i.
Proof.
  simpl. split; [apply rdw_wrw_eq|]. split; [apply rds_wrs_eq|].
  intros i Hi. apply (copy_block_in (λ i, idx * BLOCK_WORDS + i) (λ i, rdw blk i)); [|done].
  intros j _ Hj. lia.
Qed.

Lemma fill_cache_line_other c idx tag blk st ram j :
  j ≠ idx →
  let c' := (fill_cache_line c idx tag blk st ram).1 in
  rdw (c_tag c') j = rdw (c_tag c) j ∧ rds (c_state c') j = rds (c_state c) j.
Proof.
  intros Hj. simpl. split; [by apply rdw_wrw_ne | by apply rds_wrs_ne].
Qed.

Lemma cache_lookup_hit c a st :
  (cache_lookup c a st).1 = true ↔
  rds (c_state c) (cache_index a) ≠ MESI_I ∧ rdw (c_tag c) (cache_index a) = cache_tag a.
Proof.
  unfold cache_lookup.
  destruct (bool_decide (rds (c_state c) (cache_index a) ≠ MESI_I)) eqn:Hs;
    [apply bool_decide_eq_true in Hs | apply bool_decide_eq_false in Hs];
    (destruct (rdw (c_tag c) (cache_index a) =? cache_tag a) eqn:Ht;
      [apply Z.eqb_eq in Ht | apply Z.eqb_neq in Ht]); simpl;
    (split; [intros Hh | intros [H1 H2]]); done.
Qed.

Lemma cache_lookup_state c a st :
  (cache_lookup c a st).1 = true →
  (cache_lookup c a st).2 = rds (c_state c) (cache_index a).
Proof.
  unfold cache_lookup.
  by destruct (bool_decide _ && (_ =? _)).
Qed.

Lemma cache_lookup_miss c a st :
  (cache_lookup c a st).1 = false → (cache_lookup c a st).2 = st.
Proof.
  unfold cache_lookup.
  by destruct (bool_decide _ && (_ =? _)).
Qed.

(** C9.  For a word address [a < 2^20] the cache operations use
    offset = bits 2:0, index = bits 8:3 and tag = bits 20:9 of [a] (a tag
    that fits in 12 bits): [cache_lookup] hits iff the line at that index
    is not in state I and stores that tag, and then returns the line's
    state; [cache_read] and [cache_write] access word [index * 8 + offset];
    the fill of the block of [a] writes that tag, the new state and the 8
    words into the line at that index. *)
Theorem cache_address_decomposition (a : Z) (Ha : 0 ≤ a < 2 ^ 20) :
  Z.land a OFFSET_MASK = bits 2 0 a ∧
  cache_index a = bits 8 3 a ∧
  cache_tag a = bits 20 9 a ∧
  0 ≤ cache_tag a < 2 ^ 12 ∧
  (∀ c st, (cache_lookup c a st).1 = true ↔
     rds (c_state c) (bits 8 3 a) ≠ MESI_I ∧ rdw (c_tag c) (bits 8 3 a) = bits 20 9 a) ∧
  (∀ c st, (cache_lookup c a st).1 = true →
     (cache_lookup c a st).2 = rds (c_state c) (bits 8 3 a)) ∧
  (∀ c, cache_read c a = rdw (c_data c) (bits 8 3 a * 8 + bits 2 0 a)) ∧
  (∀ c v, cache_write c a v =
     {| c_data := wrw (c_data c) (bits 8 3 a * 8 + bits 2 0 a) v;
        c_tag := c_tag c; c_state := c_state c |}) ∧
  (∀ c blk st ram,
     let c' := (fill_cache_line c (cache_index (block_base a)) (cache_tag (block_base a))
                  blk st ram).1 in
     rdw (c_tag c') (bits 8 3 a) = bits 20 9 a ∧
     rds (c_state c') (bits 8 3 a) = st ∧
     ∀ i, 0 ≤ i < 8 → rdw (c_data c') (bits 8 3 a * 8 + i) = rdw blk i).
Proof.
  assert (Hoff : Z.land a OFFSET_MASK = bits 2 0 a).
  { rewrite offset_mod. unfold bits. by rewrite Z.div_1_r. }
  assert (Hidx : cache_index a = bits 8 3 a) by apply cache_index_div.
  assert (Htag : cache_tag a = bits 20 9 a).
  { rewrite cache_tag_div. unfold bits.
    change (2 ^ 9) with 512. change (2 ^ (20 - 9 + 1)) with 4096.
    assert (0 ≤ a / 512 < 2048) by (split; [apply Z.div_pos | apply Z.div_lt_upper_bound]; lia).
    rewrite !Z.mod_small; lia. }
  do 3 (split; [done|]).
  split; [pose proof (cache_tag_range a); lia|].
  split_and!.
  - intros c st. rewrite <- Hidx, <- Htag. apply cache_lookup_hit.
  - intros c st. rewrite <- Hidx. apply cache_lookup_state.
  - intros c. unfold cache_read. by rewrite Hoff, Hidx.
  - intros c v. unfold cache_write. by rewrite Hoff, Hidx.
  - intros c blk st ram.
    rewrite cache_index_block_base, cache_tag_block_base by lia.
    rewrite <- Hidx, <- Htag.
    destruct (fill_cache_line_line c (cache_index a) (cache_tag a) blk st ram)
      as (Ht & Hs & Hd).
    split_and!; [|done|done].
    rewrite Ht. apply land_tag_mask, cache_tag_range.
Qed.

Lemma cache_address_decomposition_witness :
  Z.land 74565 OFFSET_MASK = 5 ∧ cache_index 74565 = 40 ∧ cache_tag 74565 = 145.
Proof.
  destruct (cache_address_decomposition 74565) as (H1 & H2 & H3 & _); [lia|].
  rewrite H1, H2, H3. by vm_compute.
Defined.

(** ** Undefined opcodes *)






Lemma wb_commit_regs c :
  w_valid (wb c) = true →
  regs (wb_commit c) =
    if dest_reg (w_inst (wb c)) >=? 0
    then wrw (regs c) (dest_reg (w_inst (wb c))) (w_value (wb c))
    else regs c.
Proof.
  unfold wb_commit. intros ->.
  destruct (dest_reg _ >=? 0); simpl; by destruct (i_op _ =? OP_HALT).
Qed.

Lemma wb_commit_instructions c :
  w_valid (wb c) = true →
  instructions (stats (wb_commit c)) = inc (instructions (stats c)).
Proof.
  unfold wb_commit. intros ->.
  destruct (dest_reg _ >=? 0); simpl; by destruct (i_op _ =? OP_HALT).
Qed.

Lemma wb_commit_invalid c : w_valid (wb c) = false → wb_commit c = c.
Proof. unfold wb_commit. by intros ->. Qed.



(** ** Bus arbitration *)

Lemma start_bus_transaction_out b req cs m :
  let b' := (start_bus_transaction b req cs m).1 in
  phase b' = 1 ∧ cmd b' = r_cmd req ∧ origin b' = r_origin req ∧ addr b' = r_addr req ∧
  index b' = 0 ∧ bus_cmd_out b' = r_cmd req ∧ bus_origid_out b' = r_origin req ∧
  bus_addr_out b' = Z.land (r_addr req) (Z.shiftl 1 20 - 1) ∧
  bus_shared_out b' = shared b'.
Proof.
  unfold start_bus_transaction.
  destruct (snoop_caches _ _ _ _ _ _) as [cs' out].
  by destruct (sn_provider out =? -1).
Qed.

Lemma scan_requests_spec (ks : list Z) (rs : list BusRequest) (rr : Z) :
  (scan_requests ks rs rr = -1 ∧
   ∀ k, k ∈ ks → request_active rs (Z.rem (rr + k) NUM_CORES) = false) ∨
  (∃ pre k post,
     ks = pre ++ k :: post ∧
     scan_requests ks rs rr = Z.rem (rr + k) NUM_CORES ∧
     request_active rs (Z.rem (rr + k) NUM_CORES) = true ∧
     ∀ j, j ∈ pre → request_active rs (Z.rem (rr + j) NUM_CORES) = false).
Proof.
  induction ks as [|k ks IH]; simpl.
  - left. split; [done|]. intros k Hk. by apply elem_of_nil in Hk.
  - destruct (request_active rs (Z.rem (rr + k) NUM_CORES)) eqn:Hk.
    + right. exists [], k, ks. split_and!; try done.
      intros j Hj. by apply elem_of_nil in Hj.
    + destruct IH as [[Hnone Hall]|(pre & k' & post & -> & Hw & Hact & Hpre)].
      * left. split; [done|]. intros j [->|Hj]%elem_of_cons; auto.
      * right. exists (k :: pre), k', post. split_and!; try done.
        intros j [->|Hj]%elem_of_cons; auto.
Qed.

Lemma scan_requests_first (rs : list BusRequest) (rr : Z) :
  0 ≤ rr < 4 →
  let w := scan_requests (seqZ 0 NUM_CORES) rs rr in
  (w = -1 ∧ ∀ i, 0 ≤ i < 4 → request_active rs i = false) ∨
  (∃ k, 0 ≤ k < 4 ∧ w = (rr + k) mod 4 ∧ request_active rs w = true ∧
        ∀ j, 0 ≤ j < k → request_active rs ((rr + j) mod 4) = false).
Proof.
  intros Hrr. cbv zeta.
  destruct (scan_requests_spec (seqZ 0 NUM_CORES) rs rr)
    as [[Hnone Hall]|(pre & k & post & Hks & Hw & Hact & Hpre)];
    unfold NUM_CORES in *.
  - left. split; [done|]. intros i Hi.
    pose proof (Z.mod_pos_bound (i - rr) 4) as Hb.
    specialize (Hall ((i - rr) mod 4)).
    rewrite Z.rem_mod_nonneg in Hall by lia.
    rewrite Z.add_mod_idemp_r in Hall by lia.
    replace (rr + (i - rr)) with i in Hall by lia.
    rewrite (Z.mod_small i 4) in Hall by lia.
    apply Hall. apply elem_of_seqZ. lia.
  - assert (Hk : k = Z.of_nat (length pre) ∧ 0 ≤ k < 4).
    { assert (Hl : seqZ 0 4 !! length pre = Some k).
      { rewrite Hks. by rewrite list_lookup_middle. }
      apply lookup_seqZ in Hl. lia. }
    destruct Hk as [Hk Hkr].
    right. exists k.
    rewrite Z.rem_mod_nonneg in Hw, Hact by lia.
    split; [done|]. split; [exact Hw|]. split; [by rewrite Hw|].
    intros j Hj.
    rewrite <- (Z.rem_mod_nonneg (rr + j) 4) by lia.
    apply Hpre.
    assert (Hl : seqZ 0 4 !! Z.to_nat j = Some j).
    { apply lookup_seqZ. lia. }
    rewrite Hks, lookup_app_l in Hl by lia.
    eapply list_elem_of_lookup_2, Hl.
Qed.

Lemma arbitrate_busy s : phase (bus s) ≠ 0 → arbitrate s = s.
Proof.
  intros H. unfold arbitrate. by destruct (Z.eqb_spec (phase (bus s)) 0).
Qed.

Lemma arbitrate_none s :
  scan_requests (seqZ 0 NUM_CORES) (requests s) (rr_next s) = -1 → arbitrate s = s.
Proof.
  intros H. unfold arbitrate. rewrite H. by destruct (phase (bus s) =? 0).
Qed.

Lemma arbitrate_start s w req :
  phase (bus s) = 0 →
  scan_requests (seqZ 0 NUM_CORES) (requests s) (rr_next s) = w → w ≠ -1 →
  requests s !! Z.to_nat w = Some req →
  arbitrate s =
    {| cores := (start_bus_transaction (bus s) req (cores s) (main_mem s)).2;
       requests := <[Z.to_nat w := deactivate req]> (requests s);
       bus := (start_bus_transaction (bus s) req (cores s) (main_mem s)).1;
       rr_next := Z.rem (w + 1) NUM_CORES;
       main_mem := main_mem s; cycle := cycle s |}.
Proof.
  intros Hp Hw Hne Hreq. unfold arbitrate. rewrite Hp, Hw, Hreq. simpl.
  destruct (Z.eqb_spec w (-1)); [done|].
  by destruct (start_bus_transaction _ _ _ _).
Qed.

(** C6.  With the bus idle, [rr_next] in range and some request slot
    active, the winner [w] is the first active slot in the order
    [rr_next, rr_next + 1, ...] modulo 4; its slot is deactivated and every
    other slot is left as it was (so active losers stay active); [rr_next]
    becomes [(w + 1) mod 4]; and the bus and the caches are those produced
    by [start_bus_transaction] for the winner's request, in the same
    cycle: the bus leaves Idle and drives the request's command. *)
Theorem round_robin_arbitration (s : Sim)
    (Hidle : phase (bus s) = 0)
    (Hrr : 0 ≤ rr_next s < 4)
    (Hlen : length (requests s) = 4%nat)
    (Hact : ∃ i, 0 ≤ i < 4 ∧ request_active (requests s) i = true) :
  ∃ k req,
    let w := (rr_next s + k) mod 4 in
    0 ≤ k < 4 ∧
    request_active (requests s) w = true ∧
    (∀ j, 0 ≤ j < k → request_active (requests s) ((rr_next s + j) mod 4) = false) ∧
    requests s !! Z.to_nat w = Some req ∧
    request_active (requests (arbitrate s)) w = false ∧
    (∀ j, 0 ≤ j < 4 → j ≠ w →
       requests (arbitrate s) !! Z.to_nat j = requests s !! Z.to_nat j) ∧
    rr_next (arbitrate s) = (w + 1) mod 4 ∧
    (bus (arbitrate s), cores (arbitrate s)) =
      start_bus_transaction (bus s) req (cores s) (main_mem s) ∧
    phase (bus (arbitrate s)) = 1 ∧
    bus_cmd_out (bus (arbitrate s)) = r_cmd req.
Proof.
  destruct (scan_requests_first (requests s) (rr_next s) Hrr)
    as [[_ Hnone]|(k & Hk & Hw & Hwact & Hfirst)].
  { destruct Hact as (i & Hi & Hai). by rewrite Hnone in Hai. }
  set (w := (rr_next s + k) mod 4) in *.
  assert (Hwr : 0 ≤ w < 4) by (apply Z.mod_pos_bound; lia).
  destruct (requests s !! Z.to_nat w) as [req|] eqn:Hreq;
    [|unfold request_active in Hwact; rewrite Hw, Hreq in Hwact; done].
  exists k, req. cbv zeta. change ((rr_next s + k) mod 4) with w.
  rewrite (arbitrate_start s w req) by (done || lia). simpl.
  split; [done|].
  split; [by rewrite Hw in Hwact|].
  split; [done|].
  split; [done|].
  split; [unfold request_active; rewrite list_lookup_insert_eq; [done|lia]|].
  split; [intros j Hj Hne; apply list_lookup_insert_ne; lia|].
  split; [by rewrite Z.rem_mod_nonneg by (unfold NUM_CORES; lia)|].
  split; [by destruct (start_bus_transaction _ _ _ _)|].
  split; apply start_bus_transaction_out.
Qed.

Definition arb_example : Sim :=
  {| cores := [];
     requests :=
       [ {| r_active := true; r_cmd := BUS_RD; r_addr := 64; r_origin := 0 |};
         request0; request0;
         {| r_active := true; r_cmd := BUS_RDX; r_addr := 8; r_origin := 3 |} ];
     bus := bus0; rr_next := 2; main_mem := ∅; cycle := 0 |}.

Lemma round_robin_arbitration_witness :
  ∃ k req,
    let w := (rr_next arb_example + k) mod 4 in
    0 ≤ k < 4 ∧
    request_active (requests arb_example) w = true ∧
    (∀ j, 0 ≤ j < k →
       request_active (requests arb_example) ((rr_next arb_example + j) mod 4) = false) ∧
    requests arb_example !! Z.to_nat w = Some req ∧
    request_active (requests (arbitrate arb_example)) w = false ∧
    (∀ j, 0 ≤ j < 4 → j ≠ w →
       requests (arbitrate arb_example) !! Z.to_nat j = requests arb_example !! Z.to_nat j) ∧
    rr_next (arbitrate arb_example) = (w + 1) mod 4 ∧
    (bus (arbitrate arb_example), cores (arbitrate arb_example)) =
      start_bus_transaction (bus arb_example) req (cores arb_example) (main_mem arb_example) ∧
    phase (bus (arbitrate arb_example)) = 1 ∧
    bus_cmd_out (bus (arbitrate arb_example)) = r_cmd req.
Proof.
  apply (round_robin_arbitration arb_example).
  - reflexivity.
  - simpl. lia.
  - reflexivity.
  - exists 3. split; [lia | reflexivity].
Defined.

(** ** Snooping *)

(** The MESI state in which cache [ca] holds the block of address [a]: the
    state of the line at the block's index when the stored tag matches,
    and I otherwise. *)
Definition line_state (ca : Cache) (a : Z) : mesi :=
  if rdw (c_tag ca) (cache_index a) =? cache_tag a
  then rds (c_state ca) (cache_index a) else MESI_I.

(** The snoop reaction of a peer that holds the block, as the spec lists
    it. *)
Definition snoop_next (st : mesi) (cmd : bus_cmd) : mesi :=
  match st, cmd with
  | MESI_M, BUS_RD => MESI_S
  | MESI_M, BUS_RDX => MESI_I
  | MESI_E, BUS_RD => MESI_S
  | MESI_E, BUS_RDX => MESI_I
  | MESI_S, BUS_RDX => MESI_I
  | MESI_S, BUS_RD => MESI_S
  | st, _ => st
  end.

Lemma line_state_I ca a :
  line_state ca a = MESI_I ↔
  rds (c_state ca) (cache_index a) = MESI_I ∨ rdw (c_tag ca) (cache_index a) ≠ cache_tag a.
Proof.
  unfold line_state. destruct (Z.eqb_spec (rdw (c_tag ca) (cache_index a)) (cache_tag a));
    naive_solver.
Qed.

Lemma line_state_not_I ca a st :
  st ≠ MESI_I →
  line_state ca a = st ↔
  rds (c_state ca) (cache_index a) = st ∧ rdw (c_tag ca) (cache_index a) = cache_tag a.
Proof.
  unfold line_state. destruct (Z.eqb_spec (rdw (c_tag ca) (cache_index a)) (cache_tag a));
    naive_solver.
Qed.

Lemma cache_lookup_line_state ca a :
  cache_lookup ca a MESI_I = (bool_decide (line_state ca a ≠ MESI_I), line_state ca a).
Proof.
  unfold cache_lookup, line_state.
  destruct (Z.eqb_spec (rdw (c_tag ca) (cache_index a)) (cache_tag a)).
  - rewrite andb_true_r.
    destruct (decide (rds (c_state ca) (cache_index a) = MESI_I)) as [Hs|Hs].
    + rewrite Hs. by rewrite bool_decide_eq_false_2 by naive_solver.
    + by rewrite bool_decide_eq_true_2.
  - rewrite andb_false_r. by rewrite bool_decide_eq_false_2 by naive_solver.
Qed.

(** What [apply_snoop] does to the cache, whatever the out-parameters. *)
Lemma apply_snoop_cache ca i o cmd a out :
  let ca' := (apply_snoop ca i o cmd a out).1 in
  c_data ca' = c_data ca ∧ c_tag ca' = c_tag ca ∧
  (∀ idx, idx ≠ cache_index a → rds (c_state ca') idx = rds (c_state ca) idx) ∧
  (i = o ∨ line_state ca a = MESI_I → ca' = ca) ∧
  (i ≠ o → line_state ca a ≠ MESI_I →
   line_state ca' a =
     match line_state ca a with
     | MESI_M | MESI_E => if bool_decide (cmd = BUS_RD) then MESI_S else MESI_I
     | MESI_S => if bool_decide (cmd = BUS_RDX) then MESI_I else MESI_S
     | MESI_I => MESI_I
     end).
Proof.
  unfold apply_snoop, line_state.
  destruct (Z.eqb_spec i o) as [->|Hio]; simpl; [naive_solver|].
  destruct (Z.eqb_spec (rdw (c_tag ca) (cache_index a)) (cache_tag a)) as [Ht|Ht]; simpl;
    [|rewrite orb_true_r; simpl; rewrite ?(proj2 (Z.eqb_neq _ _) Ht); naive_solver].
  rewrite orb_false_r.
  destruct (rds (c_state ca) (cache_index a)) eqn:Hst; simpl;
    try (destruct cmd; simpl; rewrite ?rds_wrs_eq, ?Ht, ?Z.eqb_refl, ?Hst;
         split_and!; try done; try (intros; by apply rds_wrs_ne); naive_solver).
Qed.

Lemma apply_snoop_out ca i o cmd a out :
  let out' := (apply_snoop ca i o cmd a out).2 in
  (i = o ∨ line_state ca a = MESI_I → out' = out) ∧
  (i ≠ o → line_state ca a ≠ MESI_I → sn_shared out' = 1) ∧
  (i ≠ o → line_state ca a = MESI_M →
   sn_provider out' = i ∧
   ∀ k, 0 ≤ k < BLOCK_WORDS →
     rdw (sn_block out') k = rdw (c_data ca) (cache_index a * BLOCK_WORDS + k)) ∧
  (line_state ca a ≠ MESI_M →
   sn_provider out' = sn_provider out ∧ sn_block out' = sn_block out).
Proof.
  unfold apply_snoop, line_state.
  destruct (Z.eqb_spec i o) as [->|Hio]; simpl; [naive_solver|].
  destruct (Z.eqb_spec (rdw (c_tag ca) (cache_index a)) (cache_tag a)) as [Ht|Ht]; simpl;
    [|rewrite orb_true_r; simpl; naive_solver].
  rewrite orb_false_r.
  destruct (rds (c_state ca) (cache_index a)) eqn:Hst; simpl;
    try (destruct (bool_decide (cmd = BUS_RDX)); simpl; naive_solver).
  split_and!; try done; try naive_solver.
  intros _ _. split; [done|]. intros k Hk.
  apply (copy_block_in (λ i, i) (λ i, rdw (c_data ca) (cache_index a * BLOCK_WORDS + i)));
    [intros; lia | done].
Qed.

Section snoop_loop.
Variables (o : Z) (cmd : bus_cmd) (a : Z).

Lemma snoop_caches_length cs i0 out :
  length (snoop_caches i0 cs o cmd a out).1 = length cs.
Proof.
  revert i0 out. induction cs as [|c cs IH]; intros i0 out; simpl; [done|].
  destruct (apply_snoop _ _ _ _ _ _) as [ca out1].
  specialize (IH (i0 + 1) out1).
  destruct (snoop_caches _ _ _ _ _ _) as [rest out2]. simpl in *. by rewrite IH.
Qed.

Lemma snoop_caches_lookup cs i0 out j c :
  cs !! j = Some c →
  ∃ out',
    (snoop_caches i0 cs o cmd a out).1 !! j =
      Some (set_cache c (apply_snoop (cache c) (i0 + Z.of_nat j) o cmd a out').1).
Proof.
  revert i0 out j. induction cs as [|c0 cs IH]; intros i0 out j Hj; [done|].
  simpl.
  destruct (apply_snoop (cache c0) i0 o cmd a out) as [ca out1] eqn:Hs.
  specialize (IH (i0 + 1) out1).
  destruct (snoop_caches (i0 + 1) cs o cmd a out1) as [rest out2].
  destruct j as [|j]; simpl in *.
  - injection Hj as ->. exists out. by rewrite Z.add_0_r, Hs.
  - destruct (IH j Hj) as [out' Hout']. exists out'.
    replace (i0 + Z.of_nat (S j)) with (i0 + 1 + Z.of_nat j) by lia.
    exact Hout'.
Qed.

Lemma snoop_caches_quiet cs i0 out :
  (∀ j c, cs !! j = Some c → i0 + Z.of_nat j ≠ o → line_state (cache c) a = MESI_I) →
  (snoop_caches i0 cs o cmd a out).2 = out.
Proof.
  revert i0 out. induction cs as [|c0 cs IH]; intros i0 out Hq; [done|].
  simpl.
  destruct (apply_snoop (cache c0) i0 o cmd a out) as [ca out1] eqn:Hs.
  assert (out1 = out) as ->.
  { change out1 with (ca, out1).2. rewrite <- Hs. apply apply_snoop_out.
    destruct (decide (i0 = o)); [by left|right].
    apply (Hq 0%nat c0); [done | by rewrite Z.add_0_r]. }
  specialize (IH (i0 + 1) out).
  destruct (snoop_caches (i0 + 1) cs o cmd a out) as [rest out2]. simpl in *.
  apply IH. intros j c Hj Hne. apply (Hq (S j) c); [done | lia].
Qed.

Lemma snoop_caches_shared_mono cs i0 out :
  sn_shared out = 1 → sn_shared (snoop_caches i0 cs o cmd a out).2 = 1.
Proof.
  revert i0 out. induction cs as [|c0 cs IH]; intros i0 out H1; [done|].
  simpl.
  destruct (apply_snoop (cache c0) i0 o cmd a out) as [ca out1] eqn:Hs.
  assert (sn_shared out1 = 1).
  { change out1 with (ca, out1).2. rewrite <- Hs.
    destruct (apply_snoop_out (cache c0) i0 o cmd a out) as (Hq & Hsh & _).
    destruct (decide (i0 = o)); [by rewrite Hq by (by left)|].
    destruct (decide (line_state (cache c0) a = MESI_I));
      [by rewrite Hq by (by right) | by apply Hsh]. }
  specialize (IH (i0 + 1) out1).
  destruct (snoop_caches (i0 + 1) cs o cmd a out1) as [rest out2]. simpl in *. auto.
Qed.

Lemma snoop_caches_shared cs i0 out j c :
  cs !! j = Some c → i0 + Z.of_nat j ≠ o → line_state (cache c) a ≠ MESI_I →
  sn_shared (snoop_caches i0 cs o cmd a out).2 = 1.
Proof.
  revert i0 out j. induction cs as [|c0 cs IH]; intros i0 out j Hj Hne Hst; [done|].
  simpl.
  destruct (apply_snoop (cache c0) i0 o cmd a out) as [ca out1] eqn:Hs.
  pose proof (snoop_caches_shared_mono cs (i0 + 1) out1) as Hmono.
  specialize (IH (i0 + 1) out1).
  destruct (snoop_caches (i0 + 1) cs o cmd a out1) as [rest out2]. simpl in *.
  destruct j as [|j]; simpl in *.
  - injection Hj as ->. apply Hmono.
    change out1 with (ca, out1).2. rewrite <- Hs.
    apply apply_snoop_out; [lia | done].
  - apply (IH j); [done | lia | done].
Qed.

Lemma snoop_caches_no_provider cs i0 out :
  (∀ j c, cs !! j = Some c → i0 + Z.of_nat j ≠ o → line_state (cache c) a ≠ MESI_M) →
  sn_provider (snoop_caches i0 cs o cmd a out).2 = sn_provider out ∧
  sn_block (snoop_caches i0 cs o cmd a out).2 = sn_block out.
Proof.
  revert i0 out. induction cs as [|c0 cs IH]; intros i0 out Hq; [done|].
  simpl.
  destruct (apply_snoop (cache c0) i0 o cmd a out) as [ca out1] eqn:Hs.
  assert (sn_provider out1 = sn_provider out ∧ sn_block out1 = sn_block out) as [<- <-].
  { change out1 with (ca, out1).2. rewrite <- Hs.
    destruct (apply_snoop_out (cache c0) i0 o cmd a out) as (Hq0 & _ & _ & Hno).
    destruct (decide (i0 = o)); [by rewrite Hq0 by (by left)|].
    apply Hno. apply (Hq 0%nat c0); [done | by rewrite Z.add_0_r]. }
  specialize (IH (i0 + 1) out1).
  destruct (snoop_caches (i0 + 1) cs o cmd a out1) as [rest out2]. simpl in *.
  apply IH. intros j c Hj Hne. apply (Hq (S j) c); [done | lia].
Qed.

Lemma snoop_caches_provider cs i0 out j c :
  cs !! j = Some c → i0 + Z.of_nat j ≠ o → line_state (cache c) a = MESI_M →
  (∀ j' c', cs !! j' = Some c' → (j < j')%nat → i0 + Z.of_nat j' ≠ o →
     line_state (cache c') a ≠ MESI_M) →
  sn_provider (snoop_caches i0 cs o cmd a out).2 = i0 + Z.of_nat j ∧
  ∀ k, 0 ≤ k < BLOCK_WORDS →
    rdw (sn_block (snoop_caches i0 cs o cmd a out).2) k =
      rdw (c_data (cache c)) (cache_index a * BLOCK_WORDS + k).
Proof.
  revert i0 out j. induction cs as [|c0 cs IH]; intros i0 out j Hj Hne Hst Hlast; [done|].
  simpl.
  destruct (apply_snoop (cache c0) i0 o cmd a out) as [ca out1] eqn:Hs.
  pose proof (snoop_caches_no_provider cs (i0 + 1) out1) as Hno.
  specialize (IH (i0 + 1) out1).
  destruct (snoop_caches (i0 + 1) cs o cmd a out1) as [rest out2]. simpl in *.
  destruct j as [|j]; simpl in *.
  - injection Hj as ->.
    destruct Hno as [-> ->].
    { intros j c' Hj Hne'. apply (Hlast (S j) c'); [done | lia | lia]. }
    change out1 with (ca, out1).2. rewrite <- Hs.
    replace (i0 + Z.of_nat 0) with i0 in * by lia.
    by apply apply_snoop_out.
  - replace (i0 + Z.of_nat (S j)) with (i0 + 1 + Z.of_nat j) by lia.
    apply (IH j); [done | lia | done |].
    intros j' c' Hj' Hlt Hne'. apply (Hlast (S j') c'); [done | lia | lia].
Qed.
End snoop_loop.

Lemma start_bus_transaction_snoop b req cs ram :
  start_bus_transaction b req cs ram =
    let sn := snoop_caches 0 cs (r_origin req) (r_cmd req) (r_addr req)
                {| sn_shared := 0; sn_provider := -1; sn_block := ∅ |} in
    ((start_bus_transaction b req cs ram).1, sn.1).
Proof.
  unfold start_bus_transaction. simpl.
  by destruct (snoop_caches _ _ _ _ _ _).
Qed.

Lemma start_bus_transaction_data b req cs ram :
  let sn := (snoop_caches 0 cs (r_origin req) (r_cmd req) (r_addr req)
               {| sn_shared := 0; sn_provider := -1; sn_block := ∅ |}).2 in
  let b' := (start_bus_transaction b req cs ram).1 in
  shared b' = sn_shared sn ∧
  (sn_provider sn = -1 →
   provider b' = 4 ∧ delay b' = 16 ∧
   ∀ k, 0 ≤ k < BLOCK_WORDS →
     rdw (block b') k =
       rdw ram (Z.land (u32 (block_base (r_addr req) + k)) (MAIN_MEM_WORDS - 1))) ∧
  (sn_provider sn ≠ -1 →
   provider b' = sn_provider sn ∧ delay b' = 0 ∧
   ∀ k, 0 ≤ k < BLOCK_WORDS → rdw (block b') k = rdw (sn_block sn) k).
Proof.
  unfold start_bus_transaction. simpl.
  destruct (snoop_caches _ _ _ _ _ _) as [cs' out]. simpl.
  destruct (Z.eqb_spec (sn_provider out) (-1)) as [He|He]; simpl.
  - split_and!; [done| |done]. intros _. split_and!; [done|done|].
    intros k Hk.
    apply (copy_block_in (λ i, i)
             (λ i, rdw ram (Z.land (u32 (block_base (r_addr req) + i)) (MAIN_MEM_WORDS - 1))));
      [intros; lia | done].
  - split_and!; [done|done|]. intros _. split_and!; [done|done|].
    intros k Hk.
    apply (copy_block_in (λ i, i) (λ i, rdw (sn_block out) i)); [intros; lia | done].
Qed.

(** C2.  At the start of a BusRd or BusRdX transaction for address [a],
    the snoop changes nothing but cache states: the origin's cache and
    every cache that does not hold the block are unchanged; a peer that
    holds the block in M or E goes to S on BusRd and to I on BusRdX, and
    one that holds it in S goes to I on BusRdX and stays S on BusRd.  A peer
    that is the only one holding the block in M becomes the provider and its
    8 words are staged; when no peer holds it in M (in particular when the
    holders are in E or S) the provider is memory (4) and the words come
    from main memory.  [shared] is 1 when some peer held the block in a
    non-I state at snoop time and 0 otherwise. *)
Theorem snoop_transitions (b : BusState) (req : BusRequest) (cs : list Core)
    (ram : gmap Z Z) (Hcmd : r_cmd req = BUS_RD ∨ r_cmd req = BUS_RDX) :
  let b' := (start_bus_transaction b req cs ram).1 in
  let cs' := (start_bus_transaction b req cs ram).2 in
  let a := r_addr req in
  let peer_holds j c :=
    cs !! j = Some c ∧ Z.of_nat j ≠ r_origin req ∧ line_state (cache c) a ≠ MESI_I in
  length cs' = length cs ∧
  (∀ j c, cs !! j = Some c →
     ∃ c', cs' !! j = Some c' ∧
       c' = set_cache c (cache c') ∧
       c_data (cache c') = c_data (cache c) ∧ c_tag (cache c') = c_tag (cache c) ∧
       (∀ idx, idx ≠ cache_index a →
          rds (c_state (cache c')) idx = rds (c_state (cache c)) idx) ∧
       (Z.of_nat j = r_origin req ∨ line_state (cache c) a = MESI_I → c' = c) ∧
       (peer_holds j c →
          line_state (cache c') a = snoop_next (line_state (cache c) a) (r_cmd req))) ∧
  ((∃ j c, peer_holds j c) → shared b' = 1) ∧
  (¬ (∃ j c, peer_holds j c) → shared b' = 0) ∧
  (∀ j c, peer_holds j c → line_state (cache c) a = MESI_M →
     (∀ j' c', peer_holds j' c' → j' ≠ j → line_state (cache c') a ≠ MESI_M) →
     provider b' = Z.of_nat j ∧
     ∀ k, 0 ≤ k < 8 →
       rdw (block b') k = rdw (c_data (cache c)) (cache_index a * 8 + k)) ∧
  ((∀ j c, peer_holds j c → line_state (cache c) a ≠ MESI_M) →
     provider b' = 4 ∧
     ∀ k, 0 ≤ k < 8 →
       rdw (block b') k = rdw ram (Z.land (u32 (block_base a + k)) (MAIN_MEM_WORDS - 1))).
Proof.
  intros b' cs' a peer_holds.
  set (out0 := {| sn_shared := 0; sn_provider := -1; sn_block := ∅ |}).
  assert (Hcs : cs' = (snoop_caches 0 cs (r_origin req) (r_cmd req) a out0).1).
  { unfold cs'. by rewrite start_bus_transaction_snoop. }
  destruct (start_bus_transaction_data b req cs ram) as (Hsh & Hmem & Hprov).
  fold b' a out0 in Hsh, Hmem, Hprov.
  split_and!.
  - rewrite Hcs. apply snoop_caches_length.
  - intros j c Hj.
    destruct (snoop_caches_lookup (r_origin req) (r_cmd req) a cs 0 out0 j c Hj)
      as [out' Hl].
    rewrite <- Hcs, Z.add_0_l in Hl.
    eexists. split; [exact Hl|].
    destruct (apply_snoop_cache (cache c) (Z.of_nat j) (r_origin req) (r_cmd req) a out')
      as (Hd & Ht & Hoth & Hsame & Htr).
    simpl. split_and!; try done.
    + intros Hq. rewrite Hsame by done. by destruct c.
    + intros (_ & Hne & Hst). rewrite Htr by done.
      destruct Hcmd as [-> | ->]; by destruct (line_state (cache c) a).
  - intros (j & c & Hj & Hne & Hst). rewrite Hsh.
    eapply snoop_caches_shared; [exact Hj | by rewrite Z.add_0_l | done].
  - intros Hnone. rewrite Hsh, snoop_caches_quiet; [done|].
    intros j c Hj Hne. rewrite Z.add_0_l in Hne.
    destruct (decide (line_state (cache c) a = MESI_I)) as [|Hst]; [done|].
    destruct Hnone. by exists j, c.
  - intros j c (Hj & Hne & Hst) HM Huniq.
    destruct (snoop_caches_provider (r_origin req) (r_cmd req) a cs 0 out0 j c)
      as [Hp Hb]; [done | by rewrite Z.add_0_l | done | |].
    { intros j' c' Hj' Hlt Hne' HM'. rewrite Z.add_0_l in Hne'.
      apply (Huniq j' c'); [|lia|done].
      split_and!; [done|done|]. by rewrite HM'. }
    rewrite Z.add_0_l in Hp.
    destruct Hprov as (-> & _ & Hblk); [lia|].
    split; [done|]. intros k Hk. rewrite Hblk by done. by apply Hb.
  - intros HnoM.
    destruct (snoop_caches_no_provider (r_origin req) (r_cmd req) a cs 0 out0) as [Hp _].
    { intros j c Hj Hne. rewrite Z.add_0_l in Hne.
      destruct (decide (line_state (cache c) a = MESI_I)) as [->|Hst]; [done|].
      by apply (HnoM j c). }
    destruct Hmem as (-> & _ & Hblk); [done|].
    split; [done|]. intros k Hk. by apply Hblk.
Qed.

(** A core whose cache holds exactly the block of address [a], in state
    [st], with the words [ws]. *)
Definition core_holding (i a : Z) (st : mesi) (ws : gmap Z Z) : Core :=
  set_cache (init_core i [])
    {| c_data := copy_block (λ k, cache_index a * BLOCK_WORDS + k) (λ k, rdw ws k) ∅;
       c_tag := wrw ∅ (cache_index a) (cache_tag a);
       c_state := wrs ∅ (cache_index a) st |}.

Definition snoop_example : list Core :=
  [ init_core 0 []; core_holding 1 1000 MESI_M (wrw ∅ 0 77); init_core 2 []; init_core 3 [] ].

Lemma snoop_transitions_witness :
  shared (start_bus_transaction bus0
            {| r_active := true; r_cmd := BUS_RD; r_addr := 1000; r_origin := 0 |}
            snoop_example ∅).1 = 1.
Proof.
  destruct (snoop_transitions bus0
              {| r_active := true; r_cmd := BUS_RD; r_addr := 1000; r_origin := 0 |}
              snoop_example ∅ (or_introl eq_refl)) as (_ & _ & Hs & _).
  apply Hs. exists 1%nat, (core_holding 1 1000 MESI_M (wrw ∅ 0 77)).
  split_and!; [reflexivity | simpl; lia | by vm_compute].
Defined.

(** ** Completion of a transaction *)

Lemma mem_addr_wrap x : Z.land (u32 x) (MAIN_MEM_WORDS - 1) = x mod 2 ^ 20.
Proof.
  unfold u32, MAIN_MEM_WORDS. change (Z.shiftl 1 20 - 1) with (Z.ones 20).
  rewrite Z.land_ones by lia.
  apply Z.mod_mod_divide. by exists (2 ^ 12).
Qed.


Lemma line_base_addr_sum t idx :
  0 ≤ t < 2048 → 0 ≤ idx < 64 → line_base_addr t idx = t * 512 + idx * 8.
Proof.
  intros Ht Hi. unfold line_base_addr. rewrite land_tag_mask by done.
  unfold OFFSET_BITS, INDEX_BITS, u32. rewrite !Z.shiftl_mul_pow2 by lia.
  change (2 ^ (3 + 6)) with 512. change (2 ^ 3) with 8.
  rewrite !Z.mod_small by lia.
  rewrite <- Z.add_nocarry_lor; [done|].
    (apply Z.bits_inj'; intros n Hn; rewrite Z.land_spec, Z.bits_0;
     change 512 with (2 ^ 9); change 8 with (2 ^ 3);
     rewrite <- !Z.shiftl_mul_pow2 by lia;
     destruct (Z.lt_ge_cases n 9);
     [ by rewrite (Z.shiftl_spec_low t) by done
     | rewrite (Z.shiftl_spec idx) by done; rewrite (Z.bits_above_log2 idx);
       [by rewrite andb_false_r | lia |];
       destruct (decide (idx = 0)) as [->|]; [simpl; lia|];
       apply Z.lt_le_trans with 6; [apply Z.log2_lt_pow2; lia | lia] ]).
Qed.


(** The state given to the requester's line at completion (sim.c 410). *)
Definition fill_state (b : BusState) : mesi :=
  if bool_decide (cmd b = BUS_RD) then (if shared b =? 0 then MESI_E else MESI_S)
  else MESI_M.

Lemma complete_transaction_unfold b cs ram c :
  0 ≤ origin b < 4 → cs !! Z.to_nat (origin b) = Some c →
  let base := block_base (addr b) in
  let ram1 :=
    copy_block (λ i, Z.land (u32 (base + i)) (MAIN_MEM_WORDS - 1))
               (λ i, rdw (block b) i) ram in
  let fl := fill_cache_line (cache c) (cache_index base) (cache_tag base) (block b)
              (fill_state b) ram1 in
  let c1 := set_cache c fl.1 in
  let c2 := if m_valid (mem c) && m_waiting (mem c)
            then set_mem c1 (mem_clear_waiting (mem c)) else c1 in
  complete_transaction b cs ram = (<[Z.to_nat (origin b) := c2]> cs, fl.2).
Proof.
  intros Ho Hc. unfold complete_transaction, NUM_CORES.
  destruct (Z.ltb_spec (origin b) 0); [lia|].
  destruct (Z.geb_spec (origin b) 4); [lia|]. simpl.
  by rewrite Hc.
Qed.

Lemma writeback_line_clean ca idx ram :
  rds (c_state ca) idx ≠ MESI_M → writeback_line ca idx ram = ram.
Proof. intros H. unfold writeback_line. by rewrite bool_decide_eq_true_2. Qed.

Lemma writeback_line_dirty ca idx ram :
  rds (c_state ca) idx = MESI_M →
  writeback_line ca idx ram =
    copy_block (λ i, Z.land (u32 (line_base_addr (rdw (c_tag ca) idx) idx + i))
                       (MAIN_MEM_WORDS - 1))
               (λ i, rdw (c_data ca) (idx * BLOCK_WORDS + i)) ram.
Proof.
  intros H. unfold writeback_line. rewrite bool_decide_eq_false_2; [done|].
  intros Hne. by apply Hne.
Qed.




(** ** Frame properties of the pipeline stages *)

Lemma count_cycle_frame c :
  let c' := count_cycle c in
  id c' = id c ∧ imem c' = imem c ∧ regs c' = regs c ∧ pc c' = pc c ∧
  redirect_pending c' = redirect_pending c ∧ redirect_pc c' = redirect_pc c ∧
  stop_fetch c' = stop_fetch c ∧ halted c' = halted c ∧ done_ c' = done_ c ∧
  fetch c' = fetch c ∧ decode c' = decode c ∧ exec c' = exec c ∧ mem c' = mem c ∧
  wb c' = wb c ∧ cache c' = cache c ∧
  instructions (stats c') = instructions (stats c) ∧
  read_hit (stats c') = read_hit (stats c) ∧ write_hit (stats c') = write_hit (stats c) ∧
  read_miss (stats c') = read_miss (stats c) ∧ write_miss (stats c') = write_miss (stats c) ∧
  decode_stall (stats c') = decode_stall (stats c) ∧ mem_stall (stats c') = mem_stall (stats c).
Proof. unfold count_cycle. destruct (done_ c) eqn:Hd; simpl; by rewrite ?Hd. Qed.

(** The counting step of the Memory stage touches the statistics only. *)
Lemma count_lookup_frame (counted h lw : bool) c :
  let c1 :=
    if counted then c
    else if h then
      if lw then set_stats c (inc_read_hit (stats c))
      else set_stats c (inc_write_hit (stats c))
    else
      if lw then set_stats c (inc_read_miss (stats c))
      else set_stats c (inc_write_miss (stats c)) in
  id c1 = id c ∧ imem c1 = imem c ∧ regs c1 = regs c ∧ pc c1 = pc c ∧
  redirect_pending c1 = redirect_pending c ∧ redirect_pc c1 = redirect_pc c ∧
  stop_fetch c1 = stop_fetch c ∧ halted c1 = halted c ∧ done_ c1 = done_ c ∧
  fetch c1 = fetch c ∧ decode c1 = decode c ∧ exec c1 = exec c ∧ mem c1 = mem c ∧
  wb c1 = wb c ∧ cache c1 = cache c ∧
  cycles (stats c1) = cycles (stats c) ∧
  instructions (stats c1) = instructions (stats c) ∧
  decode_stall (stats c1) = decode_stall (stats c) ∧
  mem_stall (stats c1) = mem_stall (stats c).
Proof. by destruct counted, h, lw. Qed.

Lemma mem_stage_frame i c req :
  let c' := mo_core (mem_stage i c req) in
  id c' = id c ∧ imem c' = imem c ∧ regs c' = regs c ∧ pc c' = pc c ∧
  redirect_pending c' = redirect_pending c ∧ redirect_pc c' = redirect_pc c ∧
  stop_fetch c' = stop_fetch c ∧ halted c' = halted c ∧ done_ c' = done_ c ∧
  fetch c' = fetch c ∧ decode c' = decode c ∧ exec c' = exec c ∧ wb c' = wb c ∧
  m_valid (mem c') = m_valid (mem c) ∧ m_inst (mem c') = m_inst (mem c) ∧
  instructions (stats c') = instructions (stats c) ∧
  decode_stall (stats c') = decode_stall (stats c).
Proof.
  cbv zeta. remember (mo_core (mem_stage i c req)) as c' eqn:Hc'. revert Hc'.
  unfold mem_stage.
  destruct (m_valid (mem c)) eqn:Hv; cbn [negb]; [|by intros ->].
  destruct (m_waiting (mem c)); [by intros ->|].
  destruct ((i_op (m_inst (mem c)) =? OP_LW) || (i_op (m_inst (mem c)) =? OP_SW));
    [|by intros ->].
  destruct (cache_lookup _ _ _) as [hit st].
  pose proof (count_lookup_frame (m_miss (mem c)) (hit && bool_decide (st ≠ MESI_I))
                (i_op (m_inst (mem c)) =? OP_LW) c) as Hc1.
  cbv zeta in Hc1.
  set (c1 := if m_miss (mem c) then c else _) in *.
  clearbody c1.
  destruct Hc1 as (H1&H2&H3&H4&H5&H6&H7&H8&H9&H10&H11&H12&H13&H14&H15&H16&H17&H18&H19).
  rewrite <- H1, <- H2, <- H3, <- H4, <- H5, <- H6, <- H7, <- H8, <- H9, <- H10, <- H11,
    <- H12, <- H13, <- H14, <- H17, <- H18.
  rewrite <- H13 in Hv.
  destruct (negb hit || _ || _).
  - destruct (m_request_queued (mem c1)); intros ->; cbn; rewrite Hv; by split_and!.
  - destruct (i_op (m_inst (mem c1)) =? OP_LW); [intros ->; cbn; rewrite Hv; by split_and!|].
    destruct (bool_decide (st = MESI_E)); intros ->; cbn; rewrite Hv; by split_and!.
Qed.

Lemma decode_hazard_frame c e :
  let c' := (decode_hazard c e).1 in
  id c' = id c ∧ imem c' = imem c ∧ pc c' = pc c ∧
  redirect_pending c' = redirect_pending c ∧ redirect_pc c' = redirect_pc c ∧
  stop_fetch c' = stop_fetch c ∧ halted c' = halted c ∧ done_ c' = done_ c ∧
  fetch c' = fetch c ∧ decode c' = decode c ∧ exec c' = exec c ∧ mem c' = mem c ∧
  wb c' = wb c ∧ cache c' = cache c ∧
  cycles (stats c') = cycles (stats c) ∧
  instructions (stats c') = instructions (stats c) ∧
  read_hit (stats c') = read_hit (stats c) ∧ write_hit (stats c') = write_hit (stats c) ∧
  read_miss (stats c') = read_miss (stats c) ∧ write_miss (stats c') = write_miss (stats c) ∧
  mem_stall (stats c') = mem_stall (stats c) ∧
  regs c' = if d_valid (decode c) then wrw (regs c) 1 (u32 (i_imm (d_inst (decode c))))
            else regs c.
Proof.
  unfold decode_hazard. destruct (d_valid (decode c)); [|done].
  by destruct (if negb e then true else _).
Qed.

Lemma decode_issue_frame c ne :
  let c' := (decode_issue c ne).1 in
  id c' = id c ∧ imem c' = imem c ∧ pc c' = pc c ∧
  stop_fetch c' = stop_fetch c ∧ halted c' = halted c ∧ done_ c' = done_ c ∧
  fetch c' = fetch c ∧ decode c' = decode c ∧ exec c' = exec c ∧ mem c' = mem c ∧
  wb c' = wb c ∧ cache c' = cache c ∧ stats c' = stats c ∧
  regs c' = wrw (regs c) 1 (u32 (i_imm (d_inst (decode c)))).
Proof.
  unfold decode_issue.
  destruct ((OP_BEQ <=? _) && (_ <=? OP_BGE)); [destruct (perform_compare _ _ _)|];
    try done.
  by destruct (_ =? OP_JAL).
Qed.

Lemma decode_stage_frame c ne e :
  let c' := do_core (decode_stage c ne e) in
  id c' = id c ∧ imem c' = imem c ∧ pc c' = pc c ∧
  stop_fetch c' = stop_fetch c ∧ halted c' = halted c ∧ done_ c' = done_ c ∧
  fetch c' = fetch c ∧ decode c' = decode c ∧ exec c' = exec c ∧ mem c' = mem c ∧
  wb c' = wb c ∧ cache c' = cache c ∧
  cycles (stats c') = cycles (stats c) ∧
  instructions (stats c') = instructions (stats c) ∧
  read_hit (stats c') = read_hit (stats c) ∧ write_hit (stats c') = write_hit (stats c) ∧
  read_miss (stats c') = read_miss (stats c) ∧ write_miss (stats c') = write_miss (stats c) ∧
  mem_stall (stats c') = mem_stall (stats c) ∧
  regs c' = if d_valid (decode c) then wrw (regs c) 1 (u32 (i_imm (d_inst (decode c))))
            else regs c.
Proof.
  pose proof (decode_hazard_frame c e) as H. cbv zeta in H.
  destruct H as (H1&H2&H3&H4&H5&H6&H7&H8&H9&H10&H11&H12&H13&H14&H15&H16&H17&H18&H19&H20&H21&H22).
  unfold decode_stage. cbv zeta.
  destruct (d_valid (decode c) && negb (decode_hazard c e).2 && e) eqn:Hmv;
    cbn [do_core]; [|done].
  pose proof (decode_issue_frame (decode_hazard c e).1 ne) as H. cbv zeta in H.
  destruct H as (I1&I2&I3&I4&I5&I6&I7&I8&I9&I10&I11&I12&I13&I14).
  rewrite I1, I2, I3, I4, I5, I6, I7, I8, I9, I10, I11, I12, I13, I14.
  rewrite H10, H22.
  destruct (d_valid (decode c)); [|done].
  split_and!; try done.
  unfold wrw. by rewrite insert_insert_eq.
Qed.

Lemma fetch_stage_frame c nd dfn fm :
  let c' := fo_core (fetch_stage c nd dfn fm) in
  id c' = id c ∧ imem c' = imem c ∧ regs c' = regs c ∧
  halted c' = halted c ∧ done_ c' = done_ c ∧
  fetch c' = fetch c ∧ decode c' = decode c ∧ exec c' = exec c ∧ mem c' = mem c ∧
  wb c' = wb c ∧ cache c' = cache c ∧ stats c' = stats c.
Proof.
  unfold fetch_stage.
  destruct (negb (stop_fetch c) && dfn); [|by destruct fm].
  destruct (redirect_pending c); [done|].
  by destruct (i_op _ =? OP_HALT).
Qed.

(** The latch update and the [done] test at the end of a core's turn. *)
Lemma latch_update_frame (b : bool) c nw nm ne nd nf :
  let c1 := set_latches c nw nm ne nd nf in
  let c2 := if b then set_done c1 true else c1 in
  wb c2 = nw ∧ mem c2 = nm ∧ exec c2 = ne ∧ decode c2 = nd ∧ fetch c2 = nf ∧
  cache c2 = cache c ∧ regs c2 = regs c ∧ pc c2 = pc c ∧
  redirect_pending c2 = redirect_pending c ∧ redirect_pc c2 = redirect_pc c ∧
  stop_fetch c2 = stop_fetch c ∧ id c2 = id c ∧ imem c2 = imem c ∧
  halted c2 = halted c ∧ stats c2 = stats c ∧
  done_ c2 = done_ c || b.
Proof. destruct b; simpl; by rewrite ?orb_true_r, ?orb_false_r. Qed.

(** [advance_core] unfolded once. *)
Lemma advance_core_unfold i c req :
  advance_core i c req =
    (let c0 := count_cycle c in
     let mo := mem_stage i c0 req in
     let eo := exec_stage (mo_core mo) (mo_next_mem mo) (mo_mem_advances mo) in
     let dc := decode_stage (mo_core mo) (eo_next_exec eo) (eo_exec_free_next eo) in
     let fo := fetch_stage (do_core dc) (do_next_decode dc)
                 (do_decode_free_next dc) (do_fetch_moves dc) in
     let c1 := set_latches (fo_core fo) (mo_next_wb mo) (eo_next_mem eo)
                 (do_next_exec dc) (fo_next_decode fo) (fo_next_fetch fo) in
     let any_valid :=
       f_valid (fetch c1) || d_valid (decode c1) || e_valid (exec c1)
       || m_valid (mem c1) || w_valid (wb c1) in
     (if halted c1 && negb any_valid then set_done c1 true else c1, mo_req mo)).
Proof. reflexivity. Qed.

Lemma done_test c nw nm ne nd nf :
  let c1 := set_latches c nw nm ne nd nf in
  halted c1 && negb (f_valid (fetch c1) || d_valid (decode c1) || e_valid (exec c1)
                     || m_valid (mem c1) || w_valid (wb c1)) =
  halted c && negb (f_valid nf || d_valid nd || e_valid ne || m_valid nm || w_valid nw).
Proof. reflexivity. Qed.

(** The core after its turn: the latch update, then the [done] test. *)
Lemma advance_core_fst i c req :
  let mo := mem_stage i (count_cycle c) req in
  let eo := exec_stage (mo_core mo) (mo_next_mem mo) (mo_mem_advances mo) in
  let dc := decode_stage (mo_core mo) (eo_next_exec eo) (eo_exec_free_next eo) in
  let fo := fetch_stage (do_core dc) (do_next_decode dc)
              (do_decode_free_next dc) (do_fetch_moves dc) in
  let b := halted (fo_core fo) &&
           negb (f_valid (fo_next_fetch fo) || d_valid (fo_next_decode fo)
                 || e_valid (do_next_exec dc) || m_valid (eo_next_mem eo)
                 || w_valid (mo_next_wb mo)) in
  (advance_core i c req).1 =
    if b then set_done (set_latches (fo_core fo) (mo_next_wb mo) (eo_next_mem eo)
                (do_next_exec dc) (fo_next_decode fo) (fo_next_fetch fo)) true
    else set_latches (fo_core fo) (mo_next_wb mo) (eo_next_mem eo)
                (do_next_exec dc) (fo_next_decode fo) (fo_next_fetch fo).
Proof.
  cbv zeta. rewrite advance_core_unfold. cbv zeta. cbn [fst].
  rewrite done_test. reflexivity.
Qed.

(** The result of [advance_core] in terms of its stages. *)
Lemma advance_core_stages i c req :
  let mo := mem_stage i (count_cycle c) req in
  let eo := exec_stage (mo_core mo) (mo_next_mem mo) (mo_mem_advances mo) in
  let dc := decode_stage (mo_core mo) (eo_next_exec eo) (eo_exec_free_next eo) in
  let fo := fetch_stage (do_core dc) (do_next_decode dc)
              (do_decode_free_next dc) (do_fetch_moves dc) in
  let c' := (advance_core i c req).1 in
  (advance_core i c req).2 = mo_req mo ∧
  wb c' = mo_next_wb mo ∧ mem c' = eo_next_mem eo ∧ exec c' = do_next_exec dc ∧
  decode c' = fo_next_decode fo ∧ fetch c' = fo_next_fetch fo ∧
  cache c' = cache (mo_core mo) ∧
  regs c' = regs (do_core dc) ∧
  pc c' = pc (fo_core fo) ∧ redirect_pending c' = redirect_pending (fo_core fo) ∧
  redirect_pc c' = redirect_pc (fo_core fo) ∧ stop_fetch c' = stop_fetch (fo_core fo) ∧
  id c' = id c ∧ imem c' = imem c ∧ halted c' = halted c ∧
  instructions (stats c') = instructions (stats c) ∧
  read_hit (stats c') = read_hit (stats (mo_core mo)) ∧
  write_hit (stats c') = write_hit (stats (mo_core mo)) ∧
  read_miss (stats c') = read_miss (stats (mo_core mo)) ∧
  write_miss (stats c') = write_miss (stats (mo_core mo)) ∧
  mem_stall (stats c') = mem_stall (stats (mo_core mo)).
Proof.
  intros mo eo dc fo c'.
  pose proof (count_cycle_frame c) as Hcc. cbv zeta in Hcc.
  pose proof (mem_stage_frame i (count_cycle c) req) as Hm. cbv zeta in Hm. fold mo in Hm.
  pose proof (decode_stage_frame (mo_core mo) (eo_next_exec eo) (eo_exec_free_next eo)) as Hd.
  cbv zeta in Hd. fold dc in Hd.
  pose proof (fetch_stage_frame (do_core dc) (do_next_decode dc)
                (do_decode_free_next dc) (do_fetch_moves dc)) as Hf.
  cbv zeta in Hf. fold fo in Hf.
  assert (Hc' : ∃ b : bool, c' =
    if b then set_done (set_latches (fo_core fo) (mo_next_wb mo) (eo_next_mem eo)
                (do_next_exec dc) (fo_next_decode fo) (fo_next_fetch fo)) true
    else set_latches (fo_core fo) (mo_next_wb mo) (eo_next_mem eo)
                (do_next_exec dc) (fo_next_decode fo) (fo_next_fetch fo)).
  { eexists. exact (advance_core_fst i c req). }
  destruct Hc' as [b Hc'].
  split; [by rewrite advance_core_unfold|].
  clearbody c' fo. clearbody dc. clearbody eo. clearbody mo.
  pose proof (latch_update_frame b (fo_core fo) (mo_next_wb mo) (eo_next_mem eo)
                (do_next_exec dc) (fo_next_decode fo) (fo_next_fetch fo)) as Hl.
  cbv zeta in Hl. rewrite <- Hc' in Hl. clear Hc'.
  destruct Hl as (L1&L2&L3&L4&L5&L6&L7&L8&L9&L10&L11&L12&L13&L14&L15&L16).
  destruct Hcc as (C1&C2&C3&C4&C5&C6&C7&C8&C9&C10&C11&C12&C13&C14&C15&C16&C17&C18&C19&C20&C21&C22).
  destruct Hm as (M1&M2&M3&M4&M5&M6&M7&M8&M9&M10&M11&M12&M13&M14&M15&M16&M17).
  destruct Hd as (D1&D2&D3&D4&D5&D6&D7&D8&D9&D10&D11&D12&D13&D14&D15&D16&D17&D18&D19&D20).
  destruct Hf as (F1&F2&F3&F4&F5&F6&F7&F8&F9&F10&F11&F12).
  rewrite L1, L2, L3, L4, L5, L6, L7, L8, L9, L10, L11, L12, L13, L14, L15.
  rewrite ?F12, ?F11, ?F3, ?F2, ?F1, ?F4, ?D12, ?D14, ?D15, ?D16, ?D17, ?D18, ?D19,
    ?D1, ?D2, ?D5, ?M1, ?M2, ?M8, ?M16, ?C1, ?C2, ?C8, ?C16.
  split_and!; reflexivity.
Qed.

(** ** The Memory stage *)

Lemma exec_stage_blocked c next_mem :
  m_valid (mem c) = true →
  eo_next_mem (exec_stage c next_mem false) = next_mem ∧
  eo_next_exec (exec_stage c next_mem false) = exec c.
Proof.
  intros Hv. unfold exec_stage. rewrite Hv. simpl.
  by destruct (e_valid (exec c)).
Qed.

(** A Memory latch that is waiting for the bus: nothing but [mem_stall]
    changes. *)
Lemma mem_stage_waiting i c req :
  m_valid (mem c) = true → m_waiting (mem c) = true →
  mem_stage i c req =
    {| mo_core := set_stats c (inc_mem_stall (stats c)); mo_req := req;
       mo_next_wb := wb0; mo_next_mem := mem c; mo_mem_advances := false |}.
Proof. intros Hv Hw. unfold mem_stage. by rewrite Hv, Hw. Qed.




(** Core 0 loads word 0, stores it back and halts; core 1 loads word 0 and
    halts.  Both loads leave the block in state S, so the store of core 0
    needs an upgrade. *)
Definition upgrade_example : Sim :=
  init_sim [270532608; 287309824; 335544320] [270532608; 335544320]
           [335544320] [335544320] [7].

Definition core_at (i : nat) (s : Sim) : Core := default (init_core 0 []) (cores s !! i).

Lemma core_at_lookup (i : nat) (s : Sim) :
  (i <? length (cores s))%nat = true → cores s !! i = Some (core_at i s).
Proof.
  intros Hi. apply Nat.ltb_lt in Hi. unfold core_at.
  by destruct (lookup_lt_is_Some_2 _ _ Hi) as [c ->].
Qed.

(** A test that holds of every core of a list, by evaluation. *)
Lemma cores_forallb (f : nat → Core → bool) (cs : list Core) :
  forallb (λ p, f p.1 p.2) (imap pair cs) = true →
  ∀ j c, cs !! j = Some c → f j c = true.
Proof.
  intros Hall j c Hj. rewrite forallb_forall in Hall.
  apply (Hall (j, c)), list_elem_of_In, elem_of_lookup_imap. by exists j, c.
Qed.



(** ** Branch resolution and the delay slot *)





(** Core 0 runs [JAL] to 10 at address 0 and, in its delay slot at address
    1, [JAL] to 20; both take their target from R1, the immediate. *)
Definition delay_slot_example : Sim :=
  init_sim [252706826; 252706836] [335544320] [335544320] [335544320] [].



(** ** Bus timing *)

Lemma pipeline_phase_bus s :
  bus (pipeline_phase s) = bus s ∧ rr_next (pipeline_phase s) = rr_next s ∧
  main_mem (pipeline_phase s) = main_mem s.
Proof. unfold pipeline_phase. by destruct (advance_cores _ _ _). Qed.

(** The state in which the bus part of the cycle that starts in [s] runs. *)
Definition before_bus (s : Sim) : Sim :=
  pipeline_phase (set_bus s (reset_bus_out (bus s))).

Lemma sim_cycle_bus s : bus (sim_cycle s) = bus (bus_phase (before_bus s)).
Proof. done. Qed.

Lemma before_bus_bus s : bus (before_bus s) = reset_bus_out (bus s).
Proof. unfold before_bus. by rewrite (proj1 (pipeline_phase_bus _)). Qed.

Lemma bus_phase_wait s :
  phase (bus s) = 1 → 0 < delay (bus s) →
  bus (bus_phase s) = set_delay (bus s) (delay (bus s) - 1).
Proof.
  intros Hp Hd. unfold bus_phase. rewrite arbitrate_busy by lia.
  unfold drive_bus, advance_bus. rewrite Hp. simpl.
  destruct (Z.eqb_spec (delay (bus s)) 0); [lia|]. simpl. rewrite Hp. simpl.
  destruct (Z.gtb_spec (delay (bus s)) 0); [done|lia].
Qed.

Lemma bus_phase_flush_first s :
  phase (bus s) = 1 → delay (bus s) = 0 → bus_cmd_out (bus s) = BUS_NONE →
  let b := bus (bus_phase s) in
  phase b = 2 ∧ index b = 1 ∧ bus_cmd_out b = BUS_FLUSH ∧
  bus_origid_out b = provider (bus s) ∧
  bus_addr_out b = u32 (block_base (addr (bus s)) + 0) ∧
  bus_data_out b = rdw (block (bus s)) 0 ∧
  bus_shared_out b = shared (bus s).
Proof.
  intros Hp Hd Ho. unfold bus_phase. rewrite arbitrate_busy by lia.
  unfold drive_bus, advance_bus. rewrite Hp, Hd, Ho. simpl. done.
Qed.

Lemma bus_phase_start_memory s w req :
  phase (bus s) = 0 →
  scan_requests (seqZ 0 NUM_CORES) (requests s) (rr_next s) = w → w ≠ -1 →
  requests s !! Z.to_nat w = Some req →
  (∀ j c, cores s !! j = Some c → Z.of_nat j ≠ r_origin req →
     line_state (cache c) (r_addr req) ≠ MESI_M) →
  let b := bus (bus_phase s) in
  delay (bus (arbitrate s)) = 16 ∧
  phase b = 1 ∧ delay b = 15 ∧ provider b = 4 ∧ addr b = r_addr req ∧
  bus_cmd_out b = r_cmd req ∧
  ∀ k, 0 ≤ k < 8 →
    rdw (block b) k =
      rdw (main_mem s) (Z.land (u32 (block_base (r_addr req) + k)) (MAIN_MEM_WORDS - 1)).
Proof.
  intros Hp Hw Hne Hreq HnoM. unfold bus_phase.
  rewrite (arbitrate_start s w req) by done. cbn [bus set_bus].
  destruct (start_bus_transaction_out (bus s) req (cores s) (main_mem s))
    as (Hph & _ & _ & Had & _ & Hco & _).
  destruct (start_bus_transaction_data (bus s) req (cores s) (main_mem s))
    as (_ & Hmem & _).
  destruct Hmem as (Hpr & Hdl & Hblk).
  { apply (snoop_caches_no_provider (r_origin req) (r_cmd req) (r_addr req) (cores s) 0).
    intros j c Hj Hne'. rewrite Z.add_0_l in Hne'. by apply (HnoM j c). }
  set (b1 := (start_bus_transaction (bus s) req (cores s) (main_mem s)).1) in *.
  split; [done|].
  unfold drive_bus, advance_bus. rewrite Hph, Hdl. simpl. rewrite Hph, Hdl. simpl.
  done.
Qed.

Lemma sim_cycle_wait s :
  phase (bus s) = 1 → 0 < delay (bus s) →
  bus (sim_cycle s) = set_delay (reset_bus_out (bus s)) (delay (bus s) - 1).
Proof.
  intros Hp Hd. rewrite sim_cycle_bus, bus_phase_wait; by rewrite before_bus_bus.
Qed.

Lemma sim_cycle_flush_first s :
  phase (bus s) = 1 → delay (bus s) = 0 →
  let b := bus (sim_cycle s) in
  phase b = 2 ∧ index b = 1 ∧ bus_cmd_out b = BUS_FLUSH ∧
  bus_origid_out b = provider (bus s) ∧
  bus_addr_out b = u32 (block_base (addr (bus s)) + 0) ∧
  bus_data_out b = rdw (block (bus s)) 0 ∧
  bus_shared_out b = shared (bus s).
Proof.
  intros Hp Hd. cbv zeta. rewrite sim_cycle_bus.
  pose proof (bus_phase_flush_first (before_bus s)) as H.
  rewrite before_bus_bus in H. by apply H.
Qed.

(** C7.  If the bus is idle at the start of a cycle and the arbitration of
    that cycle starts a transaction for which no peer cache holds the block
    in M (memory is the provider), then the latency counter is 16 when the
    transaction starts and the request's command is driven in that cycle;
    in each of the next 15 cycles the counter is positive at the start of
    the cycle (16 - k at the start of the k-th) and the bus drives BUS_NONE;
    the 16th cycle after the request starts with the counter at 0, moves
    the bus to Flush and drives the first FLUSH word: word 0 of the block,
    read from main memory, with origid 4. *)
Theorem memory_latency (s : Sim) (w : Z) (req : BusRequest)
    (Hidle : phase (bus s) = 0)
    (Hscan : scan_requests (seqZ 0 NUM_CORES) (requests (before_bus s))
               (rr_next (before_bus s)) = w)
    (Hw : w ≠ -1)
    (Hreq : requests (before_bus s) !! Z.to_nat w = Some req)
    (Hmem : ∀ j c, cores (before_bus s) !! j = Some c → Z.of_nat j ≠ r_origin req →
              line_state (cache c) (r_addr req) ≠ MESI_M) :
  delay (bus (arbitrate (before_bus s))) = 16 ∧
  bus_cmd_out (bus (run 1 s)) = r_cmd req ∧
  (∀ k : nat, (1 ≤ k ≤ 15)%nat →
     phase (bus (run k s)) = 1 ∧ delay (bus (run k s)) = 16 - Z.of_nat k ∧
     bus_cmd_out (bus (run (S k) s)) = BUS_NONE) ∧
  (phase (bus (run 16 s)) = 1 ∧ delay (bus (run 16 s)) = 0) ∧
  (phase (bus (run 17 s)) = 2 ∧
   bus_cmd_out (bus (run 17 s)) = BUS_FLUSH ∧
   bus_origid_out (bus (run 17 s)) = 4 ∧
   bus_addr_out (bus (run 17 s)) = block_base (r_addr req) mod 2 ^ 32 ∧
   bus_data_out (bus (run 17 s)) =
     rdw (main_mem (before_bus s)) (block_base (r_addr req) mod 2 ^ 20)).
Proof.
  assert (Hidle' : phase (bus (before_bus s)) = 0) by (by rewrite before_bus_bus).
  destruct (bus_phase_start_memory (before_bus s) w req Hidle' Hscan Hw Hreq Hmem)
    as (H16 & Hp1 & Hd1 & Hpr1 & Had1 & Hc1 & Hb1).
  change (bus (bus_phase (before_bus s))) with (bus (run 1 s)) in Hp1, Hd1, Hpr1, Had1, Hc1, Hb1.
  assert (Hwait : ∀ k : nat, (1 ≤ k ≤ 16)%nat →
    phase (bus (run k s)) = 1 ∧ delay (bus (run k s)) = 16 - Z.of_nat k ∧
    provider (bus (run k s)) = 4 ∧ addr (bus (run k s)) = r_addr req ∧
    block (bus (run k s)) = block (bus (run 1 s))).
  { intros k Hk. induction k as [|k IH]; [lia|].
    destruct (decide (k = 0%nat)) as [->|Hk0]; [by split_and!|].
    destruct IH as (IHp & IHd & IHpr & IHa & IHb); [lia|].
    change (run (S k) s) with (sim_cycle (run k s)).
    generalize dependent (run k s). intros sk IHp IHd IHpr IHa IHb.
    rewrite sim_cycle_wait by lia.
    cbn [phase delay provider addr block set_delay reset_bus_out set_bus_out].
    split_and!; try done. lia. }
  split; [done|]. split; [done|]. split.
  { intros k Hk. destruct (Hwait k) as (Hp & Hd & _); [lia|].
    split; [done|]. split; [done|].
    change (run (S k) s) with (sim_cycle (run k s)).
    generalize dependent (run k s). intros sk Hp Hd.
    by rewrite sim_cycle_wait by lia. }
  destruct (Hwait 16%nat) as (Hp & Hd & Hpr & Ha & Hb); [lia|].
  split; [done|].
  change (run 17 s) with (sim_cycle (run 16 s)).
  generalize dependent (run 16 s). intros s16 Hp Hd Hpr Ha Hb.
  destruct (sim_cycle_flush_first s16 Hp Hd) as (F1 & _ & F3 & F4 & F5 & F6 & _).
  rewrite F1, F3, F4, F5, F6, Hpr, Ha, Hb, Hb1 by lia.
  rewrite Z.add_0_r, mem_addr_wrap.
  by split_and!.
Qed.

Lemma memory_latency_witness :
  let s := run 3 upgrade_example in
  bus_cmd_out (bus (run 1 s)) = BUS_RD ∧
  bus_cmd_out (bus (run 16 s)) = BUS_NONE ∧
  bus_cmd_out (bus (run 17 s)) = BUS_FLUSH ∧
  bus_data_out (bus (run 17 s)) = 7.
Proof.
  intros s.
  destruct (memory_latency s 0
              {| r_active := true; r_cmd := BUS_RD; r_addr := 0; r_origin := 0 |})
    as (_ & H1 & Hk & _ & _ & H17 & _ & _ & Hd).
  - by vm_compute.
  - by vm_compute.
  - done.
  - by vm_compute.
  - intros j c Hj _.
    apply (cores_forallb (λ _ c, bool_decide (line_state (cache c) 0 ≠ MESI_M))) in Hj;
      [|by vm_compute].
    by apply bool_decide_eq_true in Hj.
  - split; [exact H1|]. split; [apply (Hk 15%nat); lia|]. split; [exact H17|].
    etrans; [exact Hd|]. by vm_compute.
Defined.

(** ** The cores through one cycle *)

(** From here on [advance_core] is used through [advance_core_stages]. *)
Opaque advance_core.

Lemma advance_cores_lookup cs rs i0 j :
  (advance_cores i0 cs rs).1 !! j =
    match cs !! j, rs !! j with
    | Some c, Some r => Some (advance_core (i0 + Z.of_nat j) c r).1
    | oc, _ => oc
    end ∧
  (advance_cores i0 cs rs).2 !! j =
    match cs !! j, rs !! j with
    | Some c, Some r => Some (advance_core (i0 + Z.of_nat j) c r).2
    | _, or => or
    end.
Proof.
  revert rs i0 j. induction cs as [|c cs IH]; intros rs i0 j.
  - simpl. by destruct (rs !! j).
  - destruct rs as [|r rs]; [simpl; by destruct ((c :: cs) !! j)|].
    simpl. destruct (advance_core i0 c r) as [c1 r1] eqn:Hc.
    specialize (IH rs (i0 + 1)).
    destruct (advance_cores (i0 + 1) cs rs) as [cs1 rs1].
    destruct j as [|j]; simpl.
    + by rewrite Z.add_0_r, Hc.
    + specialize (IH j). simpl in IH.
      replace (i0 + Z.of_nat (S j)) with (i0 + 1 + Z.of_nat j) by lia.
      exact IH.
Qed.

Lemma advance_cores_length cs rs i0 :
  length (advance_cores i0 cs rs).1 = length cs ∧
  length (advance_cores i0 cs rs).2 = length rs.
Proof.
  revert rs i0. induction cs as [|c cs IH]; intros rs i0; [done|].
  destruct rs as [|r rs]; [done|]. simpl.
  destruct (advance_core i0 c r) as [c1 r1].
  specialize (IH rs (i0 + 1)).
  destruct (advance_cores (i0 + 1) cs rs) as [cs1 rs1]. simpl in *. lia.
Qed.

Lemma pipeline_phase_cores s j :
  cores (pipeline_phase s) !! j =
    match cores s !! j, requests s !! j with
    | Some c, Some r => Some (advance_core (Z.of_nat j) (wb_commit c) r).1
    | oc, _ => wb_commit <$> oc
    end ∧
  requests (pipeline_phase s) !! j =
    match cores s !! j, requests s !! j with
    | Some c, Some r => Some (advance_core (Z.of_nat j) (wb_commit c) r).2
    | _, or => or
    end.
Proof.
  unfold pipeline_phase.
  pose proof (advance_cores_lookup (wb_commit <$> cores s) (requests s) 0 j) as H.
  destruct (advance_cores 0 (wb_commit <$> cores s) (requests s)) as [cs rs].
  simpl in *. rewrite list_lookup_fmap in H.
  destruct (cores s !! j); simpl in *; exact H.
Qed.

Lemma pipeline_phase_length s :
  length (cores (pipeline_phase s)) = length (cores s) ∧
  length (requests (pipeline_phase s)) = length (requests s).
Proof.
  unfold pipeline_phase.
  pose proof (advance_cores_length (wb_commit <$> cores s) (requests s) 0) as H.
  destruct (advance_cores 0 (wb_commit <$> cores s) (requests s)) as [cs rs].
  simpl in *. by rewrite length_fmap in H.
Qed.

Lemma wb_commit_frame c :
  let c' := wb_commit c in
  id c' = id c ∧ imem c' = imem c ∧ pc c' = pc c ∧
  redirect_pending c' = redirect_pending c ∧ redirect_pc c' = redirect_pc c ∧
  stop_fetch c' = stop_fetch c ∧ done_ c' = done_ c ∧
  fetch c' = fetch c ∧ decode c' = decode c ∧ exec c' = exec c ∧ mem c' = mem c ∧
  wb c' = wb c ∧ cache c' = cache c.
Proof.
  unfold wb_commit. destruct (w_valid (wb c)); [|done].
  destruct (dest_reg _ >=? 0); simpl; by destruct (i_op _ =? OP_HALT).
Qed.

(** ** Coherence *)

(** Cache [ca] holds the block of [a] in M or E. *)
Definition excl (ca : Cache) (a : Z) : Prop :=
  line_state ca a = MESI_M ∨ line_state ca a = MESI_E.

(** A cache that holds a block in M or E is the only one that holds it. *)
Definition exclusive (cs : list Core) : Prop :=
  ∀ i j ci cj a,
    cs !! i = Some ci → cs !! j = Some cj → i ≠ j →
    excl (cache ci) a → line_state (cache cj) a = MESI_I.

(** While a transaction is in flight no peer of the origin holds the block
    in M or E, and none holds it at all unless the fill will be in S. *)
Definition in_flight_ok (b : BusState) (cs : list Core) : Prop :=
  phase b ≠ 0 →
  0 ≤ addr b < 2 ^ 20 ∧ (cmd b = BUS_RD ∨ cmd b = BUS_RDX) ∧
  ∀ j c, cs !! j = Some c → Z.of_nat j ≠ origin b →
    ¬ excl (cache c) (addr b) ∧
    (fill_state b ≠ MESI_S → line_state (cache c) (addr b) = MESI_I).

Definition requests_ok (rs : list BusRequest) : Prop :=
  ∀ j r, rs !! j = Some r → r_active r = true →
    (r_cmd r = BUS_RD ∨ r_cmd r = BUS_RDX) ∧ 0 ≤ r_addr r < 2 ^ 20.

Definition coherent (s : Sim) : Prop :=
  exclusive (cores s) ∧ in_flight_ok (bus s) (cores s) ∧ requests_ok (requests s).

(** [ca'] holds every block in the same class (absent, S, or M/E) as [ca]. *)
Definition same_class (ca ca' : Cache) : Prop :=
  ∀ a, (line_state ca' a = MESI_I ↔ line_state ca a = MESI_I) ∧
       (excl ca' a ↔ excl ca a).

(** [ca'] holds no block in a stronger class than [ca]. *)
Definition downgraded (ca ca' : Cache) : Prop :=
  ∀ a, (excl ca' a → excl ca a) ∧
       (line_state ca a = MESI_I → line_state ca' a = MESI_I).

Lemma same_class_refl ca : same_class ca ca.
Proof. by intros a. Qed.

Lemma same_class_downgraded ca ca' : same_class ca ca' → downgraded ca ca'.
Proof. intros H a. destruct (H a) as [H1 H2]. split; [apply H2 | apply H1]. Qed.

Lemma exclusive_downgraded cs cs' :
  (∀ j c', cs' !! j = Some c' → ∃ c, cs !! j = Some c ∧ downgraded (cache c) (cache c')) →
  exclusive cs → exclusive cs'.
Proof.
  intros Hrel Hex i j ci' cj' a Hi Hj Hne Hx.
  destruct (Hrel i ci' Hi) as (ci & Hci & Hdi).
  destruct (Hrel j cj' Hj) as (cj & Hcj & Hdj).
  apply Hdj, (Hex i j ci cj a Hci Hcj Hne). by apply Hdi.
Qed.

Lemma in_flight_same_class b cs cs' :
  (∀ j c', cs' !! j = Some c' → ∃ c, cs !! j = Some c ∧ same_class (cache c) (cache c')) →
  in_flight_ok b cs → in_flight_ok b cs'.
Proof.
  intros Hrel Hin Hp. destruct (Hin Hp) as (Ha & Hc & Hpeers).
  split; [done|]. split; [done|].
  intros j c' Hj Hne. destruct (Hrel j c' Hj) as (c & Hc0 & Hsc).
  destruct (Hpeers j c Hc0 Hne) as [Hnx Hfill]. destruct (Hsc (addr b)) as [HI HX].
  split; [by rewrite HX | intros Hf; by apply HI, Hfill].
Qed.

Lemma line_state_ext ca ca' a :
  rdw (c_tag ca') (cache_index a) = rdw (c_tag ca) (cache_index a) →
  rds (c_state ca') (cache_index a) = rds (c_state ca) (cache_index a) →
  line_state ca' a = line_state ca a.
Proof. unfold line_state. by intros -> ->. Qed.

Lemma mem_stage_cache i c req :
  let ca := cache c in
  let ca' := cache (mo_core (mem_stage i c req)) in
  c_tag ca' = c_tag ca ∧
  (c_state ca' = c_state ca ∨
   (line_state ca (m_mem_addr (mem c)) = MESI_E ∧
    c_state ca' = wrs (c_state ca) (cache_index (m_mem_addr (mem c))) MESI_M)).
Proof.
  unfold mem_stage.
  destruct (m_valid (mem c)); [|by split; [|left]].
  destruct (m_waiting (mem c)); [by split; [|left]|]. simpl.
  destruct ((i_op (m_inst (mem c)) =? OP_LW) || (i_op (m_inst (mem c)) =? OP_SW));
    [|by split; [|left]].
  rewrite cache_lookup_line_state.
  set (ls := line_state (cache c) (m_mem_addr (mem c))).
  assert (Hcnt : ∀ x y z w : Core,
    cache x = cache c → cache y = cache c → cache z = cache c → cache w = cache c →
    ∀ b1 b2 b3 : bool,
    cache (if b1 then c else if b2 then (if b3 then x else y) else (if b3 then z else w))
      = cache c).
  { intros x y z w Hx Hy Hz Hw b1 b2 b3. by destruct b1, b2, b3. }
  match goal with
  | |- context [if m_miss (mem c) then c else ?rest] =>
      set (c1 := if m_miss (mem c) then c else rest)
  end.
  assert (Hc1 : cache c1 = cache c) by (unfold c1; by apply Hcnt).
  assert (Hm1 : mem c1 = mem c).
  { unfold c1. destruct (m_miss (mem c)); [done|].
    destruct (bool_decide (ls ≠ MESI_I) && _), (i_op (m_inst (mem c)) =? OP_LW); done. }
  clearbody c1.
  destruct (negb _ || _ || _).
  { rewrite Hm1. destruct (m_request_queued (mem c)); simpl; rewrite Hc1; by split; [|left]. }
  destruct (i_op (m_inst (mem c)) =? OP_LW); simpl; [rewrite Hc1; by split; [|left]|].
  case_bool_decide as HE; simpl; rewrite Hc1, ?Hm1; simpl; split; try done; [by right | by left].
Qed.

Lemma same_class_upgrade ca ca' a0 :
  c_tag ca' = c_tag ca →
  line_state ca a0 = MESI_E →
  c_state ca' = wrs (c_state ca) (cache_index a0) MESI_M →
  same_class ca ca'.
Proof.
  intros Ht HE Hs a. apply line_state_not_I in HE as [HE1 HE2]; [|done].
  unfold excl, line_state. rewrite Ht, Hs.
  destruct (decide (cache_index a = cache_index a0)) as [Heq|Hne].
  - rewrite Heq, rds_wrs_eq, HE1.
    destruct (rdw (c_tag ca) (cache_index a0) =? cache_tag a); naive_solver.
  - by rewrite rds_wrs_ne.
Qed.

Lemma advance_core_same_class i c req :
  same_class (cache c) (cache (advance_core i c req).1).
Proof.
  pose proof (advance_core_stages i c req) as Hs. cbv zeta in Hs.
  destruct Hs as (_ & _ & _ & _ & _ & _ & Hc & _). rewrite Hc.
  pose proof (count_cycle_frame c) as Hcc. cbv zeta in Hcc.
  destruct Hcc as (_&_&_&_&_&_&_&_&_&_&_&_&Hmem&_&Hca&_).
  destruct (mem_stage_cache i (count_cycle c) req) as [Ht [Hst|[HE Hst]]];
    rewrite Hca, ?Hmem in *.
  - intros a. unfold excl. by rewrite (line_state_ext (cache c)) by (by rewrite ?Ht, ?Hst).
  - by eapply same_class_upgrade.
Qed.

Lemma pipeline_phase_same_class s j c' :
  cores (pipeline_phase s) !! j = Some c' →
  ∃ c, cores s !! j = Some c ∧ same_class (cache c) (cache c').
Proof.
  intros Hj. rewrite (proj1 (pipeline_phase_cores s j)) in Hj.
  pose proof (wb_commit_frame) as Hwb. cbv zeta in Hwb.
  destruct (cores s !! j) as [c|]; [|done]. exists c. split; [done|].
  destruct (Hwb c) as (_&_&_&_&_&_&_&_&_&_&_&_&Hca).
  destruct (requests s !! j) as [r|]; apply (inj Some) in Hj; subst c'.
  - rewrite <- Hca. apply advance_core_same_class.
  - rewrite Hca. apply same_class_refl.
Qed.

Lemma line_state_same_block ca a a' :
  cache_index a' = cache_index a → cache_tag a' = cache_tag a →
  line_state ca a' = line_state ca a.
Proof. unfold line_state. by intros -> ->. Qed.

Lemma line_state_other_tag ca a a' :
  cache_index a' = cache_index a → cache_tag a' ≠ cache_tag a →
  line_state ca a ≠ MESI_I → line_state ca a' = MESI_I.
Proof.
  unfold line_state. intros -> Hne.
  destruct (Z.eqb_spec (rdw (c_tag ca) (cache_index a)) (cache_tag a)) as [Ht|]; [|done].
  intros _. destruct (Z.eqb_spec (rdw (c_tag ca) (cache_index a)) (cache_tag a')); [|done].
  congruence.
Qed.

Lemma in_flight_ok_bus b b' cs :
  (phase b' ≠ 0 → phase b ≠ 0) → addr b' = addr b → cmd b' = cmd b →
  origin b' = origin b → shared b' = shared b →
  in_flight_ok b cs → in_flight_ok b' cs.
Proof.
  intros Hp Ha Hc Ho Hs Hin Hp'. unfold fill_state. rewrite Ha, Hc, Ho, Hs.
  by apply Hin, Hp.
Qed.

(** *** Snoop *)

Lemma apply_snoop_downgraded ca i o cmd a out :
  downgraded ca (apply_snoop ca i o cmd a out).1.
Proof.
  destruct (apply_snoop_cache ca i o cmd a out) as (_ & Ht & Hoth & Hsame & Htr).
  intros a'.
  destruct (decide (i = o ∨ line_state ca a = MESI_I)) as [Hq|Hq];
    [by rewrite Hsame|].
  assert (i ≠ o ∧ line_state ca a ≠ MESI_I) as [Hio Hls] by naive_solver.
  specialize (Htr Hio Hls).
  destruct (decide (cache_index a' = cache_index a)) as [Hidx|Hidx].
  - destruct (decide (cache_tag a' = cache_tag a)) as [Htag|Htag].
    + unfold excl. rewrite !(line_state_same_block _ a a') by done.
      rewrite Htr. split; [|done].
      destruct (line_state ca a), (bool_decide (cmd = BUS_RD)), (bool_decide (cmd = BUS_RDX));
        naive_solver.
    + assert (HI : line_state (apply_snoop ca i o cmd a out).1 a' = MESI_I).
      { unfold line_state. rewrite Ht, Hidx.
        destruct (Z.eqb_spec (rdw (c_tag ca) (cache_index a)) (cache_tag a')) as [He|]; [|done].
        unfold line_state in Hls.
        destruct (Z.eqb_spec (rdw (c_tag ca) (cache_index a)) (cache_tag a)); [|done].
        congruence. }
      unfold excl. rewrite HI. naive_solver.
  - unfold excl. rewrite (line_state_ext ca) by (by rewrite ?Ht, ?Hoth). done.
Qed.

Lemma snoop_caches_back o cmd a cs i0 out j c' :
  (snoop_caches i0 cs o cmd a out).1 !! j = Some c' →
  ∃ c out', cs !! j = Some c ∧
    c' = set_cache c (apply_snoop (cache c) (i0 + Z.of_nat j) o cmd a out').1.
Proof.
  intros Hj.
  assert (Hlt : (j < length cs)%nat).
  { rewrite <- (snoop_caches_length o cmd a cs i0 out). by eapply lookup_lt_Some. }
  destruct (lookup_lt_is_Some_2 cs j Hlt) as [c Hc].
  destruct (snoop_caches_lookup o cmd a cs i0 out j c Hc) as [out' Hl].
  exists c, out'. split; [done|]. congruence.
Qed.

Lemma start_bus_transaction_coherent b req cs ram :
  (r_cmd req = BUS_RD ∨ r_cmd req = BUS_RDX) → 0 ≤ r_addr req < 2 ^ 20 →
  exclusive cs →
  let r := start_bus_transaction b req cs ram in
  exclusive r.2 ∧ in_flight_ok r.1 r.2.
Proof.
  intros Hcmd Haddr Hex r.
  set (out0 := {| sn_shared := 0; sn_provider := -1; sn_block := ∅ |}).
  assert (Hcs : r.2 = (snoop_caches 0 cs (r_origin req) (r_cmd req) (r_addr req) out0).1).
  { unfold r. by rewrite start_bus_transaction_snoop. }
  destruct (start_bus_transaction_out b req cs ram) as (_ & Hc & Ho & Ha & _).
  destruct (start_bus_transaction_data b req cs ram) as (Hsh & _).
  fold r out0 in Hc, Ho, Ha, Hsh.
  split.
  - eapply exclusive_downgraded; [|exact Hex].
    intros j c' Hj. rewrite Hcs in Hj.
    destruct (snoop_caches_back _ _ _ _ _ _ _ _ Hj) as (c & out' & Hcj & ->).
    exists c. split; [done|]. apply apply_snoop_downgraded.
  - intros _. rewrite Ha, Ho. split; [done|]. split; [by rewrite Hc|].
    intros j c' Hj Hne. rewrite Hcs in Hj.
    destruct (snoop_caches_back _ _ _ _ _ _ _ _ Hj) as (c & out' & Hcj & ->).
    rewrite Z.add_0_l.
    change (cache (set_cache c ?x)) with x.
    destruct (apply_snoop_cache (cache c) (Z.of_nat j) (r_origin req) (r_cmd req)
                (r_addr req) out') as (_ & _ & _ & Hsame & Htr).
    destruct (decide (line_state (cache c) (r_addr req) = MESI_I)) as [HI|HI].
    { rewrite Hsame by (by right). unfold excl. rewrite HI. naive_solver. }
    assert (Hshared : shared r.1 = 1).
    { rewrite Hsh. eapply snoop_caches_shared; [exact Hcj | by rewrite Z.add_0_l | done]. }
    unfold excl, fill_state. rewrite (Htr Hne HI), Hc, Hshared.
    destruct Hcmd as [-> | ->]; destruct (line_state (cache c) (r_addr req));
      try done; cbv; (split; [intros [?|?]; discriminate | intros H; try done; by destruct H]).
Qed.

Lemma scan_requests_active ks rs rr :
  scan_requests ks rs rr = -1 ∨ request_active rs (scan_requests ks rs rr) = true.
Proof.
  destruct (scan_requests_spec ks rs rr) as [[H _]|(pre & k & post & _ & Hw & Hact & _)];
    [by left | right; by rewrite Hw].
Qed.

Lemma arbitrate_cases s :
  arbitrate s = s ∨
  ∃ w req,
    phase (bus s) = 0 ∧ requests s !! Z.to_nat w = Some req ∧ r_active req = true ∧
    arbitrate s =
      {| cores := (start_bus_transaction (bus s) req (cores s) (main_mem s)).2;
         requests := <[Z.to_nat w := deactivate req]> (requests s);
         bus := (start_bus_transaction (bus s) req (cores s) (main_mem s)).1;
         rr_next := Z.rem (w + 1) NUM_CORES;
         main_mem := main_mem s; cycle := cycle s |}.
Proof.
  destruct (decide (phase (bus s) = 0)) as [Hp|Hp]; [|left; by apply arbitrate_busy].
  destruct (scan_requests_active (seqZ 0 NUM_CORES) (requests s) (rr_next s)) as [Hn|Hact];
    [left; by apply arbitrate_none|].
  set (w := scan_requests (seqZ 0 NUM_CORES) (requests s) (rr_next s)) in *.
  destruct (decide (w = -1)) as [Hw|Hw]; [left; by apply arbitrate_none|].
  unfold request_active in Hact.
  destruct (requests s !! Z.to_nat w) as [req|] eqn:Hreq; [|done].
  right. exists w, req. split; [done|]. split; [done|]. split; [done|].
  by apply arbitrate_start.
Qed.

Lemma arbitrate_coherent s : coherent s → coherent (arbitrate s).
Proof.
  intros (Hex & Hin & Hrq).
  destruct (arbitrate_cases s) as [->|(w & req & Hp & Hreq & Hact & ->)]; [done|].
  destruct (Hrq _ _ Hreq Hact) as [Hcmd Haddr].
  destruct (start_bus_transaction_coherent (bus s) req (cores s) (main_mem s) Hcmd Haddr Hex)
    as [Hex' Hin'].
  split; [done|]. split; [done|]. cbn [requests].
  intros j r Hj Hr.
  destruct (decide (j = Z.to_nat w)) as [->|Hne].
  - rewrite list_lookup_insert_eq in Hj by (by eapply lookup_lt_Some).
    injection Hj as <-. done.
  - rewrite list_lookup_insert_ne in Hj by done. by apply (Hrq j).
Qed.

(** *** Completion *)

Lemma fill_line_state ca a blk st ram a' :
  let ca' := (fill_cache_line ca (cache_index a) (cache_tag a) blk st ram).1 in
  line_state ca' a' =
    if decide (cache_index a' = cache_index a)
    then (if decide (cache_tag a' = cache_tag a) then st else MESI_I)
    else line_state ca a'.
Proof.
  cbv zeta.
  destruct (fill_cache_line_line ca (cache_index a) (cache_tag a) blk st ram) as (Ht & Hs & _).
  rewrite land_tag_mask in Ht by apply cache_tag_range.
  destruct (decide (cache_index a' = cache_index a)) as [Hi|Hi].
  - unfold line_state. rewrite Hi, Ht, Hs.
    destruct (decide (cache_tag a' = cache_tag a)) as [->|Hne].
    + by rewrite Z.eqb_refl.
    + by destruct (Z.eqb_spec (cache_tag a) (cache_tag a')).
  - destruct (fill_cache_line_other ca (cache_index a) (cache_tag a) blk st ram
                (cache_index a') Hi) as [Ht' Hs'].
    by apply line_state_ext.
Qed.

Lemma complete_transaction_cases b cs ram :
  (complete_transaction b cs ram).1 = cs ∨
  ∃ c c2 ram1,
    cs !! Z.to_nat (origin b) = Some c ∧ 0 ≤ origin b ∧
    (complete_transaction b cs ram).1 = <[Z.to_nat (origin b) := c2]> cs ∧
    cache c2 =
      (fill_cache_line (cache c) (cache_index (block_base (addr b)))
         (cache_tag (block_base (addr b))) (block b) (fill_state b) ram1).1.
Proof.
  destruct (decide (0 ≤ origin b < 4)) as [Ho|Ho].
  - destruct (cs !! Z.to_nat (origin b)) as [c|] eqn:Hc.
    + right. pose proof (complete_transaction_unfold b cs ram c Ho Hc) as Heq.
      cbv zeta in Heq. rewrite Heq.
      set (ram1 := copy_block _ _ ram).
      set (fl := fill_cache_line _ _ _ _ _ ram1).
      exists c, (if m_valid (mem c) && m_waiting (mem c)
                 then set_mem (set_cache c fl.1) (mem_clear_waiting (mem c))
                 else set_cache c fl.1), ram1.
      split; [done|]. split; [lia|]. split; [done|].
      by destruct (m_valid (mem c) && m_waiting (mem c)).
    + left. unfold complete_transaction. rewrite Hc.
      by destruct (_ || _).
  - left. unfold complete_transaction, NUM_CORES.
    destruct (Z.ltb_spec (origin b) 0); [done|].
    destruct (Z.geb_spec (origin b) 4); [done|]. lia.
Qed.

Lemma complete_transaction_exclusive b cs ram :
  phase b ≠ 0 → exclusive cs → in_flight_ok b cs →
  exclusive (complete_transaction b cs ram).1.
Proof.
  intros Hp Hex Hin. destruct (Hin Hp) as (Ha & _ & Hpeers).
  destruct (complete_transaction_cases b cs ram)
    as [->|(c & c2 & ram1 & Hc & Ho & -> & Hca)]; [done|].
  rewrite cache_index_block_base, cache_tag_block_base in Hca by lia.
  set (o := Z.to_nat (origin b)) in *.
  assert (Hlen : (o < length cs)%nat) by (by eapply lookup_lt_Some).
  assert (Hls : ∀ a', line_state (cache c2) a' =
    if decide (cache_index a' = cache_index (addr b))
    then (if decide (cache_tag a' = cache_tag (addr b)) then fill_state b else MESI_I)
    else line_state (cache c) a').
  { intros a'. rewrite Hca. apply fill_line_state. }
  assert (Hpeer : ∀ j cj, j ≠ o → cs !! j = Some cj →
    ¬ excl (cache cj) (addr b) ∧
    (fill_state b ≠ MESI_S → line_state (cache cj) (addr b) = MESI_I)).
  { intros j cj Hj Hcj. apply (Hpeers j cj Hcj). unfold o in Hj. lia. }
  intros i j ci cj a' Hi Hj Hne Hx.
  destruct (decide (i = o)) as [->|Hio].
  - rewrite list_lookup_insert_eq in Hi by done. injection Hi as <-.
    rewrite list_lookup_insert_ne in Hj by done.
    unfold excl in Hx. rewrite Hls in Hx.
    destruct (decide (cache_index a' = cache_index (addr b))) as [Hidx|Hidx].
    + destruct (decide (cache_tag a' = cache_tag (addr b))) as [Htag|Htag];
        [|by destruct Hx].
      rewrite (line_state_same_block _ (addr b)) by done.
      apply (Hpeer j cj); [done|done|]. by destruct Hx as [-> | ->].
    + by apply (Hex o j c cj a').
  - rewrite list_lookup_insert_ne in Hi by done.
    destruct (decide (j = o)) as [->|Hjo].
    + rewrite list_lookup_insert_eq in Hj by done. injection Hj as <-.
      rewrite Hls.
      destruct (decide (cache_index a' = cache_index (addr b))) as [Hidx|Hidx].
      * destruct (decide (cache_tag a' = cache_tag (addr b))) as [Htag|Htag]; [|done].
        exfalso. apply (Hpeer i ci Hio Hi).
        unfold excl in *. by rewrite <- (line_state_same_block _ (addr b) a').
      * by apply (Hex i o ci c a').
    + rewrite list_lookup_insert_ne in Hj by done. by apply (Hex i j ci cj a').
Qed.

Lemma drive_bus_frame b :
  let b' := drive_bus b in
  (phase b' ≠ 0 → phase b ≠ 0) ∧ (phase b = 0 → phase b' = 0) ∧
  addr b' = addr b ∧ cmd b' = cmd b ∧
  origin b' = origin b ∧ shared b' = shared b ∧ block b' = block b ∧
  provider b' = provider b.
Proof.
  unfold drive_bus.
  destruct (Z.eqb_spec (phase b) 2) as [H2|H2]; [simpl; split_and!; try done; lia|].
  destruct (Z.eqb_spec (phase b) 1) as [H1|H1]; simpl; [|done].
  destruct (delay b =? 0), (bool_decide (bus_cmd_out b = BUS_NONE)); simpl;
    split_and!; try done; lia.
Qed.

Lemma advance_bus_coherent s : coherent s → coherent (advance_bus s).
Proof.
  intros (Hex & Hin & Hrq). unfold advance_bus.
  destruct ((phase (bus s) =? 1) && (delay (bus s) >? 0)).
  { split; [done|]. split; [|done]. by eapply in_flight_ok_bus; [..|exact Hin]. }
  destruct (Z.eqb_spec (phase (bus s)) 2) as [H2|H2]; simpl; [|done].
  destruct (bool_decide (bus_cmd_out (bus s) = BUS_FLUSH)); [|done].
  destruct (index (bus s) + 1 >=? BLOCK_WORDS).
  - pose proof (complete_transaction_exclusive (bus s) (cores s) (main_mem s)) as Hc.
    change (complete_transaction (set_index (bus s) (index (bus s) + 1)) (cores s) (main_mem s))
      with (complete_transaction (bus s) (cores s) (main_mem s)).
    destruct (complete_transaction (bus s) (cores s) (main_mem s)) as [cs m].
    split; [apply Hc; [lia|done|done]|]. split; [|done].
    by intros Hp.
  - split; [done|]. split; [|done]. by eapply in_flight_ok_bus; [..|exact Hin].
Qed.

(** *** The pipeline phase *)

Lemma mem_stage_req i c req :
  mo_req (mem_stage i c req) = req ∨
  ∃ cmd, (cmd = BUS_RD ∨ cmd = BUS_RDX) ∧
    mo_req (mem_stage i c req) =
      {| r_active := true; r_cmd := cmd;
         r_addr := Z.land (m_mem_addr (mem c)) (Z.shiftl 1 20 - 1); r_origin := i |}.
Proof.
  unfold mem_stage.
  destruct (m_valid (mem c)); [|by left].
  destruct (m_waiting (mem c)); [by left|]. simpl.
  destruct ((i_op (m_inst (mem c)) =? OP_LW) || (i_op (m_inst (mem c)) =? OP_SW));
    [|by left].
  destruct (cache_lookup _ _ _) as [hit st].
  match goal with
  | |- context [if m_miss (mem c) then c else ?rest] =>
      set (c1 := if m_miss (mem c) then c else rest)
  end.
  assert (Hm1 : mem c1 = mem c).
  { unfold c1. destruct (m_miss (mem c)); [done|].
    destruct (hit && _), (i_op (m_inst (mem c)) =? OP_LW); done. }
  clearbody c1.
  destruct (negb hit || _ || _).
  - rewrite Hm1. destruct (m_request_queued (mem c)); [by left|].
    right. simpl.
    destruct (i_op (m_inst (mem c)) =? OP_LW);
      [exists BUS_RD; split; [by left|done] | exists BUS_RDX; split; [by right|done]].
  - destruct (i_op (m_inst (mem c)) =? OP_LW); [by left|].
    left. by destruct (bool_decide (st = MESI_E)).
Qed.

Lemma pipeline_phase_coherent s : coherent s → coherent (pipeline_phase s).
Proof.
  intros (Hex & Hin & Hrq). split_and!.
  - eapply exclusive_downgraded; [|exact Hex].
    intros j c' Hj. destruct (pipeline_phase_same_class s j c' Hj) as (c & Hc & Hsc).
    exists c. split; [done|]. by apply same_class_downgraded.
  - rewrite (proj1 (pipeline_phase_bus s)).
    eapply in_flight_same_class; [|exact Hin]. apply pipeline_phase_same_class.
  - intros j r Hj Hact. rewrite (proj2 (pipeline_phase_cores s j)) in Hj.
    destruct (cores s !! j) as [c|] eqn:Hc; [|by apply (Hrq j)].
    destruct (requests s !! j) as [r0|] eqn:Hr0; [|done].
    apply (inj Some) in Hj. subst r.
    pose proof (advance_core_stages (Z.of_nat j) (wb_commit c) r0) as Hs. cbv zeta in Hs.
    destruct Hs as (Hreq & _). rewrite Hreq in Hact |- *.
    destruct (mem_stage_req (Z.of_nat j) (count_cycle (wb_commit c)) r0)
      as [Heq|(cmd & Hcmd & Heq)]; rewrite Heq in Hact |- *.
    + by apply (Hrq j).
    + simpl. split; [done|].
      change (Z.shiftl 1 20 - 1) with (Z.ones 20). rewrite Z.land_ones by lia.
      apply Z.mod_pos_bound. lia.
Qed.

Lemma sim_cycle_coherent s : coherent s → coherent (sim_cycle s).
Proof.
  intros (Hex & Hin & Hrq).
  assert (H0 : coherent (set_bus s (reset_bus_out (bus s)))).
  { split; [done|]. split; [|done]. by eapply in_flight_ok_bus; [..|exact Hin]. }
  apply pipeline_phase_coherent, arbitrate_coherent in H0.
  set (s1 := arbitrate _) in *.
  assert (H1 : coherent (set_bus s1 (drive_bus (bus s1)))).
  { destruct H0 as (Hex1 & Hin1 & Hrq1). split; [done|]. split; [|done].
    pose proof (drive_bus_frame (bus s1)) as Hd. cbv zeta in Hd.
    eapply in_flight_ok_bus; [..|exact Hin1]; apply Hd. }
  apply advance_bus_coherent in H1. exact H1.
Qed.

Lemma run_coherent n s : coherent s → coherent (run n s).
Proof.
  intros H. induction n as [|n IH]; [done|].
  change (run (S n) s) with (sim_cycle (run n s)). by apply sim_cycle_coherent.
Qed.

Lemma init_sim_coherent im0 im1 im2 im3 memin :
  coherent (init_sim im0 im1 im2 im3 memin).
Proof.
  split_and!.
  - intros i j ci cj a Hi Hj _ Hx. exfalso.
    assert (Hc : cache ci = cache0).
    { destruct i as [|[|[|[|i]]]]; simpl in Hi; try done; by injection Hi as <-. }
    unfold excl, line_state in Hx. rewrite Hc in Hx.
    destruct (_ =? _); naive_solver.
  - by intros Hp.
  - intros j r Hj Hact.
    destruct j as [|[|[|[|j]]]]; simpl in Hj; try done; by injection Hj as <-.
Qed.

(** C3.  In every state the simulation reaches from reset, for every
    address: two caches that both hold the block in M or E are the same
    cache, and when a cache holds it in E or in M every other cache
    holds it in I. *)
Theorem single_modifier_exclusivity (im0 im1 im2 im3 memin : list Z) (n : nat) :
  let s := run n (init_sim im0 im1 im2 im3 memin) in
  ∀ (a : Z) (i j : nat) (ci cj : Core),
    cores s !! i = Some ci → cores s !! j = Some cj →
    (excl (cache ci) a → excl (cache cj) a → i = j) ∧
    (line_state (cache ci) a = MESI_E → i ≠ j → line_state (cache cj) a = MESI_I) ∧
    (line_state (cache ci) a = MESI_M → i ≠ j → line_state (cache cj) a = MESI_I).
Proof.
  intros s a i j ci cj Hi Hj.
  destruct (run_coherent n _ (init_sim_coherent im0 im1 im2 im3 memin)) as (Hex & _).
  fold s in Hex.
  split_and!.
  - intros Hxi Hxj. destruct (decide (i = j)) as [|Hne]; [done|].
    pose proof (Hex i j ci cj a Hi Hj Hne Hxi) as HI.
    unfold excl in Hxj. rewrite HI in Hxj. naive_solver.
  - intros HE Hne. apply (Hex i j ci cj a Hi Hj Hne). by right.
  - intros HM Hne. apply (Hex i j ci cj a Hi Hj Hne). by left.
Qed.

Lemma single_modifier_exclusivity_witness :
  line_state (cache (core_at 0 (run 100 upgrade_example))) 0 = MESI_M ∧
  line_state (cache (core_at 1 (run 100 upgrade_example))) 0 = MESI_I.
Proof.
  assert (HM : line_state (cache (core_at 0 (run 100 upgrade_example))) 0 = MESI_M)
    by (by vm_compute).
  split; [exact HM|].
  destruct (single_modifier_exclusivity
              [270532608; 287309824; 335544320] [270532608; 335544320]
              [335544320] [335544320] [7] 100 0 0%nat 1%nat
              (core_at 0 (run 100 upgrade_example)) (core_at 1 (run 100 upgrade_example)))
    as (_ & _ & H);
    [apply (core_at_lookup 0 (run 100 upgrade_example)); by vm_compute
    |apply (core_at_lookup 1 (run 100 upgrade_example)); by vm_compute |].
  apply H; [exact HM | lia].
Defined.

(** ** The reserved registers *)

(** The parts of a core that the bus never touches. *)
Definition same_pipeline (c c' : Core) : Prop :=
  id c' = id c ∧ imem c' = imem c ∧ regs c' = regs c ∧ pc c' = pc c ∧
  redirect_pending c' = redirect_pending c ∧ redirect_pc c' = redirect_pc c ∧
  stop_fetch c' = stop_fetch c ∧ halted c' = halted c ∧ done_ c' = done_ c ∧
  fetch c' = fetch c ∧ decode c' = decode c ∧ exec c' = exec c ∧ wb c' = wb c ∧
  stats c' = stats c ∧
  (mem c' = mem c ∨ mem c' = mem_clear_waiting (mem c)).

Lemma same_pipeline_refl c : same_pipeline c c.
Proof. unfold same_pipeline. split_and!; try done. by left. Qed.

Lemma set_cache_same_pipeline c ca : same_pipeline c (set_cache c ca).
Proof. unfold same_pipeline. split_and!; try done. by left. Qed.

Lemma start_bus_transaction_pipeline b req cs ram j c' :
  (start_bus_transaction b req cs ram).2 !! j = Some c' →
  ∃ c, cs !! j = Some c ∧ same_pipeline c c' ∧ mem c' = mem c.
Proof.
  rewrite start_bus_transaction_snoop. cbn [snd]. intros Hj.
  destruct (snoop_caches_back _ _ _ _ _ _ _ _ Hj) as (c & out' & Hc & ->).
  exists c. split; [done|]. split; [apply set_cache_same_pipeline | done].
Qed.

Lemma complete_transaction_shape b cs ram :
  (complete_transaction b cs ram).1 = cs ∨
  ∃ c c2,
    cs !! Z.to_nat (origin b) = Some c ∧
    (complete_transaction b cs ram).1 = <[Z.to_nat (origin b) := c2]> cs ∧
    same_pipeline c c2.
Proof.
  destruct (decide (0 ≤ origin b < 4)) as [Ho|Ho].
  - destruct (cs !! Z.to_nat (origin b)) as [c|] eqn:Hc.
    + right. pose proof (complete_transaction_unfold b cs ram c Ho Hc) as Heq.
      cbv zeta in Heq. rewrite Heq. cbn [fst].
      eexists c, _. split; [done|]. split; [reflexivity|].
      destruct (m_valid (mem c) && m_waiting (mem c));
        unfold same_pipeline; split_and!; try done; [by right | by left].
    + left. unfold complete_transaction. rewrite Hc.
      by destruct (_ || _).
  - left. unfold complete_transaction, NUM_CORES.
    destruct (Z.ltb_spec (origin b) 0); [done|].
    destruct (Z.geb_spec (origin b) 4); [done|]. lia.
Qed.

Lemma complete_transaction_pipeline b cs ram j c' :
  (complete_transaction b cs ram).1 !! j = Some c' →
  ∃ c, cs !! j = Some c ∧ same_pipeline c c'.
Proof.
  destruct (complete_transaction_shape b cs ram) as [->|(c & c2 & Hc & -> & Hsp)].
  - intros Hj. exists c'. split; [done | apply same_pipeline_refl].
  - assert (Hlen : (Z.to_nat (origin b) < length cs)%nat) by (by eapply lookup_lt_Some).
    destruct (decide (j = Z.to_nat (origin b))) as [->|Hne].
    + rewrite list_lookup_insert_eq by done. intros Hj. apply (inj Some) in Hj. subst c'.
      by exists c.
    + rewrite list_lookup_insert_ne by done. intros Hj. exists c'.
      split; [done | apply same_pipeline_refl].
Qed.

Lemma advance_bus_pipeline s j c' :
  cores (advance_bus s) !! j = Some c' →
  ∃ c, cores s !! j = Some c ∧ same_pipeline c c'.
Proof.
  unfold advance_bus.
  destruct ((phase (bus s) =? 1) && (delay (bus s) >? 0));
    [intros Hj; exists c'; split; [done | apply same_pipeline_refl]|].
  destruct ((phase (bus s) =? 2) && bool_decide (bus_cmd_out (bus s) = BUS_FLUSH));
    [|intros Hj; exists c'; split; [done | apply same_pipeline_refl]].
  cbn [index set_index].
  destruct (index (bus s) + 1 >=? BLOCK_WORDS);
    [|intros Hj; exists c'; split; [done | apply same_pipeline_refl]].
  pose proof (complete_transaction_pipeline (set_index (bus s) (index (bus s) + 1))
                (cores s) (main_mem s) j c') as Hc.
  destruct (complete_transaction _ _ _) as [cs m]. exact Hc.
Qed.

Lemma bus_phase_pipeline s j c' :
  cores (bus_phase s) !! j = Some c' →
  ∃ c, cores s !! j = Some c ∧ same_pipeline c c'.
Proof.
  unfold bus_phase. intros Hj.
  apply advance_bus_pipeline in Hj as (c1 & Hc1 & Hsp1). cbn [cores set_bus] in Hc1.
  assert (H1 : ∃ c, cores s !! j = Some c ∧ same_pipeline c c1 ∧ mem c1 = mem c).
  { revert Hc1. destruct (arbitrate_cases s) as [->|(w & req & _ & _ & _ & ->)].
    - intros Hj. exists c1. split; [done|]. split; [apply same_pipeline_refl | done].
    - apply start_bus_transaction_pipeline. }
  destruct H1 as (c & Hc & Hsp & Hmem).
  exists c. split; [done|].
  unfold same_pipeline in *.
  destruct Hsp as (A1&A2&A3&A4&A5&A6&A7&A8&A9&A10&A11&A12&A13&A14&A15).
  destruct Hsp1 as (B1&B2&B3&B4&B5&B6&B7&B8&B9&B10&B11&B12&B13&B14&B15).
  split_and!; congruence.
Qed.

Lemma arbitrate_length s :
  length (cores (arbitrate s)) = length (cores s) ∧
  length (requests (arbitrate s)) = length (requests s).
Proof.
  destruct (arbitrate_cases s) as [->|(w & req & _ & _ & _ & ->)]; [done|].
  cbn [cores requests]. rewrite start_bus_transaction_snoop. cbn [snd].
  by rewrite snoop_caches_length, length_insert.
Qed.

Lemma advance_bus_length s :
  length (cores (advance_bus s)) = length (cores s) ∧
  requests (advance_bus s) = requests s.
Proof.
  unfold advance_bus.
  destruct ((phase (bus s) =? 1) && (delay (bus s) >? 0)); [done|].
  destruct ((phase (bus s) =? 2) && bool_decide (bus_cmd_out (bus s) = BUS_FLUSH)); [|done].
  cbn [index set_index].
  destruct (index (bus s) + 1 >=? BLOCK_WORDS); [|done].
  pose proof (complete_transaction_shape (set_index (bus s) (index (bus s) + 1))
                (cores s) (main_mem s)) as Hc.
  destruct (complete_transaction _ _ _) as [cs m]. cbn [cores requests fst] in *.
  destruct Hc as [->|(c & c2 & _ & -> & _)]; [done|]. by rewrite length_insert.
Qed.

Lemma sim_cycle_length s :
  length (cores (sim_cycle s)) = length (cores s) ∧
  length (requests (sim_cycle s)) = length (requests s).
Proof.
  change (cores (sim_cycle s)) with (cores (bus_phase (before_bus s))).
  change (requests (sim_cycle s)) with (requests (bus_phase (before_bus s))).
  unfold bus_phase.
  destruct (advance_bus_length
              (set_bus (arbitrate (before_bus s)) (drive_bus (bus (arbitrate (before_bus s))))))
    as [-> ->].
  cbn [cores requests set_bus].
  destruct (arbitrate_length (before_bus s)) as [-> ->].
  apply (pipeline_phase_length (set_bus s (reset_bus_out (bus s)))).
Qed.

Lemma run_length n s :
  length (cores (run n s)) = length (cores s) ∧
  length (requests (run n s)) = length (requests s).
Proof.
  induction n as [|n [IH1 IH2]]; [done|].
  change (run (S n) s) with (sim_cycle (run n s)).
  destruct (sim_cycle_length (run n s)) as [-> ->]. done.
Qed.

(** Every core of the next state comes from the core of the same index by
    Writeback commit and [advance_core]; the bus then touches only its
    cache and its [waiting] flag. *)
Lemma sim_cycle_core s j c' :
  length (requests s) = length (cores s) →
  cores (sim_cycle s) !! j = Some c' →
  ∃ c r, cores s !! j = Some c ∧ requests s !! j = Some r ∧
    same_pipeline (advance_core (Z.of_nat j) (wb_commit c) r).1 c'.
Proof.
  intros Hlen Hj.
  change (cores (sim_cycle s)) with (cores (bus_phase (before_bus s))) in Hj.
  apply bus_phase_pipeline in Hj as (c1 & Hc1 & Hsp).
  unfold before_bus in Hc1.
  rewrite (proj1 (pipeline_phase_cores _ j)) in Hc1. cbn [cores requests set_bus] in Hc1.
  destruct (cores s !! j) as [c|] eqn:Hc; [|done].
  assert (Hlt : (j < length (requests s))%nat) by (rewrite Hlen; by eapply lookup_lt_Some).
  destruct (lookup_lt_is_Some_2 _ _ Hlt) as [r Hr]. rewrite Hr in Hc1.
  apply (inj Some) in Hc1. subst c1. by exists c, r.
Qed.

Lemma advance_core_regs i c r :
  regs (advance_core i c r).1 =
    if d_valid (decode c) then wrw (regs c) 1 (u32 (i_imm (d_inst (decode c))))
    else regs c.
Proof.
  pose proof (advance_core_stages i c r) as Hs. cbv zeta in Hs.
  destruct Hs as (_ & _ & _ & _ & _ & _ & _ & Hr & _). rewrite Hr.
  pose proof (count_cycle_frame c) as Hcc. cbv zeta in Hcc.
  destruct Hcc as (_&_&Hrg&_&_&_&_&_&_&_&Hd&_).
  pose proof (mem_stage_frame i (count_cycle c) r) as Hfr. cbv zeta in Hfr.
  destruct Hfr as (_&_&Hrg2&_&_&_&_&_&_&_&Hd2&_).
  match goal with
  | |- regs (do_core (decode_stage ?c0 ?ne ?e)) = _ =>
      pose proof (decode_stage_frame c0 ne e) as Hdf
  end.
  cbv zeta in Hdf.
  destruct Hdf as (_&_&_&_&_&_&_&_&_&_&_&_&_&_&_&_&_&_&_&Hrg3).
  by rewrite Hrg3, Hd2, Hd, Hrg2, Hrg.
Qed.

Lemma dest_reg_reserved inst : dest_reg inst = -1 ∨ 2 ≤ dest_reg inst.
Proof.
  unfold dest_reg.
  destruct (_ || _); [by left|]. destruct (_ && _); [by left|].
  destruct (_ =? OP_JAL); [right; lia|].
  destruct (Z.leb_spec (i_rd inst) 1); [by left | right; lia].
Qed.

Lemma wb_commit_reserved c k :
  k = 0 ∨ k = 1 → rdw (regs (wb_commit c)) k = rdw (regs c) k.
Proof.
  intros Hk. destruct (w_valid (wb c)) eqn:Hv; [|by rewrite wb_commit_invalid].
  rewrite wb_commit_regs by done.
  destruct (Z.geb_spec (dest_reg (w_inst (wb c))) 0); [|done].
  apply rdw_wrw_ne. destruct (dest_reg_reserved (w_inst (wb c))); lia.
Qed.

(** The immediate of the instruction that occupied Decode in the latest of
    the cycles [0 .. n-1] in which Decode was occupied, as [regs[1]] holds
    it; 0 when there is none. *)
Fixpoint last_decode_imm (n : nat) (s0 : Sim) (j : nat) : Z :=
  match n with
  | O => 0
  | S n =>
      let c := core_at j (run n s0) in
      if d_valid (decode c) then u32 (i_imm (d_inst (decode c)))
      else last_decode_imm n s0 j
  end.

(** C8 (as the code has it).  In every state reached from reset, in
    every core: R0 is 0; R1 is the sign-extended immediate (as a 32-bit
    word) of the instruction that was in the Decode latch during the latest
    completed cycle in which Decode was occupied, and 0 before any: the
    write of R1 happens when Decode evaluates the instruction, one cycle
    after the instruction has entered the latch; and [dest_reg] is never 0
    or 1, so no Writeback commit writes R0 or R1. *)
Theorem reserved_registers (im0 im1 im2 im3 memin : list Z) (n j : nat) (c : Core) :
  let s0 := init_sim im0 im1 im2 im3 memin in
  cores (run n s0) !! j = Some c →
  rdw (regs c) 0 = 0 ∧
  rdw (regs c) 1 = last_decode_imm n s0 j ∧
  (∀ inst, dest_reg inst ≠ 0 ∧ dest_reg inst ≠ 1) ∧
  (∀ k, k = 0 ∨ k = 1 → rdw (regs (wb_commit c)) k = rdw (regs c) k).
Proof.
  intros s0. revert c. induction n as [|n IH]; intros c Hc.
  - assert (Hinit : ∃ i l, c = init_core i l).
    { destruct j as [|[|[|[|j]]]]; simpl in Hc; try done; injection Hc as <-; eauto. }
    destruct Hinit as (i & l & ->). cbn [regs init_core last_decode_imm].
    split_and!.
    + by rewrite rdw_wrw_ne, rdw_wrw_eq.
    + by rewrite rdw_wrw_eq.
    + intros inst. destruct (dest_reg_reserved inst); lia.
    + apply wb_commit_reserved.
  - change (run (S n) s0) with (sim_cycle (run n s0)) in Hc.
    apply sim_cycle_core in Hc as (c0 & r & Hc0 & Hr & Hsp);
      [|by destruct (run_length n s0) as [-> ->]].
    destruct (IH c0 Hc0) as (IH0 & IH1 & _).
    destruct Hsp as (_ & _ & Hrg & _).
    pose proof (wb_commit_frame c0) as Hwb. cbv zeta in Hwb.
    destruct Hwb as (_&_&_&_&_&_&_&_&Hd&_).
    assert (Hlast : last_decode_imm (S n) s0 j =
      if d_valid (decode c0) then u32 (i_imm (d_inst (decode c0)))
      else last_decode_imm n s0 j).
    { cbn [last_decode_imm]. unfold core_at. by rewrite Hc0. }
    rewrite Hlast.
    split; [|split; [|split;
      [intros inst; destruct (dest_reg_reserved inst); lia | apply wb_commit_reserved]]];
      rewrite Hrg, advance_core_regs, Hd.
    + destruct (d_valid (decode c0)); [rewrite rdw_wrw_ne by done|];
        (rewrite wb_commit_reserved by (by left); done).
    + destruct (d_valid (decode c0)); [by rewrite rdw_wrw_eq|].
      by rewrite wb_commit_reserved by (by right).
Qed.

Lemma reserved_registers_witness :
  rdw (regs (core_at 0 (run 5 delay_slot_example))) 0 = 0 ∧
  rdw (regs (core_at 0 (run 5 delay_slot_example))) 1
    = last_decode_imm 5 delay_slot_example 0.
Proof.
  destruct (reserved_registers [252706826; 252706836] [335544320] [335544320] [335544320] []
              5 0 (core_at 0 (run 5 delay_slot_example))) as (H0 & H1 & _);
    [apply (core_at_lookup 0 (run 5 delay_slot_example)); by vm_compute|].
  split; [exact H0 | exact H1].
Defined.

(** C8 as stated fails: after the first cycle of a core whose first
    instruction has immediate 5, that instruction is in the Decode latch
    while R1 still holds 0. *)
Lemma r1_lags_decode_counterexample :
  let c := core_at 0 (run 1 (init_sim [5] [335544320] [335544320] [335544320] [])) in
  d_valid (decode c) = true ∧ i_imm (d_inst (decode c)) = 5 ∧ rdw (regs c) 1 = 0 ∧
  rdw (regs c) 1 ≠ u32 (i_imm (d_inst (decode c))).
Proof. by vm_compute. Qed.

(** * Further properties of the code *)

(** ** Decoder *)

Lemma land_mask_mod x k m : 0 ≤ k → m = Z.ones k → Z.land x m = x mod 2 ^ k.
Proof. intros Hk ->. by apply Z.land_ones. Qed.

Lemma sign_extend_12_table :
  forallb (λ v, sign_extend v 12 =? (if v <? 2048 then v else v - 4096)) (seqZ 0 4096) = true.
Proof. by vm_compute. Qed.

Lemma sign_extend_12 raw :
  sign_extend (Z.land raw 4095) 12 =
    if raw mod 4096 <? 2048 then raw mod 4096 else raw mod 4096 - 4096.
Proof.
  rewrite (land_mask_mod raw 12 4095) by done. change (2 ^ 12) with 4096.
  pose proof (Z.mod_pos_bound raw 4096) as Hb.
  pose proof sign_extend_12_table as Ht. rewrite forallb_forall in Ht.
  apply Z.eqb_eq, Ht, list_elem_of_In, elem_of_seqZ. lia.
Qed.

(** X1.  Decoding a 32-bit word gives an opcode below 256, register
    indices below 16 and an immediate in [-2048, 2047], keeps the word and
    the pc, and loses nothing: the word is rebuilt from the fields, with the
    immediate taken modulo 4096. *)
Theorem decode_inst_fields (raw pc : Z) (Hraw : 0 ≤ raw < 2 ^ 32) :
  let inst := decode_inst raw pc in
  0 ≤ i_op inst < 256 ∧ 0 ≤ i_rd inst < 16 ∧ 0 ≤ i_rs inst < 16 ∧ 0 ≤ i_rt inst < 16 ∧
  -2048 ≤ i_imm inst < 2048 ∧ i_pc inst = pc ∧ i_raw inst = raw ∧
  raw = i_op inst * 2 ^ 24 + i_rd inst * 2 ^ 20 + i_rs inst * 2 ^ 16
        + i_rt inst * 2 ^ 12 + i_imm inst mod 4096.
Proof.
  unfold decode_inst. cbn [i_op i_rd i_rs i_rt i_imm i_pc i_raw].
  rewrite sign_extend_12.
  rewrite (land_mask_mod _ 8 255), !(land_mask_mod _ 4 15), !Z.shiftr_div_pow2 by done.
  change (2 ^ 8) with 256. change (2 ^ 4) with 16.
  change (2 ^ 24) with 16777216. change (2 ^ 20) with 1048576.
  change (2 ^ 16) with 65536. change (2 ^ 12) with 4096.
  change (2 ^ 32) with 4294967296 in Hraw.
  assert (Himm : (if raw mod 4096 <? 2048 then raw mod 4096 else raw mod 4096 - 4096)
                   mod 4096 = raw mod 4096).
  { pose proof (Z.mod_pos_bound raw 4096).
    destruct (Z.ltb_spec (raw mod 4096) 2048).
    - apply Z.mod_small. lia.
    - replace (raw mod 4096 - 4096) with (raw mod 4096 + (-1) * 4096) by lia.
      rewrite Z.mod_add by lia. apply Z.mod_small. lia. }
  rewrite Himm.
  split; [apply Z.mod_pos_bound; lia|].
  do 3 (split; [apply Z.mod_pos_bound; lia|]).
  split; [pose proof (Z.mod_pos_bound raw 4096);
          destruct (Z.ltb_spec (raw mod 4096) 2048); lia|].
  split; [done|]. split; [done|].
  assert (H1 : raw / 16777216 = (raw / 1048576) / 16)
    by (by rewrite Z.div_div by lia).
  assert (H2 : raw / 1048576 = (raw / 65536) / 16)
    by (by rewrite Z.div_div by lia).
  assert (H3 : raw / 65536 = (raw / 4096) / 16)
    by (by rewrite Z.div_div by lia).
  assert (H4 : raw / 16777216 < 256) by (apply Z.div_lt_upper_bound; lia).
  assert (H5 : 0 ≤ raw / 16777216) by (apply Z.div_pos; lia).
  rewrite (Z.mod_small (raw / 16777216)) by lia.
  pose proof (Z.div_mod raw 4096).
  pose proof (Z.div_mod (raw / 4096) 16).
  pose proof (Z.div_mod (raw / 65536) 16).
  pose proof (Z.div_mod (raw / 1048576) 16).
  lia.
Qed.

Lemma decode_inst_fields_witness :
  let inst := decode_inst 270536703 3 in
  0 ≤ i_op inst < 256 ∧ 0 ≤ i_rd inst < 16 ∧ 0 ≤ i_rs inst < 16 ∧ 0 ≤ i_rt inst < 16 ∧
  -2048 ≤ i_imm inst < 2048 ∧ i_pc inst = 3 ∧ i_raw inst = 270536703 ∧
  270536703 = i_op inst * 2 ^ 24 + i_rd inst * 2 ^ 20 + i_rs inst * 2 ^ 16
              + i_rt inst * 2 ^ 12 + i_imm inst mod 4096.
Proof. apply (decode_inst_fields 270536703 3). lia. Defined.

(** X2.  The hazard check never leaves its three-entry [srcs] array and
    never names a register outside the file: [source_regs] of a decoded
    word lists at most three registers, each below 16; and the Writeback
    target [dest_reg] of a decoded word is -1 or a register from 2 to 15. *)
Theorem decoded_register_bounds (raw pc : Z) :
  let inst := decode_inst raw pc in
  (length (source_regs inst) ≤ 3)%nat ∧
  Forall (λ r, 0 ≤ r < REG_COUNT) (source_regs inst) ∧
  (dest_reg inst = -1 ∨ 2 ≤ dest_reg inst < REG_COUNT).
Proof.
  unfold decode_inst, REG_COUNT.
  assert (Hr : ∀ x, 0 ≤ Z.land x 15 < 16).
  { intros x. rewrite (land_mask_mod x 4 15) by done. apply Z.mod_pos_bound. lia. }
  split_and!.
  - unfold source_regs. cbn [i_op i_rd i_rs i_rt].
    destruct (is_alu_or_lw _); [simpl; lia|]. destruct (_ =? OP_SW); [simpl; lia|].
    destruct (is_branch _); [simpl; lia|]. destruct (_ =? OP_JAL); simpl; lia.
  - unfold source_regs. cbn [i_op i_rd i_rs i_rt].
    repeat match goal with |- context [if ?b then _ else _] => destruct b end;
      repeat (apply Forall_cons_2; [apply Hr|]); apply Forall_nil_2.
  - match goal with |- context [dest_reg ?i] => destruct (dest_reg_reserved i) as [H|H] end;
      [by left|right]. split; [done|].
    revert H. unfold dest_reg. cbn [i_op i_rd].
    destruct (_ || _); [lia|]. destruct (_ && _); [lia|].
    destruct (_ =? OP_JAL); [lia|].
    destruct (_ <=? 1); [lia|]. specialize (Hr (Z.shiftr raw 20)). lia.
Qed.

(** ** ALU and compare *)

Lemma shift_amount rt : Z.land (u32 rt) 31 = rt mod 32.
Proof.
  rewrite (land_mask_mod _ 5 31) by done. unfold u32.
  apply Z.mod_mod_divide. by exists (2 ^ 27).
Qed.

Lemma i32_u32 x : - 2 ^ 31 ≤ x < 2 ^ 31 → i32 (u32 x) = x.
Proof.
  unfold i32, u32. change (2 ^ 32) with 4294967296. change (2 ^ 31) with 2147483648.
  intros Hx. rewrite Z.mod_mod by lia.
  destruct (Z.le_gt_cases 0 x).
  - rewrite Z.mod_small by lia. destruct (Z.ltb_spec x 2147483648); lia.
  - rewrite <- (Z.mod_add x 1) by lia. rewrite Z.mod_small by lia.
    destruct (Z.ltb_spec (x + 1 * 4294967296) 2147483648); lia.
Qed.

Definition with_op (op : Z) : Instruction :=
  {| i_raw := 0; i_op := op; i_rd := 0; i_rs := 0; i_rt := 0; i_imm := 0; i_pc := 0 |}.

(** X3.  The ALU on [int32_t] operands: every result is a 32-bit word;
    ADD, SUB and MUL are the exact result modulo 2^32; the three shifts
    use only the low five bits of [rt]: SLL is [rs * 2^(rt mod 32)] modulo
    2^32, SRL divides the unsigned value of [rs], and SRA is the floor
    division of the signed value, so it keeps the sign. *)
Theorem alu_arithmetic (inst : Instruction) (rs rt : Z)
    (Hrs : - 2 ^ 31 ≤ rs < 2 ^ 31) :
  let sh := rt mod 32 in
  0 ≤ perform_alu inst rs rt < 2 ^ 32 ∧
  (i_op inst = OP_ADD → perform_alu inst rs rt = (rs + rt) mod 2 ^ 32) ∧
  (i_op inst = OP_SUB → perform_alu inst rs rt = (rs - rt) mod 2 ^ 32) ∧
  (i_op inst = OP_MUL → perform_alu inst rs rt = (rs * rt) mod 2 ^ 32) ∧
  (i_op inst = OP_SLL → perform_alu inst rs rt = (rs * 2 ^ sh) mod 2 ^ 32) ∧
  (i_op inst = OP_SRL → perform_alu inst rs rt = (rs mod 2 ^ 32) / 2 ^ sh) ∧
  (i_op inst = OP_SRA → i32 (perform_alu inst rs rt) = rs / 2 ^ sh).
Proof.
  intros sh.
  assert (Hsh : 0 ≤ sh < 32) by (apply Z.mod_pos_bound; lia).
  assert (Hpow : 0 < 2 ^ sh) by (apply Z.pow_pos_nonneg; lia).
  split.
  { unfold perform_alu.
    repeat match goal with |- context [if ?b then _ else _] => destruct b end;
      try (apply Z.mod_pos_bound; lia). lia. }
  unfold perform_alu. rewrite shift_amount. fold sh.
  split_and!; intros ->; cbn [Z.eqb OP_ADD OP_SUB OP_AND OP_OR OP_XOR OP_MUL OP_SLL
                              OP_SRA OP_SRL Pos.eqb]; unfold u32; try done.
  - rewrite Z.shiftl_mul_pow2 by lia. by rewrite Z.mul_mod_idemp_l by lia.
  - rewrite Z.shiftr_div_pow2 by lia. apply Z.mod_small.
    pose proof (Z.mod_pos_bound rs (2 ^ 32)).
    split; [apply Z.div_pos; lia|].
    apply Z.div_lt_upper_bound; [lia|]. nia.
  - rewrite Z.shiftr_div_pow2 by lia. apply i32_u32.
    split.
    + apply Z.div_le_lower_bound; [lia|]. nia.
    + apply Z.div_lt_upper_bound; [lia|]. nia.
Qed.

Lemma alu_arithmetic_witness :
  i32 (perform_alu (with_op OP_SRA) (-8) 33) = -8 / 2 ^ (33 mod 32).
Proof.
  destruct (alu_arithmetic (with_op OP_SRA) (-8) 33) as (_ & _ & _ & _ & _ & _ & H); [lia|].
  by apply H.
Defined.

(** X4.  Branch conditions: BNE is the negation of BEQ, BGE of BLT and
    BLE of BGT on the same operands, BGT is BLT with the operands swapped,
    and an instruction whose opcode is not one of the six branches is never
    taken. *)
Theorem compare_pairs (rs rt : Z) :
  perform_compare (with_op OP_BNE) rs rt = negb (perform_compare (with_op OP_BEQ) rs rt) ∧
  perform_compare (with_op OP_BGE) rs rt = negb (perform_compare (with_op OP_BLT) rs rt) ∧
  perform_compare (with_op OP_BLE) rs rt = negb (perform_compare (with_op OP_BGT) rs rt) ∧
  perform_compare (with_op OP_BGT) rs rt = perform_compare (with_op OP_BLT) rt rs ∧
  (∀ inst, ¬ (OP_BEQ ≤ i_op inst ≤ OP_BGE) → perform_compare inst rs rt = false).
Proof.
  unfold perform_compare. cbn.
  split_and!; try done.
  - destruct (Z.geb_spec rs rt), (Z.ltb_spec rs rt); (done || lia).
  - destruct (Z.leb_spec rs rt), (Z.gtb_spec rs rt); (done || lia).
  - destruct (Z.gtb_spec rs rt), (Z.ltb_spec rt rs); (done || lia).
  - intros inst Hop. unfold OP_BEQ, OP_BNE, OP_BLT, OP_BGT, OP_BLE, OP_BGE in *.
    repeat match goal with
           | |- context [?x =? ?k] => destruct (Z.eqb_spec x k); [lia|]
           end.
    done.
Qed.

(** ** Cache geometry and data *)

(** X5.  The address split is a bijection: a word address below 2^20 is
    its line base plus its offset, its data word lies inside the 512-word
    data array and its index inside the 64 lines; and the tag, index and
    offset of [line_base_addr t i + o] are [t], [i] and [o]. *)
Theorem address_round_trip (a t i o : Z)
    (Ha : 0 ≤ a < 2 ^ 20) (Ht : 0 ≤ t < 2 ^ 11) (Hi : 0 ≤ i < 64) (Ho : 0 ≤ o < 8) :
  line_base_addr (cache_tag a) (cache_index a) + Z.land a OFFSET_MASK = a ∧
  0 ≤ cache_index a < CACHE_LINES ∧
  0 ≤ cache_index a * BLOCK_WORDS + Z.land a OFFSET_MASK < CACHE_WORDS ∧
  0 ≤ line_base_addr t i + o < 2 ^ 20 ∧
  cache_tag (line_base_addr t i + o) = t ∧
  cache_index (line_base_addr t i + o) = i ∧
  Z.land (line_base_addr t i + o) OFFSET_MASK = o.
Proof.
  change (2 ^ 11) with 2048 in Ht. change (2 ^ 20) with 1048576 in *.
  pose proof (cache_tag_range a) as Htr. pose proof (cache_index_range a) as Hir.
  rewrite !line_base_addr_sum by done.
  rewrite !offset_mod. unfold CACHE_LINES, BLOCK_WORDS, CACHE_WORDS.
  pose proof (Z.mod_pos_bound a 8).
  split_and!; try lia.
  - rewrite cache_tag_div, cache_index_div.
    assert (0 ≤ a / 512 < 2048) by (split; [apply Z.div_pos | apply Z.div_lt_upper_bound]; lia).
    rewrite (Z.mod_small (a / 512)) by lia.
    assert (a / 512 = a / 8 / 64) by (by rewrite Z.div_div by lia).
    pose proof (Z.div_mod a 8). pose proof (Z.div_mod (a / 8) 64). lia.
  - rewrite cache_tag_div.
    replace (t * 512 + i * 8 + o) with (i * 8 + o + t * 512) by lia.
    rewrite Z.div_add by lia. rewrite (Z.div_small (i * 8 + o)) by lia.
    apply Z.mod_small. lia.
  - rewrite cache_index_div.
    replace (t * 512 + i * 8 + o) with (o + (t * 64 + i) * 8) by lia.
    rewrite Z.div_add by lia. rewrite (Z.div_small o) by lia.
    rewrite Z.add_0_l, Z.add_comm, Z.mod_add by lia. apply Z.mod_small. lia.
  - replace (t * 512 + i * 8 + o) with (o + (t * 64 + i) * 8) by lia.
    rewrite Z.mod_add by lia. apply Z.mod_small. lia.
Qed.

Lemma address_round_trip_witness :
  line_base_addr (cache_tag 74565) (cache_index 74565) + Z.land 74565 OFFSET_MASK = 74565 ∧
  cache_tag (line_base_addr 145 40 + 5) = 145.
Proof.
  destruct (address_round_trip 74565 145 40 5) as (H1 & _ & _ & _ & H2 & _); [lia..|].
  split; [exact H1 | exact H2].
Defined.

Lemma word_index_inj a a' :
  cache_index a * BLOCK_WORDS + Z.land a OFFSET_MASK
    = cache_index a' * BLOCK_WORDS + Z.land a' OFFSET_MASK ↔
  cache_index a = cache_index a' ∧ Z.land a OFFSET_MASK = Z.land a' OFFSET_MASK.
Proof.
  rewrite !offset_mod. unfold BLOCK_WORDS.
  pose proof (Z.mod_pos_bound a 8). pose proof (Z.mod_pos_bound a' 8). lia.
Qed.

(** X6.  A word written by [cache_write] is the word [cache_read] returns
    for the same address; the write changes no other word of the data
    array and no tag or state, so it changes no lookup. *)
Theorem cache_write_read (c : Cache) (a v : Z) :
  cache_read (cache_write c a v) a = v ∧
  (∀ a', (cache_index a' ≠ cache_index a ∨ Z.land a' OFFSET_MASK ≠ Z.land a OFFSET_MASK) →
     cache_read (cache_write c a v) a' = cache_read c a') ∧
  (∀ a' st, cache_lookup (cache_write c a v) a' st = cache_lookup c a' st) ∧
  (∀ a', line_state (cache_write c a v) a' = line_state c a').
Proof.
  unfold cache_read, cache_write. cbn [c_data c_tag c_state].
  split_and!; try done.
  - apply rdw_wrw_eq.
  - intros a' Hne. apply rdw_wrw_ne. rewrite word_index_inj. naive_solver.
Qed.

(** X7.  [writeback_line] leaves memory alone unless the line is in M;
    for a line in M (with an 11-bit tag, at an index below 64) it copies
    the line's 8 words to the line's base address and changes no other
    word of memory. *)
Theorem writeback_line_effect (c : Cache) (idx : Z) (ram : gmap Z Z)
    (Hidx : 0 ≤ idx < 64) (Htag : 0 ≤ rdw (c_tag c) idx < 2 ^ 11) :
  let base := line_base_addr (rdw (c_tag c) idx) idx in
  (rds (c_state c) idx ≠ MESI_M → writeback_line c idx ram = ram) ∧
  (rds (c_state c) idx = MESI_M →
   (∀ i, 0 ≤ i < 8 →
      rdw (writeback_line c idx ram) (base + i) = rdw (c_data c) (idx * 8 + i)) ∧
   (∀ k, ¬ (base ≤ k < base + 8) → rdw (writeback_line c idx ram) k = rdw ram k)).
Proof.
  intros base. change (2 ^ 11) with 2048 in Htag.
  split; [apply writeback_line_clean|].
  intros HM. rewrite writeback_line_dirty by done. fold base.
  assert (Hb : base = rdw (c_tag c) idx * 512 + idx * 8)
    by (by apply line_base_addr_sum).
  assert (Hsmall : ∀ i, 0 ≤ i < 8 →
    Z.land (u32 (base + i)) (MAIN_MEM_WORDS - 1) = base + i).
  { intros i Hi. rewrite mem_addr_wrap. apply Z.mod_small.
    change (2 ^ 20) with 1048576. lia. }
  split.
  - intros i Hi. rewrite <- (Hsmall i) by done.
    apply (copy_block_in (λ i, Z.land (u32 (base + i)) (MAIN_MEM_WORDS - 1))
             (λ i, rdw (c_data c) (idx * BLOCK_WORDS + i))); [|done].
    intros j Hj. rewrite !Hsmall by done. lia.
  - intros k Hk. apply copy_block_out. intros i Hi. rewrite Hsmall by done.
    unfold BLOCK_WORDS in Hi. lia.
Qed.

Lemma writeback_line_effect_witness :
  let c := cache (core_holding 1 1000 MESI_M (wrw ∅ 0 77)) in
  rdw (writeback_line c (cache_index 1000) ∅)
      (line_base_addr (rdw (c_tag c) (cache_index 1000)) (cache_index 1000) + 0) = 77.
Proof.
  intros c.
  destruct (writeback_line_effect c (cache_index 1000) ∅) as [_ H];
    [by vm_compute | by vm_compute |].
  destruct H as [H _]; [by vm_compute|].
  rewrite H by lia. by vm_compute.
Defined.

(** ** Input and output images *)

(** A text file of hexadecimal words is modelled by the list of its
    words, one per line. *)

(** The scan [while (last >= 0 && mem[last] == 0) last--] of
    [write_trimmed_mem] (283-285), started at [last = n - 1]: the value of
    [last] after the loop. *)
Fixpoint last_nonzero (m : gmap Z Z) (n : nat) : Z :=
  match n with
  | O => -1
  | S k => if rdw m (Z.of_nat k) =? 0 then last_nonzero m k else Z.of_nat k
  end.

(** The lines printed by [write_trimmed_mem]. *)
Definition write_trimmed_mem (m : gmap Z Z) (size : Z) : list Z :=
  rdw m <$> seqZ 0 (last_nonzero m (Z.to_nat size) + 1).

(** The MESI [#define]s, and a line of [tsram] (905). *)
Definition mesi_code (s : mesi) : Z :=
  match s with MESI_I => 0 | MESI_S => 1 | MESI_E => 2 | MESI_M => 3 end.

Definition tsram_word (c : Cache) (j : Z) : Z :=
  Z.lor (u32 (Z.shiftl (mesi_code (rds (c_state c) j)) 12)) (Z.land (rdw (c_tag c) j) 4095).

Lemma lookup_indexed (f : Z → Z) (l : list Z) (off : nat) (k : Z) :
  (list_to_map (imap (λ i w, (Z.of_nat (off + i), f w)) l) : gmap Z Z) !! k =
    if decide (Z.of_nat off ≤ k < Z.of_nat (off + length l))
    then f <$> l !! (Z.to_nat k - off)%nat else None.
Proof.
  revert off. induction l as [|x l IH]; intros off.
  - simpl. rewrite lookup_empty. case_decide; [lia|done].
  - rewrite imap_cons. cbn [list_to_map foldr curry].
    destruct (decide (k = Z.of_nat off)) as [->|Hne].
    + rewrite Nat.add_0_r, lookup_insert_eq.
      rewrite decide_True by (simpl; lia).
      by replace (Z.to_nat (Z.of_nat off) - off)%nat with 0%nat by lia.
    + rewrite Nat.add_0_r, lookup_insert_ne by done.
      rewrite (imap_ext _ (λ i w, (Z.of_nat (S off + i), f w)))
        by (intros i y _; simpl; do 2 f_equal; lia).
      rewrite IH. cbn [length].
      destruct (decide (Z.of_nat off ≤ k < Z.of_nat (off + S (length l)))) as [Hin|Hout].
      * rewrite decide_True by lia.
        replace (Z.to_nat k - off)%nat with (S (Z.to_nat k - S off)) by lia. done.
      * rewrite decide_False by lia. done.
Qed.

(** The words of a loaded array. *)
Lemma load_words_spec (size : Z) (lines : list Z) (k : Z) :
  rdw (load_words size lines) k =
    if decide (0 ≤ k < size ∧ k < Z.of_nat (length lines))
    then u32 (nth (Z.to_nat k) lines 0) else 0.
Proof.
  unfold load_words, rdw.
  pose proof (lookup_indexed u32 (take (Z.to_nat size) lines) 0 k) as H.
  cbn [Nat.add] in H. rewrite H. clear H.
  rewrite length_take.
  destruct (decide (0 ≤ k < size ∧ k < Z.of_nat (length lines))) as [Hin|Hout].
  - rewrite decide_True by lia. rewrite Nat.sub_0_r, lookup_take_lt by lia.
    destruct (lines !! Z.to_nat k) as [x|] eqn:Hx.
    + simpl. by erewrite nth_lookup_Some.
    + apply lookup_ge_None in Hx. lia.
  - destruct (decide _) as [Hin'|]; [|done]. lia.
Qed.

(** X8.  [load_imem] / [load_mem]: word [k] of the loaded array is line
    [k] of the file (as a 32-bit word) when the file has such a line and
    [k] is below the array size; every other word is 0, so lines beyond the
    size are ignored and a short file is padded with zeros. *)
Theorem load_words_lookup (size : Z) (lines : list Z) (k : Z) :
  rdw (load_words size lines) k =
    if decide (0 ≤ k < size ∧ k < Z.of_nat (length lines))
    then u32 (nth (Z.to_nat k) lines 0) else 0.
Proof. exact (load_words_spec size lines k). Qed.

Lemma last_nonzero_spec (m : gmap Z Z) (n : nat) :
  -1 ≤ last_nonzero m n < Z.of_nat n ∧
  (∀ i, last_nonzero m n < i < Z.of_nat n → rdw m i = 0) ∧
  (0 ≤ last_nonzero m n → rdw m (last_nonzero m n) ≠ 0).
Proof.
  induction n as [|n (IH1 & IH2 & IH3)].
  - simpl. split; [lia|]. split; [intros; lia | lia].
  - cbn [last_nonzero]. destruct (Z.eqb_spec (rdw m (Z.of_nat n)) 0) as [H0|H0].
    + split; [lia|]. split; [|done].
      intros i Hi. destruct (decide (i = Z.of_nat n)) as [->|]; [done|]. apply IH2. lia.
    + split; [lia|]. split; [intros; lia | done].
Qed.

(** X9.  [write_trimmed_mem] prints a prefix of the memory: line [i] is
    word [i]; every word it leaves out is 0; when it prints anything the
    last line is not 0; and loading the printed lines back gives the same
    words below [size], when memory holds 32-bit words. *)
Theorem write_trimmed_mem_round_trip (m : gmap Z Z) (size : Z) (Hsize : 0 ≤ size) :
  let out := write_trimmed_mem m size in
  Z.of_nat (length out) ≤ size ∧
  (∀ i, 0 ≤ i < Z.of_nat (length out) → out !! Z.to_nat i = Some (rdw m i)) ∧
  (∀ i, Z.of_nat (length out) ≤ i < size → rdw m i = 0) ∧
  (out ≠ [] → rdw m (Z.of_nat (length out) - 1) ≠ 0) ∧
  ((∀ i, 0 ≤ rdw m i < 2 ^ 32) →
   ∀ i, 0 ≤ i < size → rdw (load_words size out) i = rdw m i).
Proof.
  intros out.
  destruct (last_nonzero_spec m (Z.to_nat size)) as (Hr & Hz & Hnz).
  set (last := last_nonzero m (Z.to_nat size)) in *.
  assert (Hlen : Z.of_nat (length out) = last + 1).
  { unfold out, write_trimmed_mem. fold last. rewrite length_fmap, length_seqZ. lia. }
  assert (Hlook : ∀ i, 0 ≤ i < Z.of_nat (length out) → out !! Z.to_nat i = Some (rdw m i)).
  { intros i Hi. unfold out, write_trimmed_mem. fold last.
    rewrite list_lookup_fmap, (lookup_seqZ_lt _ _ (Z.to_nat i)) by lia.
    simpl. f_equal. f_equal. lia. }
  split; [lia|]. split; [done|]. split; [intros i Hi; apply Hz; lia|].
  split.
  { intros Hne. rewrite Hlen. replace (last + 1 - 1) with last by lia.
    apply Hnz. destruct out; [done|]. simpl in Hlen. lia. }
  intros Hword i Hi. rewrite load_words_spec.
  destruct (decide (0 ≤ i < size ∧ i < Z.of_nat (length out))) as [[_ Hin]|Hout].
  - erewrite nth_lookup_Some by (apply Hlook; lia).
    unfold u32. apply Z.mod_small, Hword.
  - symmetry. apply Hz. lia.
Qed.

Lemma write_trimmed_mem_round_trip_witness :
  write_trimmed_mem (wrw (wrw ∅ 1 7) 4 0) 6 = [0; 7] ∧
  rdw (load_words 6 (write_trimmed_mem (wrw (wrw ∅ 1 7) 4 0) 6)) 1 = 7.
Proof.
  split; [by vm_compute|].
  destruct (write_trimmed_mem_round_trip (wrw (wrw ∅ 1 7) 4 0) 6) as (_ & _ & _ & _ & H);
    [lia|].
  rewrite H; [by vm_compute | | lia].
  intros i. unfold rdw, wrw.
  destruct (decide (i = 4)) as [->|]; [by rewrite lookup_insert_eq|].
  rewrite lookup_insert_ne by done.
  destruct (decide (i = 1)) as [->|]; [by rewrite lookup_insert_eq|].
  by rewrite lookup_insert_ne, lookup_empty by done.
Defined.

(** The state code and a 12-bit tag packed into one word. *)
Lemma state_tag_word (code tag : Z) :
  0 ≤ code < 4 → 0 ≤ tag < 4096 →
  Z.shiftr (Z.lor (u32 (Z.shiftl code 12)) (Z.land tag 4095)) 12 = code ∧
  Z.land (Z.lor (u32 (Z.shiftl code 12)) (Z.land tag 4095)) 4095 = tag.
Proof.
  intros Hc Ht.
  assert (Hdisj : Z.land (Z.shiftl code 12) tag = 0).
  { apply Z.bits_inj'. intros n Hn. rewrite Z.land_spec, Z.bits_0.
    destruct (Z.lt_ge_cases n 12) as [Hlt|Hge].
    - by rewrite Z.shiftl_spec_low by lia.
    - assert (Hb : Z.testbit tag n = false).
      { destruct (decide (tag = 0)) as [->|Hne]; [apply Z.bits_0|].
        apply Z.bits_above_log2; [lia|].
        apply Z.lt_le_trans with 12; [|lia].
        apply Z.log2_lt_pow2; [lia|]. change (2 ^ 12) with 4096. lia. }
      rewrite Hb. apply andb_false_r. }
  assert (Hlor : Z.lor (Z.shiftl code 12) tag = code * 4096 + tag).
  { rewrite <- Z.lxor_lor, <- Z.add_nocarry_lxor by done.
    rewrite Z.shiftl_mul_pow2 by lia. done. }
  change 4095 with (Z.ones 12). rewrite (Z.land_ones tag) by lia.
  change (2 ^ 12) with 4096. rewrite (Z.mod_small tag) by lia.
  assert (Hu : u32 (Z.shiftl code 12) = Z.shiftl code 12).
  { unfold u32. apply Z.mod_small. rewrite Z.shiftl_mul_pow2 by lia.
    change (2 ^ 12) with 4096. change (2 ^ 32) with 4294967296. lia. }
  rewrite Hu, Hlor. split.
  - rewrite Z.shiftr_div_pow2 by lia. change (2 ^ 12) with 4096.
    rewrite Z.div_add_l by lia. rewrite (Z.div_small tag) by lia. lia.
  - rewrite Z.land_ones by lia. change (2 ^ 12) with 4096.
    rewrite Z.add_comm, Z.mod_add by lia. apply Z.mod_small. lia.
Qed.

(** X10.  A [tsram] line keeps both fields of a cache line: for a tag
    below 2^12 (stored tags have 11 bits), the state code is the line
    shifted right by 12 and the tag is its low 12 bits. *)
Theorem tsram_word_fields (c : Cache) (j : Z)
    (Htag : 0 ≤ rdw (c_tag c) j < 2 ^ 12) :
  Z.shiftr (tsram_word c j) 12 = mesi_code (rds (c_state c) j) ∧
  Z.land (tsram_word c j) 4095 = rdw (c_tag c) j.
Proof.
  unfold tsram_word. change (2 ^ 12) with 4096 in Htag.
  apply state_tag_word; [|done].
  destruct (rds (c_state c) j); simpl; lia.
Qed.

Lemma tsram_word_fields_witness :
  Z.shiftr (tsram_word (cache (core_holding 1 1000 MESI_M ∅)) (cache_index 1000)) 12 = 3 ∧
  Z.land (tsram_word (cache (core_holding 1 1000 MESI_M ∅)) (cache_index 1000)) 4095 = 1.
Proof.
  destruct (tsram_word_fields (cache (core_holding 1 1000 MESI_M ∅)) (cache_index 1000))
    as [H1 H2]; [by vm_compute|].
  split; [etrans; [exact H1|] | etrans; [exact H2|]]; by vm_compute.
Defined.

(** ** The Memory stage within one cycle of a core *)

Lemma mem_stage_cycles i c req :
  cycles (stats (mo_core (mem_stage i c req))) = cycles (stats c).
Proof.
  unfold mem_stage.
  destruct (m_valid (mem c)); cbn [negb]; [|done].
  destruct (m_waiting (mem c)); [done|].
  destruct ((i_op (m_inst (mem c)) =? OP_LW) || (i_op (m_inst (mem c)) =? OP_SW));
    [|done].
  destruct (cache_lookup _ _ _) as [hit st].
  pose proof (count_lookup_frame (m_miss (mem c)) (hit && bool_decide (st ≠ MESI_I))
                (i_op (m_inst (mem c)) =? OP_LW) c) as Hc1.
  cbv zeta in Hc1.
  set (c1 := if m_miss (mem c) then c else _) in *.
  clearbody c1.
  destruct Hc1 as (_&_&_&_&_&_&_&_&_&_&_&_&_&_&_&<-&_).
  destruct (negb hit || _ || _).
  - by destruct (m_request_queued (mem c1)).
  - destruct (i_op (m_inst (mem c)) =? OP_LW); [done|].
    by destruct (bool_decide (st = MESI_E)).
Qed.

Lemma mem_stage_load_hit i c req :
  m_valid (mem c) = true → m_waiting (mem c) = false →
  i_op (m_inst (mem c)) = OP_LW →
  line_state (cache c) (m_mem_addr (mem c)) ≠ MESI_I →
  let mo := mem_stage i c req in
  mo_req mo = req ∧ mo_mem_advances mo = true ∧
  mo_next_wb mo = {| w_valid := true; w_inst := m_inst (mem c);
                     w_value := cache_read (cache c) (m_mem_addr (mem c)) |} ∧
  m_valid (mo_next_mem mo) = false ∧
  cache (mo_core mo) = cache c ∧
  read_hit (stats (mo_core mo)) =
    (if m_miss (mem c) then read_hit (stats c) else inc (read_hit (stats c))) ∧
  read_miss (stats (mo_core mo)) = read_miss (stats c) ∧
  mem_stall (stats (mo_core mo)) = mem_stall (stats c).
Proof.
  intros Hv Hw Hop Hst. cbv zeta.
  remember (mem_stage i c req) as mo eqn:Hmo. revert Hmo. unfold mem_stage.
  rewrite Hv, Hw, Hop, cache_lookup_line_state.
  destruct (line_state (cache c) (m_mem_addr (mem c))); [done|..];
    simpl; destruct (m_miss (mem c)); by intros ->.
Qed.

Lemma mem_stage_store_hit i c req :
  m_valid (mem c) = true → m_waiting (mem c) = false →
  i_op (m_inst (mem c)) = OP_SW →
  line_state (cache c) (m_mem_addr (mem c)) = MESI_M ∨
  line_state (cache c) (m_mem_addr (mem c)) = MESI_E →
  let mo := mem_stage i c req in
  mo_req mo = req ∧ mo_mem_advances mo = true ∧
  mo_next_wb mo = {| w_valid := true; w_inst := m_inst (mem c); w_value := 0 |} ∧
  m_valid (mo_next_mem mo) = false ∧
  c_data (cache (mo_core mo)) =
    c_data (cache_write (cache c) (m_mem_addr (mem c)) (m_store_data (mem c))) ∧
  c_tag (cache (mo_core mo)) = c_tag (cache c) ∧
  c_state (cache (mo_core mo)) =
    wrs (c_state (cache c)) (cache_index (m_mem_addr (mem c))) MESI_M ∧
  write_hit (stats (mo_core mo)) =
    (if m_miss (mem c) then write_hit (stats c) else inc (write_hit (stats c))) ∧
  write_miss (stats (mo_core mo)) = write_miss (stats c) ∧
  mem_stall (stats (mo_core mo)) = mem_stall (stats c).
Proof.
  intros Hv Hw Hop Hst. cbv zeta.
  assert (Hsame : line_state (cache c) (m_mem_addr (mem c)) = MESI_M →
                  wrs (c_state (cache c)) (cache_index (m_mem_addr (mem c))) MESI_M
                  = c_state (cache c)).
  { intros HM. apply line_state_not_I in HM as [HM _]; [|done].
    unfold wrs, rds in *. apply map_eq. intros k.
    destruct (decide (k = cache_index (m_mem_addr (mem c)))) as [->|];
      [rewrite lookup_insert_eq | by rewrite lookup_insert_ne].
    destruct (c_state (cache c) !! cache_index (m_mem_addr (mem c))) as [[]|];
      simpl in *; congruence. }
  remember (mem_stage i c req) as mo eqn:Hmo. revert Hmo. unfold mem_stage.
  rewrite Hv, Hw, Hop, cache_lookup_line_state.
  destruct Hst as [Hst|Hst]; rewrite Hst; simpl.
  - rewrite Hsame by done. destruct (m_miss (mem c)); by intros ->.
  - destruct (m_miss (mem c)); by intros ->.
Qed.

Lemma mem_stage_miss i c req :
  m_valid (mem c) = true → m_waiting (mem c) = false →
  i_op (m_inst (mem c)) = OP_LW ∨ i_op (m_inst (mem c)) = OP_SW →
  line_state (cache c) (m_mem_addr (mem c)) = MESI_I →
  m_request_queued (mem c) = false →
  let mo := mem_stage i c req in
  let lw := i_op (m_inst (mem c)) =? OP_LW in
  mo_req mo = {| r_active := true; r_cmd := if lw then BUS_RD else BUS_RDX;
                 r_addr := m_mem_addr (mem c) mod 2 ^ 20; r_origin := i |} ∧
  mo_mem_advances mo = false ∧ mo_next_wb mo = wb0 ∧
  mo_next_mem mo = mem_set_miss_waiting (mem c) true true ∧
  cache (mo_core mo) = cache c ∧
  read_miss (stats (mo_core mo)) =
    (if lw && negb (m_miss (mem c)) then inc (read_miss (stats c)) else read_miss (stats c)) ∧
  write_miss (stats (mo_core mo)) =
    (if negb lw && negb (m_miss (mem c)) then inc (write_miss (stats c))
     else write_miss (stats c)) ∧
  read_hit (stats (mo_core mo)) = read_hit (stats c) ∧
  write_hit (stats (mo_core mo)) = write_hit (stats c) ∧
  mem_stall (stats (mo_core mo)) = inc (mem_stall (stats c)).
Proof.
  intros Hv Hw Hop Hst Hq. cbv zeta.
  remember (mem_stage i c req) as mo eqn:Hmo. revert Hmo.
  unfold mem_stage.
  rewrite Hv, Hw, cache_lookup_line_state, Hst.
  change (Z.shiftl 1 20 - 1) with (Z.ones 20). rewrite Z.land_ones by lia.
  destruct Hop as [Hop|Hop]; rewrite Hop; simpl;
    destruct (m_miss (mem c)); simpl; rewrite Hq; by intros ->.
Qed.

Lemma exec_stage_advances c next_mem :
  let eo := exec_stage c next_mem true in
  eo_exec_free_next eo = true ∧
  (e_valid (exec c) = false → eo_next_mem eo = next_mem ∧ eo_next_exec eo = exec c) ∧
  (e_valid (exec c) = true →
   e_valid (eo_next_exec eo) = false ∧
   m_valid (eo_next_mem eo) = true ∧ m_inst (eo_next_mem eo) = e_inst (exec c) ∧
   m_miss (eo_next_mem eo) = false ∧ m_waiting (eo_next_mem eo) = false ∧
   m_request_queued (eo_next_mem eo) = false).
Proof.
  unfold exec_stage. rewrite orb_true_r.
  destruct (e_valid (exec c)); simpl; [|done].
  split; [done|]. split; [done|]. intros _. by destruct (_ || _).
Qed.

(** A core whose Memory latch holds the instruction word [raw] with
    effective address [a] and store data [v]. *)
Definition core_in_memory (c : Core) (raw a v : Z) : Core :=
  set_mem c
    {| m_valid := true; m_inst := decode_inst raw 0; m_alu_result := 0;
       m_mem_addr := a; m_store_data := v;
       m_is_load := (i_op (decode_inst raw 0) =? OP_LW);
       m_is_store := (i_op (decode_inst raw 0) =? OP_SW);
       m_miss := false; m_waiting := false; m_request_queued := false;
       m_load_value := 0 |}.

(** X11.  A load that hits (block present in M, E or S): in that cycle the
    Memory stage hands the word read from the cache to Writeback, posts no
    bus request and leaves the cache as it is; the lookup is counted as a
    read hit unless the sticky [miss] flag is set (a load retried after its
    miss was served is not counted again); the Memory latch is refilled from
    Execute exactly when Execute holds an instruction. *)
Theorem load_hit (i : Z) (c : Core) (req : BusRequest)
    (Hv : m_valid (mem c) = true)
    (Hnw : m_waiting (mem c) = false)
    (Hop : i_op (m_inst (mem c)) = OP_LW)
    (Hst : line_state (cache c) (m_mem_addr (mem c)) ≠ MESI_I) :
  let c' := (advance_core i c req).1 in
  wb c' = {| w_valid := true; w_inst := m_inst (mem c);
             w_value := cache_read (cache c) (m_mem_addr (mem c)) |} ∧
  (advance_core i c req).2 = req ∧
  cache c' = cache c ∧
  read_hit (stats c') =
    (if m_miss (mem c) then read_hit (stats c) else inc (read_hit (stats c))) ∧
  read_miss (stats c') = read_miss (stats c) ∧
  mem_stall (stats c') = mem_stall (stats c) ∧
  m_valid (mem c') = e_valid (exec c).
Proof.
  intros c'.
  pose proof (count_cycle_frame c) as Hcc. cbv zeta in Hcc.
  destruct Hcc as (_&_&_&_&_&_&_&_&_&_&_&Hex&Hmem&_&Hca&_&Hrh&_&Hrm&_&_&Hms).
  pose proof (advance_core_stages i c req) as Hs. cbv zeta in Hs. fold c' in Hs.
  destruct Hs as (Hreq & Hwb & Hm' & _ & _ & _ & Hc' & _ & _ & _ & _ & _ & _ & _ & _ & _
                  & Hrh' & _ & Hrm' & _ & Hms').
  destruct (mem_stage_load_hit i (count_cycle c) req)
    as (Hrq & Hadv & Hnwb & Hnm & Hcache & Hhit & Hmiss & Hstall);
    rewrite ?Hmem, ?Hca; try done.
  pose proof (mem_stage_frame i (count_cycle c) req) as Hfr. cbv zeta in Hfr.
  destruct Hfr as (_&_&_&_&_&_&_&_&_&_&_&Hex2&_).
  rewrite Hmem, Hca in *.
  split; [by rewrite Hwb, Hnwb|].
  split; [by rewrite Hreq, Hrq|].
  split; [by rewrite Hc', Hcache|].
  split; [by rewrite Hrh', Hhit, Hrh|].
  split; [by rewrite Hrm', Hmiss, Hrm|].
  split; [by rewrite Hms', Hstall, Hms|].
  rewrite Hm', Hadv.
  match goal with
  | |- m_valid (eo_next_mem (exec_stage ?c0 ?nm true)) = _ =>
      pose proof (exec_stage_advances c0 nm) as He; cbv zeta in He;
      destruct He as (_ & He0 & He1)
  end.
  rewrite Hex2, Hex in He0, He1.
  destruct (e_valid (exec c)).
  - by destruct He1 as (_ & -> & _).
  - destruct He0 as [-> _]; done.
Qed.

Lemma load_hit_witness :
  wb (advance_core 0
        (core_in_memory (core_holding 0 1000 MESI_S (wrw ∅ 0 77)) 270532608 1000 0)
        request0).1
  = {| w_valid := true; w_inst := decode_inst 270532608 0; w_value := 77 |}.
Proof.
  destruct (load_hit 0
              (core_in_memory (core_holding 0 1000 MESI_S (wrw ∅ 0 77)) 270532608 1000 0)
              request0) as (H & _); [by vm_compute..|].
  etrans; [exact H|]. by vm_compute.
Defined.

(** X12.  A store that hits a block held in M or E is done in the cache
    alone: in that cycle the word is written (a read of the address gives
    the stored value), the block is in M afterwards, no tag changes, no bus
    request is posted, the store goes on to Writeback with value 0, and the
    lookup is counted as a write hit unless the [miss] flag is set. *)
Theorem store_hit_exclusive (i : Z) (c : Core) (req : BusRequest)
    (Hv : m_valid (mem c) = true)
    (Hnw : m_waiting (mem c) = false)
    (Hop : i_op (m_inst (mem c)) = OP_SW)
    (Hst : line_state (cache c) (m_mem_addr (mem c)) = MESI_M ∨
           line_state (cache c) (m_mem_addr (mem c)) = MESI_E) :
  let c' := (advance_core i c req).1 in
  cache_read (cache c') (m_mem_addr (mem c)) = m_store_data (mem c) ∧
  line_state (cache c') (m_mem_addr (mem c)) = MESI_M ∧
  c_tag (cache c') = c_tag (cache c) ∧
  (advance_core i c req).2 = req ∧
  wb c' = {| w_valid := true; w_inst := m_inst (mem c); w_value := 0 |} ∧
  write_hit (stats c') =
    (if m_miss (mem c) then write_hit (stats c) else inc (write_hit (stats c))) ∧
  write_miss (stats c') = write_miss (stats c).
Proof.
  intros c'.
  pose proof (count_cycle_frame c) as Hcc. cbv zeta in Hcc.
  destruct Hcc as (_&_&_&_&_&_&_&_&_&_&_&_&Hmem&_&Hca&_&_&Hwh&_&Hwm&_).
  pose proof (advance_core_stages i c req) as Hs. cbv zeta in Hs. fold c' in Hs.
  destruct Hs as (Hreq & Hwb & _ & _ & _ & _ & Hc' & _ & _ & _ & _ & _ & _ & _ & _ & _
                  & _ & Hwh' & _ & Hwm' & _).
  destruct (mem_stage_store_hit i (count_cycle c) req)
    as (Hrq & _ & Hnwb & _ & Hdata & Htag & Hstate & Hhit & Hmiss & _);
    rewrite ?Hmem, ?Hca; try done.
  rewrite Hmem, Hca in *.
  assert (Htg : rdw (c_tag (cache c)) (cache_index (m_mem_addr (mem c)))
                = cache_tag (m_mem_addr (mem c))).
  { destruct Hst as [Hst|Hst]; by apply line_state_not_I in Hst as [_ Hst]. }
  split.
  { unfold cache_read. rewrite Hc', Hdata. unfold cache_write. cbn [c_data].
    apply rdw_wrw_eq. }
  split.
  { unfold line_state. rewrite Hc', Htag, Hstate, Htg, Z.eqb_refl. apply rds_wrs_eq. }
  split; [by rewrite Hc', Htag|].
  split; [by rewrite Hreq, Hrq|].
  split; [by rewrite Hwb, Hnwb|].
  split; [by rewrite Hwh', Hhit, Hwh|].
  by rewrite Hwm', Hmiss, Hwm.
Qed.

Lemma store_hit_exclusive_witness :
  let c := core_in_memory (core_holding 0 1000 MESI_E ∅) 287309824 1000 5 in
  cache_read (cache (advance_core 0 c request0).1) 1000 = 5 ∧
  line_state (cache (advance_core 0 c request0).1) 1000 = MESI_M.
Proof.
  intros c.
  destruct (store_hit_exclusive 0 c request0) as (H1 & H2 & _);
    [by vm_compute | by vm_compute | by vm_compute | right; by vm_compute |].
  split; [exact H1 | exact H2].
Defined.

(** X13.  A load or store whose block is absent (or Invalid) posts its
    request in that cycle: the core's slot becomes an active BusRd (load)
    or BusRdX (store) for the effective address mod 2^20 with the core as
    origin; the Memory latch keeps the instruction with [miss] and
    [waiting] set (and [request_queued] still clear); Writeback gets a
    bubble; the cache is unchanged; the lookup is counted as a read miss
    or write miss unless [miss] was already set, and as a memory stall. *)
Theorem miss_request (i : Z) (c : Core) (req : BusRequest)
    (Hv : m_valid (mem c) = true)
    (Hnw : m_waiting (mem c) = false)
    (Hop : i_op (m_inst (mem c)) = OP_LW ∨ i_op (m_inst (mem c)) = OP_SW)
    (Hst : line_state (cache c) (m_mem_addr (mem c)) = MESI_I)
    (Hq : m_request_queued (mem c) = false) :
  let c' := (advance_core i c req).1 in
  let lw := i_op (m_inst (mem c)) =? OP_LW in
  (advance_core i c req).2 =
    {| r_active := true; r_cmd := if lw then BUS_RD else BUS_RDX;
       r_addr := m_mem_addr (mem c) mod 2 ^ 20; r_origin := i |} ∧
  mem c' = mem_set_miss_waiting (mem c) true true ∧
  wb c' = wb0 ∧
  cache c' = cache c ∧
  read_miss (stats c') =
    (if lw && negb (m_miss (mem c)) then inc (read_miss (stats c)) else read_miss (stats c)) ∧
  write_miss (stats c') =
    (if negb lw && negb (m_miss (mem c)) then inc (write_miss (stats c))
     else write_miss (stats c)) ∧
  read_hit (stats c') = read_hit (stats c) ∧
  write_hit (stats c') = write_hit (stats c) ∧
  mem_stall (stats c') = inc (mem_stall (stats c)).
Proof.
  intros c' lw.
  pose proof (count_cycle_frame c) as Hcc. cbv zeta in Hcc.
  destruct Hcc as (_&_&_&_&_&_&_&_&_&_&_&_&Hmem&_&Hca&_&Hrh&Hwh&Hrm&Hwm&_&Hms).
  pose proof (advance_core_stages i c req) as Hs. cbv zeta in Hs. fold c' in Hs.
  destruct Hs as (Hreq & Hwb & Hm' & _ & _ & _ & Hc' & _ & _ & _ & _ & _ & _ & _ & _ & _
                  & Hrh' & Hwh' & Hrm' & Hwm' & Hms').
  destruct (mem_stage_miss i (count_cycle c) req)
    as (Hrq & Hadv & Hnwb & Hnm & Hcache & Hrmiss & Hwmiss & Hrhit & Hwhit & Hstall);
    rewrite ?Hmem, ?Hca; try done.
  pose proof (mem_stage_frame i (count_cycle c) req) as Hfr. cbv zeta in Hfr.
  destruct Hfr as (_&_&_&_&_&_&_&_&_&_&_&_&_&Hvalid&_).
  rewrite Hadv, Hnm in Hm'.
  destruct (exec_stage_blocked (mo_core (mem_stage i (count_cycle c) req))
              (mem_set_miss_waiting (mem (count_cycle c)) true true)) as [Hem _];
    [by rewrite Hvalid, Hmem|].
  rewrite Hem in Hm'. rewrite Hmem, Hca in *. fold lw in Hrq, Hrmiss, Hwmiss.
  split; [by rewrite Hreq, Hrq|].
  split; [done|].
  split; [by rewrite Hwb, Hnwb|].
  split; [by rewrite Hc', Hcache|].
  split; [by rewrite Hrm', Hrmiss, Hrm|].
  split; [by rewrite Hwm', Hwmiss, Hwm|].
  split; [by rewrite Hrh', Hrhit, Hrh|].
  split; [by rewrite Hwh', Hwhit, Hwh|].
  by rewrite Hms', Hstall, Hms.
Qed.

Lemma miss_request_witness :
  (advance_core 2 (core_in_memory (init_core 2 []) 270532608 1000 0) request0).2 =
    {| r_active := true; r_cmd := BUS_RD; r_addr := 1000; r_origin := 2 |}.
Proof.
  destruct (miss_request 2 (core_in_memory (init_core 2 []) 270532608 1000 0) request0)
    as (H & _); [by vm_compute | by vm_compute | left; by vm_compute
                | by vm_compute | by vm_compute |].
  etrans; [exact H|]. by vm_compute.
Defined.

(** ** Stalls, fetch and retirement *)

(** Some instruction in Execute, Memory or Writeback writes register [reg]:
    the three tests of the hazard loop (736-741). *)
Definition writes_reg (c : Core) (reg : Z) : bool :=
  (e_valid (exec c) && (dest_reg (e_inst (exec c)) =? reg))
  || (m_valid (mem c) && (dest_reg (m_inst (mem c)) =? reg))
  || (w_valid (wb c) && (dest_reg (w_inst (wb c)) =? reg)).

Lemma hazard_on_spec c b r :
  hazard_on c b r = b || ((1 <? r) && writes_reg c r).
Proof.
  unfold hazard_on, writes_reg.
  destruct (Z.leb_spec r 1), (Z.ltb_spec 1 r); try lia.
  - by rewrite orb_false_r.
  - destruct b, (e_valid (exec c) && _), (m_valid (mem c) && _), (w_valid (wb c) && _); done.
Qed.

Lemma hazard_fold c srcs b :
  foldl (hazard_on c) b srcs = b || existsb (λ r, (1 <? r) && writes_reg c r) srcs.
Proof.
  revert b. induction srcs as [|r srcs IH]; intros b; simpl; [by rewrite orb_false_r|].
  by rewrite IH, hazard_on_spec, orb_assoc.
Qed.

Lemma decode_hazard_flag c e :
  d_valid (decode c) = true →
  (decode_hazard c e).2 =
    negb e || existsb (λ r, (1 <? r) && writes_reg c r) (source_regs (d_inst (decode c))) ∧
  decode_stall (stats (decode_hazard c e).1) =
    (if (decode_hazard c e).2 then inc (decode_stall (stats c)) else decode_stall (stats c)).
Proof.
  intros Hd. unfold decode_hazard. rewrite Hd. cbn [fst snd].
  change (hazard_on (set_regs c (wrw (regs c) 1 (u32 (i_imm (d_inst (decode c)))))))
    with (hazard_on c).
  rewrite hazard_fold. simpl (false || _).
  by destruct e, (existsb _ _).
Qed.

Lemma decode_stage_held c ne e :
  d_valid (decode c) = true → (decode_hazard c e).2 = true →
  let dc := decode_stage c ne e in
  do_decode_moves dc = false ∧
  do_next_decode dc = decode c ∧ do_next_exec dc = ne ∧
  do_decode_free_next dc = false ∧ do_fetch_moves dc = false ∧
  do_core dc = (decode_hazard c e).1.
Proof.
  intros Hd Hst. unfold decode_stage. cbv zeta. rewrite Hd, Hst. simpl.
  by rewrite andb_false_r.
Qed.

Lemma exec_stage_blocked_free c next_mem :
  m_valid (mem c) = true →
  eo_exec_free_next (exec_stage c next_mem false) = negb (e_valid (exec c)).
Proof.
  intros Hv. unfold exec_stage. rewrite Hv. simpl.
  by destruct (e_valid (exec c)).
Qed.

Lemma fetch_stage_blocked c nd :
  fetch_stage c nd false false =
    {| fo_core := c; fo_next_decode := nd; fo_next_fetch := fetch c |}.
Proof. unfold fetch_stage. by rewrite andb_false_r. Qed.

(** The remaining fields of the result of [advance_core]. *)
Lemma advance_core_rest i c req :
  let mo := mem_stage i (count_cycle c) req in
  let eo := exec_stage (mo_core mo) (mo_next_mem mo) (mo_mem_advances mo) in
  let dc := decode_stage (mo_core mo) (eo_next_exec eo) (eo_exec_free_next eo) in
  let c' := (advance_core i c req).1 in
  cycles (stats c') = (if done_ c then cycles (stats c) else inc (cycles (stats c))) ∧
  decode_stall (stats c') = decode_stall (stats (do_core dc)) ∧
  done_ c' =
    done_ c || (halted c && negb (f_valid (fetch c') || d_valid (decode c') || e_valid (exec c')
                                  || m_valid (mem c') || w_valid (wb c'))).
Proof.
  intros mo eo dc c'.
  set (fo := fetch_stage (do_core dc) (do_next_decode dc)
               (do_decode_free_next dc) (do_fetch_moves dc)).
  pose proof (count_cycle_frame c) as Hcc. cbv zeta in Hcc.
  pose proof (mem_stage_frame i (count_cycle c) req) as Hm. cbv zeta in Hm. fold mo in Hm.
  pose proof (mem_stage_cycles i (count_cycle c) req) as Hmc. fold mo in Hmc.
  pose proof (decode_stage_frame (mo_core mo) (eo_next_exec eo) (eo_exec_free_next eo)) as Hd.
  cbv zeta in Hd. fold dc in Hd.
  pose proof (fetch_stage_frame (do_core dc) (do_next_decode dc)
                (do_decode_free_next dc) (do_fetch_moves dc)) as Hf.
  cbv zeta in Hf. fold fo in Hf.
  set (b := halted (fo_core fo) &&
            negb (f_valid (fo_next_fetch fo) || d_valid (fo_next_decode fo)
                  || e_valid (do_next_exec dc) || m_valid (eo_next_mem eo)
                  || w_valid (mo_next_wb mo))).
  assert (Hc' : c' =
    if b then set_done (set_latches (fo_core fo) (mo_next_wb mo) (eo_next_mem eo)
                (do_next_exec dc) (fo_next_decode fo) (fo_next_fetch fo)) true
    else set_latches (fo_core fo) (mo_next_wb mo) (eo_next_mem eo)
                (do_next_exec dc) (fo_next_decode fo) (fo_next_fetch fo))
    by exact (advance_core_fst i c req).
  assert (Hb : b = halted (fo_core fo) &&
            negb (f_valid (fo_next_fetch fo) || d_valid (fo_next_decode fo)
                  || e_valid (do_next_exec dc) || m_valid (eo_next_mem eo)
                  || w_valid (mo_next_wb mo))) by reflexivity.
  clearbody b c' fo. clearbody dc. clearbody eo. clearbody mo.
  pose proof (latch_update_frame b (fo_core fo) (mo_next_wb mo) (eo_next_mem eo)
                (do_next_exec dc) (fo_next_decode fo) (fo_next_fetch fo)) as Hl.
  cbv zeta in Hl. rewrite <- Hc' in Hl. clear Hc'.
  destruct Hl as (L1&L2&L3&L4&L5&L6&L7&L8&L9&L10&L11&L12&L13&L14&L15&L16).
  destruct Hcc as (C1&C2&C3&C4&C5&C6&C7&C8&C9&C10&C11&C12&C13&C14&C15&C16&C17&C18&C19&C20&C21&C22).
  destruct Hm as (M1&M2&M3&M4&M5&M6&M7&M8&M9&M10&M11&M12&M13&M14&M15&M16&M17).
  destruct Hd as (D1&D2&D3&D4&D5&D6&D7&D8&D9&D10&D11&D12&D13&D14&D15&D16&D17&D18&D19&D20).
  destruct Hf as (F1&F2&F3&F4&F5&F6&F7&F8&F9&F10&F11&F12).
  assert (Hcy : cycles (stats (count_cycle c)) =
                if done_ c then cycles (stats c) else inc (cycles (stats c))).
  { unfold count_cycle. by destruct (done_ c). }
  rewrite L15, L16, L5, L4, L3, L2, L1, Hb.
  rewrite F12, D13, Hmc, Hcy, F5, D6, M9, C9, F4, D5, M8, C8.
  split_and!; reflexivity.
Qed.

(** X14.  While the Memory latch waits for the bus the core is held from
    the back: the request slot, the Memory latch and the cache are
    unchanged, Writeback gets a bubble and [mem_stall] is incremented; an
    instruction in Execute stays there; and with Execute occupied an
    instruction in Decode stays there too, the Fetch latch and the PC are
    unchanged, and [decode_stall] is incremented. *)
Theorem memory_wait_back_pressure (i : Z) (c : Core) (req : BusRequest)
    (Hv : m_valid (mem c) = true)
    (Hw : m_waiting (mem c) = true) :
  let c' := (advance_core i c req).1 in
  (advance_core i c req).2 = req ∧
  wb c' = wb0 ∧ mem c' = mem c ∧ cache c' = cache c ∧
  mem_stall (stats c') = inc (mem_stall (stats c)) ∧
  (e_valid (exec c) = true →
   exec c' = exec c ∧
   (d_valid (decode c) = true →
    decode c' = decode c ∧ fetch c' = fetch c ∧ pc c' = pc c ∧
    stop_fetch c' = stop_fetch c ∧
    decode_stall (stats c') = inc (decode_stall (stats c)))).
Proof.
  intros c'.
  pose proof (count_cycle_frame c) as Hcc. cbv zeta in Hcc.
  destruct Hcc as (_&_&_&Hpc&_&_&Hsf&_&_&Hfe&Hde&Hex&Hmem&_&Hca&_&_&_&_&_&Hds&Hms).
  pose proof (advance_core_stages i c req) as Hs. cbv zeta in Hs. fold c' in Hs.
  destruct Hs as (Hreq & Hwb & Hm' & He' & Hd' & Hf' & Hc' & _ & Hpc' & _ & _ & Hsf' & _ & _
                  & _ & _ & _ & _ & _ & _ & Hms').
  pose proof (advance_core_rest i c req) as Hr. cbv zeta in Hr. fold c' in Hr.
  destruct Hr as (_ & Hds' & _).
  rewrite mem_stage_waiting in Hreq, Hwb, Hm', He', Hd', Hf', Hc', Hpc', Hsf', Hms', Hds'
    by (by rewrite Hmem).
  cbn [mo_core mo_req mo_next_wb mo_next_mem mo_mem_advances] in *.
  set (c1 := set_stats (count_cycle c) (inc_mem_stall (stats (count_cycle c)))) in *.
  assert (Hv1 : m_valid (mem c1) = true) by (unfold c1; simpl; by rewrite Hmem).
  destruct (exec_stage_blocked c1 (mem (count_cycle c)) Hv1) as [Hem Hee].
  pose proof (exec_stage_blocked_free c1 (mem (count_cycle c)) Hv1) as Hef.
  rewrite Hem, Hee, Hef in *.
  change (exec c1) with (exec (count_cycle c)) in *. rewrite Hex in *.
  split; [done|]. split; [done|]. split; [by rewrite Hm'|].
  split; [by rewrite Hc'; unfold c1; simpl|].
  split; [by rewrite Hms'; unfold c1; simpl; rewrite Hms|].
  intros Hev. rewrite Hev in *. cbn [negb] in *.
  destruct (d_valid (decode c)) eqn:Hdv.
  - assert (Hd1 : d_valid (decode c1) = true) by (unfold c1; simpl; by rewrite Hde).
    destruct (decode_hazard_flag c1 false Hd1) as [Hst Hcnt].
    cbn [negb orb] in Hst. rewrite Hst in Hcnt.
    destruct (decode_stage_held c1 (exec c) false Hd1 Hst)
      as (_ & Hnd & Hne & Hfn & Hfm & Hco).
    pose proof (decode_hazard_frame c1 false) as Hhf. cbv zeta in Hhf.
    destruct Hhf as (_&_&Hp&_&_&Hs&_&_&Hf&_).
    rewrite Hnd, Hne, Hfn, Hfm, Hco, fetch_stage_blocked in *.
    cbn [fo_core fo_next_decode fo_next_fetch] in *.
    split; [done|]. intros _.
    split; [by rewrite Hd'; unfold c1; simpl; rewrite Hde|].
    split; [by rewrite Hf', Hf; unfold c1; simpl; rewrite Hfe|].
    split; [by rewrite Hpc', Hp; unfold c1; simpl; rewrite Hpc|].
    split; [by rewrite Hsf', Hs; unfold c1; simpl; rewrite Hsf|].
    rewrite Hds', Hcnt. unfold c1. simpl. by rewrite Hds.
  - split; [|done]. rewrite He'.
    unfold decode_stage. cbv zeta.
    change (decode c1) with (decode (count_cycle c)). rewrite Hde, Hdv. simpl.
    done.
Qed.

Lemma memory_wait_back_pressure_witness :
  let c := set_mem (init_core 1 []) (mem_set_miss_waiting
             (mem (core_in_memory (init_core 1 []) 270532608 1000 0)) true true) in
  mem (advance_core 1 c request0).1 = mem c ∧
  mem_stall (stats (advance_core 1 c request0).1) = 1.
Proof.
  intros c.
  destruct (memory_wait_back_pressure 1 c request0) as (_ & _ & H1 & _ & H2 & _);
    [by vm_compute | by vm_compute |].
  split; [exact H1 | by rewrite H2].
Defined.

(** X15.  Decode has no forwarding: an instruction in Decode stays there
    for the cycle exactly when Execute will not be free or one of its
    source registers above R1 is the destination of a valid instruction in
    Execute, Memory or Writeback.  When it stays, the Decode latch and the
    next Execute latch are unchanged, the Fetch latch does not move,
    no redirect is raised and [decode_stall] is incremented; when it moves,
    [decode_stall] is unchanged. *)
Theorem decode_hazard_stall (c : Core) (ne : ExecStage) (e : bool)
    (Hd : d_valid (decode c) = true) :
  let dc := decode_stage c ne e in
  (do_decode_moves dc = false ↔
   e = false ∨
   ∃ r, r ∈ source_regs (d_inst (decode c)) ∧ 1 < r ∧
     (e_valid (exec c) = true ∧ dest_reg (e_inst (exec c)) = r ∨
      m_valid (mem c) = true ∧ dest_reg (m_inst (mem c)) = r ∨
      w_valid (wb c) = true ∧ dest_reg (w_inst (wb c)) = r)) ∧
  (do_decode_moves dc = false →
   do_next_decode dc = decode c ∧ do_next_exec dc = ne ∧
   do_fetch_moves dc = false ∧
   redirect_pending (do_core dc) = redirect_pending c ∧
   decode_stall (stats (do_core dc)) = inc (decode_stall (stats c))) ∧
  (do_decode_moves dc = true →
   decode_stall (stats (do_core dc)) = decode_stall (stats c)).
Proof.
  intros dc.
  destruct (decode_hazard_flag c e Hd) as [Hflag Hcnt].
  assert (Hmv : do_decode_moves dc = negb (decode_hazard c e).2).
  { unfold dc, decode_stage. cbv zeta. rewrite Hd, Hflag.
    destruct e, (existsb _ _); done. }
  assert (Hiff : (decode_hazard c e).2 = true ↔
    e = false ∨
    ∃ r, r ∈ source_regs (d_inst (decode c)) ∧ 1 < r ∧
      (e_valid (exec c) = true ∧ dest_reg (e_inst (exec c)) = r ∨
       m_valid (mem c) = true ∧ dest_reg (m_inst (mem c)) = r ∨
       w_valid (wb c) = true ∧ dest_reg (w_inst (wb c)) = r)).
  { rewrite Hflag, orb_true_iff, negb_true_iff, existsb_exists.
    apply or_iff_compat_l. split.
    - intros (r & Hin & Hr). exists r. apply list_elem_of_In in Hin.
      apply andb_true_iff in Hr as [Hr Hwr]. apply Z.ltb_lt in Hr.
      split; [done|]. split; [done|].
      unfold writes_reg in Hwr. rewrite !orb_true_iff, !andb_true_iff, !Z.eqb_eq in Hwr.
      tauto.
    - intros (r & Hin & Hr & Hwr). exists r. apply list_elem_of_In in Hin.
      split; [done|]. apply andb_true_iff. split; [by apply Z.ltb_lt|].
      unfold writes_reg. rewrite !orb_true_iff, !andb_true_iff, !Z.eqb_eq. tauto. }
  split.
  { rewrite Hmv, negb_false_iff. exact Hiff. }
  split.
  - rewrite Hmv, negb_false_iff. intros Hst.
    destruct (decode_stage_held c ne e Hd Hst) as (_ & Hnd & Hne & _ & Hfm & Hco).
    fold dc in Hnd, Hne, Hfm, Hco.
    pose proof (decode_hazard_frame c e) as Hhf. cbv zeta in Hhf.
    destruct Hhf as (_&_&_&Hrp&_).
    rewrite Hco, Hcnt, Hst. by split_and!.
  - rewrite Hmv, negb_true_iff. intros Hst.
    destruct e; [|by rewrite Hflag in Hst].
    unfold dc, decode_stage. cbv zeta. rewrite Hd, Hst. cbn [negb andb do_core].
    pose proof (decode_issue_frame (decode_hazard c true).1 ne) as Hif. cbv zeta in Hif.
    destruct Hif as (_&_&_&_&_&_&_&_&_&_&_&_&Hstats&_).
    by rewrite Hstats, Hcnt, Hst.
Qed.

(** A core with [ADD R3, R2, R2] in Decode behind [LW R2] in Execute. *)
Definition hazard_example : Core :=
  set_latches (init_core 0 []) wb0 mem0
    {| e_valid := true; e_inst := decode_inst 270532608 0;
       e_rs_val := 0; e_rt_val := 0; e_rd_val := 0 |}
    {| d_valid := true; d_inst := decode_inst 3284992 1 |} fetch0.

Lemma decode_hazard_stall_witness :
  do_decode_moves (decode_stage hazard_example (exec hazard_example) true) = false.
Proof.
  destruct (decode_hazard_stall hazard_example (exec hazard_example) true) as ([_ H] & _);
    [by vm_compute|].
  apply H. right. exists 2.
  split; [apply list_elem_of_In; vm_compute; tauto|].
  split; [lia|]. left. by vm_compute.
Defined.

(** X16.  [stop_fetch] is raised only by a sequential fetch of HALT: after
    the Fetch stage it is set exactly when it was set before, or Decode
    will be free, no redirect is pending and the word at the PC is a HALT;
    a HALT fetched from a redirect target does not raise it.  Once it is
    set the PC is frozen and the Fetch latch only drains.  A pending
    redirect, when fetch is not stopped and Decode will be free, is served
    in the same cycle: the target is fetched, the PC is the target plus one
    (mod 1024) and the redirect is cleared. *)
Theorem fetch_stop_and_redirect (c : Core) (nd : DecodeStage) (dfn fm : bool) :
  let fo := fetch_stage c nd dfn fm in
  (stop_fetch (fo_core fo) = true ↔
   stop_fetch c = true ∨
   (dfn = true ∧ redirect_pending c = false ∧
    i_op (decode_inst (rdw (imem c) (pc c)) (pc c)) = OP_HALT)) ∧
  (stop_fetch c = true →
   pc (fo_core fo) = pc c ∧
   fo_next_fetch fo = {| f_valid := f_valid (fetch c) && negb fm;
                         f_inst := f_inst (fetch c) |}) ∧
  (stop_fetch c = false → dfn = true → redirect_pending c = true →
   fo_next_fetch fo =
     {| f_valid := true;
        f_inst := decode_inst (rdw (imem c) (redirect_pc c)) (redirect_pc c) |} ∧
   pc (fo_core fo) = Z.land (redirect_pc c + 1) 1023 ∧
   redirect_pending (fo_core fo) = false ∧
   stop_fetch (fo_core fo) = false).
Proof.
  unfold fetch_stage. cbv zeta.
  generalize (decode_inst (rdw (imem c) (pc c)) (pc c)).
  generalize (decode_inst (rdw (imem c) (redirect_pc c)) (redirect_pc c)).
  intros ir ih.
  destruct (stop_fetch c) eqn:Hs; simpl.
  - destruct fm; simpl; rewrite Hs, ?andb_false_r, ?andb_true_r;
      (split; [split; [by left | done]|]); (split; [|done]); intros _;
      (split; [done|]); by destruct (fetch c).
  - destruct dfn; simpl.
    + destruct (redirect_pending c) eqn:Hr; simpl.
      * rewrite Hs. split; [|done]. split; [done|]. intros [?|(_ & ? & _)]; done.
      * destruct (Z.eqb_spec (i_op ih) OP_HALT) as [Hh|Hh]; simpl; rewrite ?Hs.
        -- split; [|done]. split; [by right | done].
        -- split; [|done]. split; [done|]. intros [?|(_ & _ & ?)]; done.
    + destruct fm; simpl; rewrite Hs; (split; [|done]);
        (split; [done|]); intros [?|(? & _)]; done.
Qed.

Lemma wb_commit_stats c :
  cycles (stats (wb_commit c)) = cycles (stats c) ∧
  halted (wb_commit c) =
    halted c || (w_valid (wb c) && (i_op (w_inst (wb c)) =? OP_HALT)).
Proof.
  unfold wb_commit. destruct (w_valid (wb c)); [|by rewrite orb_false_r].
  destruct (dest_reg _ >=? 0); simpl;
    destruct (i_op _ =? OP_HALT); simpl; by rewrite ?orb_true_r, ?orb_false_r.
Qed.

Lemma sim_cycle_core_next s j c :
  length (requests s) = length (cores s) →
  cores s !! j = Some c →
  ∃ r c', requests s !! j = Some r ∧ cores (sim_cycle s) !! j = Some c' ∧
    same_pipeline (advance_core (Z.of_nat j) (wb_commit c) r).1 c'.
Proof.
  intros Hlen Hc.
  assert (Hlt : (j < length (cores (sim_cycle s)))%nat).
  { rewrite (proj1 (sim_cycle_length s)). by eapply lookup_lt_Some. }
  destruct (lookup_lt_is_Some_2 _ _ Hlt) as [c' Hc'].
  destruct (sim_cycle_core s j c' Hlen Hc') as (c0 & r & Hc0 & Hr & Hsp).
  rewrite Hc in Hc0. apply (inj Some) in Hc0. subst c0.
  by exists r, c'.
Qed.

(** The [done] flag and the cycle counter of a core through one cycle. *)
Lemma sim_cycle_done (s : Sim) (j : nat) (c : Core)
    (Hlen : length (requests s) = length (cores s))
    (Hc : cores s !! j = Some c) :
  ∃ c', cores (sim_cycle s) !! j = Some c' ∧
    (done_ c = true → done_ c' = true ∧ cycles (stats c') = cycles (stats c)) ∧
    (done_ c = false →
     cycles (stats c') = inc (cycles (stats c)) ∧
     (done_ c' = true ↔
      (halted c = true ∨ (w_valid (wb c) = true ∧ i_op (w_inst (wb c)) = OP_HALT)) ∧
      f_valid (fetch c') = false ∧ d_valid (decode c') = false ∧
      e_valid (exec c') = false ∧ m_valid (mem c') = false ∧ w_valid (wb c') = false)) ∧
    (halted c = true → halted c' = true).
Proof.
  destruct (sim_cycle_core_next s j c Hlen Hc) as (r & c' & _ & Hc' & Hsp).
  exists c'. split; [done|].
  pose proof (advance_core_rest (Z.of_nat j) (wb_commit c) r) as Hr. cbv zeta in Hr.
  destruct Hr as (Hcy & _ & Hdn).
  pose proof (advance_core_stages (Z.of_nat j) (wb_commit c) r) as Hst. cbv zeta in Hst.
  destruct Hst as (_&_&_&_&_&_&_&_&_&_&_&_&_&_&Hh&_).
  revert Hsp Hcy Hdn Hh.
  generalize (advance_core (Z.of_nat j) (wb_commit c) r).1. intros c1 Hsp Hcy Hdn Hh.
  pose proof (wb_commit_frame c) as Hwf. cbv zeta in Hwf.
  destruct Hwf as (_&_&_&_&_&_&Hwd&_).
  destruct (wb_commit_stats c) as [Hwc Hwh].
  destruct Hsp as (_&_&_&_&_&_&_&S8&S9&S10&S11&S12&S13&S14&S15).
  assert (Hmv : m_valid (mem c') = m_valid (mem c1)).
  { destruct S15 as [->| ->]; reflexivity. }
  rewrite S9, S14, S8, S10, S11, S12, S13, Hmv, Hcy, Hdn, Hh, Hwd, Hwc, Hwh.
  split; [intros ->; split; reflexivity|]. split.
  - intros ->. split; [reflexivity|]. cbn [orb].
    rewrite andb_true_iff, negb_true_iff, !orb_false_iff, orb_true_iff, andb_true_iff,
      Z.eqb_eq. tauto.
  - intros ->. reflexivity.
Qed.

(** X17.  Through one whole cycle: a core that is done stays done and its
    cycle counter stands still; a core that is not done counts the cycle,
    and becomes done exactly when its HALT has retired (earlier, or from
    Writeback in this cycle) and all five latches are empty after the
    cycle; [halted] is never cleared. *)
Theorem core_done (s : Sim) (j : nat) (c : Core)
    (Hlen : length (requests s) = length (cores s))
    (Hc : cores s !! j = Some c) :
  ∃ c', cores (sim_cycle s) !! j = Some c' ∧
    (done_ c = true → done_ c' = true ∧ cycles (stats c') = cycles (stats c)) ∧
    (done_ c = false →
     cycles (stats c') = inc (cycles (stats c)) ∧
     (done_ c' = true ↔
      (halted c = true ∨ (w_valid (wb c) = true ∧ i_op (w_inst (wb c)) = OP_HALT)) ∧
      f_valid (fetch c') = false ∧ d_valid (decode c') = false ∧
      e_valid (exec c') = false ∧ m_valid (mem c') = false ∧ w_valid (wb c') = false)) ∧
    (halted c = true → halted c' = true).
Proof. exact (sim_cycle_done s j c Hlen Hc). Qed.

Lemma core_done_witness :
  ∃ c', cores (sim_cycle (run 5 delay_slot_example)) !! 1%nat = Some c' ∧ done_ c' = true.
Proof.
  destruct (core_done (run 5 delay_slot_example) 1 (core_at 1 (run 5 delay_slot_example)))
    as (c' & Hc' & Hd & _); [by vm_compute | apply core_at_lookup; by vm_compute |].
  exists c'. split; [done|]. apply Hd. by vm_compute.
Defined.

(** ** Invariants of the reachable states *)

(** What holds of every Memory latch at a cycle boundary. *)
Definition mem_latch_ok (m : MemStage) : Prop :=
  m_request_queued m = false ∧
  (m_waiting m = true → m_valid m = true ∧ m_miss m = true).

Lemma mem_stage_latch_ok i c req :
  mem_latch_ok (mem c) → mem_latch_ok (mo_next_mem (mem_stage i c req)).
Proof.
  intros [Hq Hw]. unfold mem_latch_ok, mem_stage.
  destruct (m_valid (mem c)) eqn:Hv; cbn [negb]; [|cbn; intuition congruence].
  destruct (m_waiting (mem c)) eqn:Hwt; [cbn; intuition congruence|].
  destruct ((i_op (m_inst (mem c)) =? OP_LW) || (i_op (m_inst (mem c)) =? OP_SW));
    [|cbn; intuition congruence].
  destruct (cache_lookup _ _ _) as [hit st].
  set (c1 := if m_miss (mem c) then c else _).
  clearbody c1.
  destruct (negb hit || _ || _).
  - destruct (m_request_queued (mem c1)); cbn; intuition congruence.
  - destruct (i_op (m_inst (mem c)) =? OP_LW); cbn; intuition congruence.
Qed.

Lemma exec_stage_latch_ok c nm adv :
  mem_latch_ok nm → mem_latch_ok (eo_next_mem (exec_stage c nm adv)).
Proof.
  intros Hok. unfold exec_stage.
  destruct (e_valid (exec c) && _); [|done].
  simpl. by destruct (_ || _).
Qed.

Lemma advance_core_latch_ok i c req :
  mem_latch_ok (mem c) → mem_latch_ok (mem (advance_core i c req).1).
Proof.
  intros Hok.
  pose proof (advance_core_stages i c req) as Hs. cbv zeta in Hs.
  destruct Hs as (_ & _ & -> & _).
  apply exec_stage_latch_ok, mem_stage_latch_ok.
  pose proof (count_cycle_frame c) as Hcc. cbv zeta in Hcc.
  destruct Hcc as (_&_&_&_&_&_&_&_&_&_&_&_&->&_). done.
Qed.

(** X18.  In every state reached from the initial state, at a cycle
    boundary, no Memory latch has [request_queued] set (the flag set at
    line 661 is overwritten by the latch update of the same cycle), and a
    latch that is [waiting] is valid and has [miss] set. *)
Theorem request_queued_never_latched (imem0 imem1 imem2 imem3 memin : list Z)
    (n j : nat) (c : Core)
    (Hc : cores (run n (init_sim imem0 imem1 imem2 imem3 memin)) !! j = Some c) :
  m_request_queued (mem c) = false ∧
  (m_waiting (mem c) = true → m_valid (mem c) = true ∧ m_miss (mem c) = true).
Proof.
  change (mem_latch_ok (mem c)).
  set (s0 := init_sim imem0 imem1 imem2 imem3 memin) in *.
  revert j c Hc. induction n as [|n IH]; intros j c Hc.
  - destruct j as [|[|[|[|j]]]]; simpl in Hc; try done;
      apply (inj Some) in Hc; subst c; done.
  - change (run (S n) s0) with (sim_cycle (run n s0)) in Hc.
    apply sim_cycle_core in Hc as (c0 & r & Hc0 & _ & Hsp).
    + apply IH in Hc0.
      assert (Hok : mem_latch_ok (mem (advance_core (Z.of_nat j) (wb_commit c0) r).1)).
      { apply advance_core_latch_ok.
        pose proof (wb_commit_frame c0) as Hwf. cbv zeta in Hwf.
        destruct Hwf as (_&_&_&_&_&_&_&_&_&_&->&_). done. }
      revert Hok Hsp. generalize (advance_core (Z.of_nat j) (wb_commit c0) r).1.
      intros c1 [Hq Hw] (_&_&_&_&_&_&_&_&_&_&_&_&_&_&[->| ->]); [by split|].
      split; [exact Hq|]. intros Hwt. discriminate Hwt.
    + by destruct (run_length n s0) as [-> ->].
Qed.

Lemma request_queued_never_latched_witness :
  m_request_queued (mem (core_at 0 (run 4 upgrade_example))) = false ∧
  m_waiting (mem (core_at 0 (run 4 upgrade_example))) = true.
Proof.
  destruct (request_queued_never_latched
              [270532608; 287309824; 335544320] [270532608; 335544320]
              [335544320] [335544320] [7] 4 0 (core_at 0 (run 4 upgrade_example)))
    as [H _]; [apply (core_at_lookup 0 (run 4 upgrade_example)); by vm_compute|].
  split; [exact H | by vm_compute].
Defined.

(** ** The bus through the cycles *)

Lemma scan_requests_range ks rs rr :
  0 ≤ rr → Forall (λ k, 0 ≤ k) ks → -1 ≤ scan_requests ks rs rr < 4.
Proof.
  intros Hrr. induction 1 as [|k ks Hk _ IH]; simpl; [lia|].
  destruct (request_active rs _); [|done].
  pose proof (Z.rem_bound_pos (rr + k) NUM_CORES). unfold NUM_CORES in *. lia.
Qed.

Lemma arbitrate_rr_next s :
  0 ≤ rr_next s < 4 → 0 ≤ rr_next (arbitrate s) < 4.
Proof.
  intros Hrr. unfold arbitrate.
  destruct (phase (bus s) =? 0); [|done].
  pose proof (scan_requests_range (seqZ 0 NUM_CORES) (requests s) (rr_next s)) as Hsc.
  destruct (_ =? -1); [done|].
  destruct (requests s !! _); [|done].
  destruct (start_bus_transaction _ _ _ _). cbn [rr_next].
  pose proof (Z.rem_bound_pos
                (scan_requests (seqZ 0 NUM_CORES) (requests s) (rr_next s) + 1) NUM_CORES).
  unfold NUM_CORES in *.
  assert (Hks : Forall (λ k, 0 ≤ k) (seqZ 0 4)) by (by repeat constructor).
  specialize (Hsc (proj1 Hrr) Hks). lia.
Qed.

Lemma advance_bus_rr_next s : rr_next (advance_bus s) = rr_next s.
Proof.
  unfold advance_bus.
  destruct (_ && _); [done|]. destruct (_ && _); [|done].
  destruct (_ >=? _); [|done]. by destruct (complete_transaction _ _ _).
Qed.

Lemma sim_cycle_rr_next s : 0 ≤ rr_next s < 4 → 0 ≤ rr_next (sim_cycle s) < 4.
Proof.
  intros Hrr.
  change (rr_next (sim_cycle s)) with (rr_next (bus_phase (before_bus s))).
  unfold bus_phase. rewrite advance_bus_rr_next. cbn [rr_next set_bus].
  apply arbitrate_rr_next. unfold before_bus.
  by rewrite (proj1 (proj2 (pipeline_phase_bus _))).
Qed.

Lemma start_bus_transaction_delay b req cs ram :
  delay (start_bus_transaction b req cs ram).1 = 0 ∨
  delay (start_bus_transaction b req cs ram).1 = 16.
Proof.
  unfold start_bus_transaction.
  destruct (snoop_caches _ _ _ _ _ _) as [cs' out].
  destruct (sn_provider out =? -1); simpl; auto.
Qed.

(** The bus at a cycle boundary: idle, waiting with at most 15 cycles to
    go, or flushing with the next word to send between 1 and 7. *)
Definition bus_ok (b : BusState) : Prop :=
  phase b = 0 ∨ (phase b = 1 ∧ 0 ≤ delay b ≤ 15) ∨ (phase b = 2 ∧ 1 ≤ index b ≤ 7).

(** The bus timing after drive and advance, from the bus after
    arbitration. *)
Lemma drive_advance_bus s :
  phase (bus s) = 0 ∨ (phase (bus s) = 1 ∧ 0 ≤ delay (bus s) ≤ 16) ∨
  (phase (bus s) = 2 ∧ 1 ≤ index (bus s) ≤ 7) →
  bus_ok (bus (advance_bus (set_bus s (drive_bus (bus s))))).
Proof.
  intros Hb. unfold drive_bus, advance_bus, bus_ok. cbn [bus set_bus].
  destruct Hb as [H0|[[H1 Hd]|[H2 Hi]]].
  - rewrite H0. simpl. rewrite H0. simpl. by left.
  - rewrite H1. simpl.
    destruct (Z.eqb_spec (delay (bus s)) 0) as [Hz|Hz]; simpl.
    + destruct (bool_decide (bus_cmd_out (bus s) = BUS_NONE)); simpl.
      * right. right. done.
      * rewrite H1, Hz. simpl. right. left. lia.
    + rewrite H1. simpl.
      destruct (Z.gtb_spec (delay (bus s)) 0); [|lia]. simpl. right. left. lia.
  - rewrite H2. simpl. rewrite H2. simpl.
    destruct (Z.geb_spec (index (bus s) + 1) BLOCK_WORDS) as [Hge|Hlt].
    + destruct (complete_transaction _ _ _). simpl. by left.
    + simpl. unfold BLOCK_WORDS in Hlt. right. right. lia.
Qed.

Lemma sim_cycle_bus_ok s : bus_ok (bus s) → bus_ok (bus (sim_cycle s)).
Proof.
  intros Hb. rewrite sim_cycle_bus. unfold bus_phase.
  apply drive_advance_bus.
  pose proof (before_bus_bus s) as Hbb.
  destruct (arbitrate_cases (before_bus s)) as [->|(w & req & H0 & _ & _ & ->)].
  - rewrite Hbb. unfold reset_bus_out. cbn [phase delay index set_bus_out].
    unfold bus_ok in Hb. lia.
  - cbn [bus].
    destruct (start_bus_transaction_out (bus (before_bus s)) req (cores (before_bus s))
                (main_mem (before_bus s))) as (Hph & _).
    destruct (start_bus_transaction_delay (bus (before_bus s)) req (cores (before_bus s))
                (main_mem (before_bus s))) as [Hd|Hd]; right; left; lia.
Qed.

(** X19.  In every state reached from the initial state, at a cycle
    boundary: there are four cores and four request slots; the round-robin
    pointer is between 0 and 3; the bus is Idle, or Waiting with a latency
    counter between 0 and 15, or in Flush with a word index between 1 and
    7, so [block[index]] is read inside the block. *)
Theorem reachable_well_formed (imem0 imem1 imem2 imem3 memin : list Z) (n : nat) :
  let s := run n (init_sim imem0 imem1 imem2 imem3 memin) in
  length (cores s) = 4%nat ∧ length (requests s) = 4%nat ∧
  0 ≤ rr_next s < 4 ∧
  (phase (bus s) = 0 ∨ (phase (bus s) = 1 ∧ 0 ≤ delay (bus s) ≤ 15) ∨
   (phase (bus s) = 2 ∧ 1 ≤ index (bus s) ≤ 7)).
Proof.
  intros s. unfold s.
  destruct (run_length n (init_sim imem0 imem1 imem2 imem3 memin)) as [-> ->].
  split; [done|]. split; [done|].
  change (0 ≤ rr_next (run n (init_sim imem0 imem1 imem2 imem3 memin)) < 4 ∧
          bus_ok (bus (run n (init_sim imem0 imem1 imem2 imem3 memin)))).
  induction n as [|n [IH1 IH2]].
  - split; [simpl; lia | by left].
  - change (run (S n) ?s0) with (sim_cycle (run n s0)).
    split; [by apply sim_cycle_rr_next | by apply sim_cycle_bus_ok].
Qed.

Lemma bus_phase_flush s :
  phase (bus s) = 2 →
  let b := bus (bus_phase s) in
  bus_cmd_out b = BUS_FLUSH ∧ bus_origid_out b = provider (bus s) ∧
  bus_addr_out b = u32 (block_base (addr (bus s)) + index (bus s)) ∧
  bus_data_out b = rdw (block (bus s)) (index (bus s)) ∧
  bus_shared_out b = shared (bus s) ∧
  phase b = (if index (bus s) + 1 >=? BLOCK_WORDS then 0 else 2) ∧
  index b = index (bus s) + 1 ∧
  provider b = provider (bus s) ∧ addr b = addr (bus s) ∧ block b = block (bus s) ∧
  shared b = shared (bus s) ∧ origin b = origin (bus s).
Proof.
  intros Hp. cbv zeta.
  remember (bus (bus_phase s)) as b eqn:Hb. revert Hb.
  unfold bus_phase. rewrite arbitrate_busy by lia.
  unfold drive_bus, advance_bus. cbn [bus set_bus]. rewrite Hp. simpl. rewrite Hp. simpl.
  destruct (index (bus s) + 1 >=? BLOCK_WORDS); [|by intros ->].
  destruct (complete_transaction _ _ _). by intros ->.
Qed.

Lemma sim_cycle_flush s :
  phase (bus s) = 2 →
  let b := bus (sim_cycle s) in
  bus_cmd_out b = BUS_FLUSH ∧ bus_origid_out b = provider (bus s) ∧
  bus_addr_out b = u32 (block_base (addr (bus s)) + index (bus s)) ∧
  bus_data_out b = rdw (block (bus s)) (index (bus s)) ∧
  bus_shared_out b = shared (bus s) ∧
  phase b = (if index (bus s) + 1 >=? BLOCK_WORDS then 0 else 2) ∧
  index b = index (bus s) + 1 ∧
  provider b = provider (bus s) ∧ addr b = addr (bus s) ∧ block b = block (bus s) ∧
  shared b = shared (bus s) ∧ origin b = origin (bus s).
Proof.
  intros Hp. cbv zeta. rewrite sim_cycle_bus.
  pose proof (bus_phase_flush (before_bus s)) as H.
  rewrite before_bus_bus in H. by apply H.
Qed.

(** The eight cycles of a flush, with the bus fields that stay fixed. *)
Lemma flush_words (s : Sim) :
  phase (bus s) = 1 → delay (bus s) = 0 →
  ∀ k : nat, (k < 8)%nat →
    let b := bus (run (S k) s) in
    (bus_cmd_out b = BUS_FLUSH ∧
     bus_origid_out b = provider (bus s) ∧
     bus_addr_out b = u32 (block_base (addr (bus s)) + Z.of_nat k) ∧
     bus_data_out b = rdw (block (bus s)) (Z.of_nat k) ∧
     bus_shared_out b = shared (bus s) ∧
     phase b = (if decide (k = 7%nat) then 0 else 2)) ∧
    index b = Z.of_nat k + 1 ∧ provider b = provider (bus s) ∧
    addr b = addr (bus s) ∧ block b = block (bus s) ∧ shared b = shared (bus s).
Proof.
  intros Hp Hd. induction k as [|k IH]; intros Hk b.
  - unfold b. change (run 1 s) with (sim_cycle s).
    rewrite sim_cycle_bus.
    assert (Hb : bus (bus_phase (before_bus s)) =
      set_index (set_bus_out (set_index (set_phase (reset_bus_out (bus s)) 2) 0)
        BUS_FLUSH (provider (bus s)) (u32 (block_base (addr (bus s)) + 0))
        (rdw (block (bus s)) 0) (shared (bus s))) 1).
    { unfold bus_phase. rewrite arbitrate_busy by (rewrite before_bus_bus; simpl; lia).
      rewrite before_bus_bus. unfold drive_bus, advance_bus. cbn [bus set_bus].
      unfold reset_bus_out. cbn [phase delay bus_cmd_out set_bus_out].
      rewrite Hp, Hd. simpl. done. }
    rewrite Hb. simpl. done.
  - destruct IH as ((_ & _ & _ & _ & _ & Hph) & Hi & Hpr & Ha & Hb & Hs); [lia|].
    destruct (decide (k = 7%nat)) as [->|_]; [lia|].
    unfold b. change (run (S (S k)) s) with (sim_cycle (run (S k) s)).
    revert Hph Hi Hpr Ha Hb Hs. generalize (run (S k) s). intros sk Hph Hi Hpr Ha Hb Hs.
    destruct (sim_cycle_flush sk Hph)
      as (F1 & F2 & F3 & F4 & F5 & F6 & F7 & F8 & F9 & F10 & F11 & _).
    rewrite F1, F2, F3, F4, F5, F6, F7, F8, F9, F10, F11, Hi, Hpr, Ha, Hb, Hs.
    replace (Z.of_nat k + 1) with (Z.of_nat (S k)) by lia.
    split_and!; try done.
    unfold BLOCK_WORDS.
    destruct (decide (S k = 7%nat)) as [->|Hne]; [done|].
    destruct (Z.geb_spec (Z.of_nat (S k) + 1) 8); [lia | done].
Qed.

(** X20.  A flush takes exactly eight cycles.  From a state whose bus is
    Waiting with the latency counter at 0, cycle [k] (counting from 0, for
    [k] below 8) drives Flush with the provider as origid, the address
    [base + k] and word [k] of the block, in this order; the bus stays in
    Flush after the first seven words and is Idle after the eighth. *)
Theorem flush_stream (s : Sim)
    (Hp : phase (bus s) = 1) (Hd : delay (bus s) = 0) :
  ∀ k : nat, (k < 8)%nat →
    let b := bus (run (S k) s) in
    bus_cmd_out b = BUS_FLUSH ∧
    bus_origid_out b = provider (bus s) ∧
    bus_addr_out b = u32 (block_base (addr (bus s)) + Z.of_nat k) ∧
    bus_data_out b = rdw (block (bus s)) (Z.of_nat k) ∧
    bus_shared_out b = shared (bus s) ∧
    phase b = (if decide (k = 7%nat) then 0 else 2).
Proof. intros k Hk. apply (flush_words s Hp Hd k Hk). Qed.

Lemma flush_stream_witness :
  bus_cmd_out (bus (run 8 (run 19 upgrade_example))) = BUS_FLUSH ∧
  phase (bus (run 8 (run 19 upgrade_example))) = 0.
Proof.
  destruct (flush_stream (run 19 upgrade_example)) with (k := 7%nat)
    as (H1 & _ & _ & _ & _ & H2); [by vm_compute | by vm_compute | lia |].
  split; [exact H1 | exact H2].
Defined.

Lemma run_add n m s : run (n + m) s = run n (run m s).
Proof. induction n as [|n IH]; [done|]. simpl. by rewrite IH. Qed.

Lemma bus_phase_start_cache s w req j c :
  phase (bus s) = 0 →
  scan_requests (seqZ 0 NUM_CORES) (requests s) (rr_next s) = w → w ≠ -1 →
  requests s !! Z.to_nat w = Some req →
  r_cmd req ≠ BUS_NONE →
  cores s !! j = Some c → Z.of_nat j ≠ r_origin req →
  line_state (cache c) (r_addr req) = MESI_M →
  (∀ j' c', cores s !! j' = Some c' → j' ≠ j → Z.of_nat j' ≠ r_origin req →
     line_state (cache c') (r_addr req) ≠ MESI_M) →
  let b := bus (bus_phase s) in
  phase b = 1 ∧ delay b = 0 ∧ provider b = Z.of_nat j ∧ addr b = r_addr req ∧
  shared b = 1 ∧ bus_cmd_out b = r_cmd req ∧ bus_origid_out b = r_origin req ∧
  bus_addr_out b = r_addr req mod 2 ^ 20 ∧
  ∀ k, 0 ≤ k < 8 →
    rdw (block b) k = rdw (c_data (cache c)) (cache_index (r_addr req) * BLOCK_WORDS + k).
Proof.
  intros Hp Hw Hne Hreq Hcmd Hj Hjo HM Hother. unfold bus_phase.
  rewrite (arbitrate_start s w req) by done. cbn [bus set_bus].
  destruct (start_bus_transaction_out (bus s) req (cores s) (main_mem s))
    as (Hph & _ & _ & Had & _ & Hco & Hoo & Hao & _).
  destruct (start_bus_transaction_data (bus s) req (cores s) (main_mem s))
    as (Hsh & _ & Hcache).
  destruct (snoop_caches_provider (r_origin req) (r_cmd req) (r_addr req) (cores s) 0
              {| sn_shared := 0; sn_provider := -1; sn_block := ∅ |} j c)
    as [Hprov Hblk]; [done | lia | done | |].
  { intros j' c' Hj' Hlt Hne'. apply (Hother j' c'); [done | lia | lia]. }
  pose proof (snoop_caches_shared (r_origin req) (r_cmd req) (r_addr req) (cores s) 0
                {| sn_shared := 0; sn_provider := -1; sn_block := ∅ |} j c Hj) as Hshared.
  rewrite Hshared in Hsh by (rewrite ?HM; first [lia | done]).
  destruct Hcache as (Hpr & Hdl & Hb); [rewrite Hprov; lia|].
  rewrite Hprov, Z.add_0_l in Hpr.
  change (Z.shiftl 1 20 - 1) with (Z.ones 20) in Hao. rewrite Z.land_ones in Hao by lia.
  revert Hph Had Hco Hoo Hao Hsh Hpr Hdl Hb.
  generalize (start_bus_transaction (bus s) req (cores s) (main_mem s)).1.
  intros b1 Hph Had Hco Hoo Hao Hsh Hpr Hdl Hb.
  unfold drive_bus, advance_bus. rewrite Hph, Hdl, Hco. simpl.
  rewrite bool_decide_eq_false_2 by done. simpl. rewrite Hph, Hdl. simpl.
  split_and!; try done.
  intros k Hk. rewrite Hb by done. by apply Hblk.
Qed.

(** X21.  A block held in M by a peer is supplied by that peer without
    the memory latency.  If the bus is idle at the start of a cycle and the
    arbitration of that cycle starts a transaction for a block that
    exactly one other core holds in M, then the request is driven in that
    cycle with the latency counter at 0 and the shared wire set, and the
    next eight cycles are the Flush of the block: cycle [k] drives word [k]
    of the peer's cache line, with the peer's index as origid. *)
Theorem cache_to_cache_transfer (s : Sim) (w : Z) (req : BusRequest) (j : nat) (c : Core)
    (Hidle : phase (bus s) = 0)
    (Hscan : scan_requests (seqZ 0 NUM_CORES) (requests (before_bus s))
               (rr_next (before_bus s)) = w)
    (Hw : w ≠ -1)
    (Hreq : requests (before_bus s) !! Z.to_nat w = Some req)
    (Hcmd : r_cmd req ≠ BUS_NONE)
    (Hj : cores (before_bus s) !! j = Some c)
    (Hne : Z.of_nat j ≠ r_origin req)
    (HM : line_state (cache c) (r_addr req) = MESI_M)
    (Hother : ∀ j' c', cores (before_bus s) !! j' = Some c' → j' ≠ j →
                Z.of_nat j' ≠ r_origin req →
                line_state (cache c') (r_addr req) ≠ MESI_M) :
  (bus_cmd_out (bus (run 1 s)) = r_cmd req ∧
   bus_origid_out (bus (run 1 s)) = r_origin req ∧
   bus_addr_out (bus (run 1 s)) = r_addr req mod 2 ^ 20 ∧
   phase (bus (run 1 s)) = 1 ∧ delay (bus (run 1 s)) = 0 ∧
   shared (bus (run 1 s)) = 1) ∧
  ∀ k : nat, (k < 8)%nat →
    let b := bus (run (2 + k) s) in
    bus_cmd_out b = BUS_FLUSH ∧
    bus_origid_out b = Z.of_nat j ∧
    bus_addr_out b = u32 (block_base (r_addr req) + Z.of_nat k) ∧
    bus_data_out b =
      rdw (c_data (cache c)) (cache_index (r_addr req) * BLOCK_WORDS + Z.of_nat k) ∧
    bus_shared_out b = 1 ∧
    phase b = (if decide (k = 7%nat) then 0 else 2).
Proof.
  assert (Hidle' : phase (bus (before_bus s)) = 0) by (by rewrite before_bus_bus).
  destruct (bus_phase_start_cache (before_bus s) w req j c
              Hidle' Hscan Hw Hreq Hcmd Hj Hne HM Hother)
    as (Hp1 & Hd1 & Hpr1 & Had1 & Hsh1 & Hc1 & Ho1 & Ha1 & Hb1).
  change (bus (bus_phase (before_bus s))) with (bus (run 1 s)) in *.
  split; [by split_and!|].
  intros k Hk.
  replace (2 + k)%nat with (S k + 1)%nat by lia. rewrite run_add.
  revert Hp1 Hd1 Hpr1 Had1 Hsh1 Hb1. generalize (run 1 s).
  intros s1 Hp1 Hd1 Hpr1 Had1 Hsh1 Hb1.
  destruct (flush_words s1 Hp1 Hd1 k Hk) as ((F1 & F2 & F3 & F4 & F5 & F6) & _).
  cbv zeta. rewrite F1, F2, F3, F4, F5, F6, Hpr1, Had1, Hsh1, Hb1 by lia.
  by split_and!.
Qed.

(** Core 0 stores 5 to word 5 and halts; core 1 loads word 5 and halts.
    The store is served first, so the load finds the block in M in the
    cache of core 0. *)
Definition transfer_example : Sim :=
  init_sim [286265349; 335544320] [270536709; 335544320] [335544320] [335544320] [].

Lemma cache_to_cache_transfer_witness :
  let s := run 27 transfer_example in
  bus_cmd_out (bus (run 1 s)) = BUS_RD ∧
  bus_origid_out (bus (run (2 + 5) s)) = 0 ∧
  bus_data_out (bus (run (2 + 5) s)) = 5.
Proof.
  intros s.
  destruct (cache_to_cache_transfer s 1
              {| r_active := true; r_cmd := BUS_RD; r_addr := 5; r_origin := 1 |}
              0 (core_at 0 (before_bus s)))
    as ((H1 & _) & Hk).
  - by vm_compute.
  - by vm_compute.
  - done.
  - by vm_compute.
  - done.
  - apply core_at_lookup. by vm_compute.
  - done.
  - by vm_compute.
  - intros j' c' Hj' Hne _.
    apply (cores_forallb
             (λ j c, (j =? 0)%nat || bool_decide (line_state (cache c) 5 ≠ MESI_M))) in Hj';
      [|by vm_compute].
    apply orb_true_iff in Hj' as [Hj'|Hj'];
      [by apply Nat.eqb_eq in Hj' | by apply bool_decide_eq_true in Hj'].
  - destruct (Hk 5%nat) as (_ & H2 & _ & H3 & _); [lia|].
    split; [exact H1|]. split; [exact H2|]. etrans; [exact H3|]. by vm_compute.
Defined.

(** ** An instruction from Execute to the register file *)

Lemma mem_stage_free i c req :
  m_valid (mem c) = false →
  mem_stage i c req =
    {| mo_core := c; mo_req := req; mo_next_wb := wb0; mo_next_mem := mem c;
       mo_mem_advances := false |}.
Proof. intros Hv. unfold mem_stage. by rewrite Hv. Qed.

Lemma exec_stage_issue c nm adv :
  e_valid (exec c) = true → m_valid (mem c) = false →
  i_op (e_inst (exec c)) ≠ OP_LW → i_op (e_inst (exec c)) ≠ OP_SW →
  let m := eo_next_mem (exec_stage c nm adv) in
  m_valid m = true ∧ m_inst m = e_inst (exec c) ∧
  m_alu_result m = perform_alu (e_inst (exec c)) (e_rs_val (exec c)) (e_rt_val (exec c)) ∧
  m_waiting m = false ∧ m_miss m = false.
Proof.
  intros He Hm Hlw Hsw. unfold exec_stage. rewrite He, Hm. simpl.
  destruct (Z.eqb_spec (i_op (e_inst (exec c))) OP_LW); [done|].
  destruct (Z.eqb_spec (i_op (e_inst (exec c))) OP_SW); [done|]. done.
Qed.

Lemma mem_stage_alu i c req :
  m_valid (mem c) = true → m_waiting (mem c) = false →
  i_op (m_inst (mem c)) ≠ OP_LW → i_op (m_inst (mem c)) ≠ OP_SW →
  mo_next_wb (mem_stage i c req) =
    {| w_valid := true; w_inst := m_inst (mem c); w_value := m_alu_result (mem c) |}.
Proof.
  intros Hv Hw Hlw Hsw. unfold mem_stage. rewrite Hv, Hw. simpl.
  destruct (Z.eqb_spec (i_op (m_inst (mem c))) OP_LW); [done|].
  destruct (Z.eqb_spec (i_op (m_inst (mem c))) OP_SW); [done|]. done.
Qed.

Lemma advance_core_exec_to_mem i c req :
  e_valid (exec c) = true → m_valid (mem c) = false →
  i_op (e_inst (exec c)) ≠ OP_LW → i_op (e_inst (exec c)) ≠ OP_SW →
  let m := mem (advance_core i c req).1 in
  m_valid m = true ∧ m_inst m = e_inst (exec c) ∧
  m_alu_result m = perform_alu (e_inst (exec c)) (e_rs_val (exec c)) (e_rt_val (exec c)) ∧
  m_waiting m = false ∧ m_miss m = false.
Proof.
  intros He Hm Hlw Hsw.
  pose proof (count_cycle_frame c) as Hcc. cbv zeta in Hcc.
  destruct Hcc as (_&_&_&_&_&_&_&_&_&_&_&Hex&Hmem&_).
  pose proof (advance_core_stages i c req) as Hs. cbv zeta in Hs.
  destruct Hs as (_ & _ & Hm' & _). cbv zeta. rewrite Hm'.
  rewrite mem_stage_free by (by rewrite Hmem). cbn [mo_core mo_next_mem mo_mem_advances].
  rewrite <- Hex. apply exec_stage_issue; by rewrite ?Hex, ?Hmem.
Qed.

Lemma advance_core_mem_to_wb i c req :
  m_valid (mem c) = true → m_waiting (mem c) = false →
  i_op (m_inst (mem c)) ≠ OP_LW → i_op (m_inst (mem c)) ≠ OP_SW →
  wb (advance_core i c req).1 =
    {| w_valid := true; w_inst := m_inst (mem c); w_value := m_alu_result (mem c) |}.
Proof.
  intros Hv Hw Hlw Hsw.
  pose proof (count_cycle_frame c) as Hcc. cbv zeta in Hcc.
  destruct Hcc as (_&_&_&_&_&_&_&_&_&_&_&_&Hmem&_).
  pose proof (advance_core_stages i c req) as Hs. cbv zeta in Hs.
  destruct Hs as (_ & -> & _).
  rewrite <- Hmem. apply mem_stage_alu; by rewrite Hmem.
Qed.

(** X22.  Without a stall an instruction that is not a load or store
    takes one cycle per stage and its result reaches the register file
    three cycles after it sat in Execute: if Execute holds such an
    instruction at the start of a cycle and the Memory latch is empty,
    then one cycle later the Memory latch holds it with the result of
    [perform_alu] on the operand values latched in Execute, two cycles
    later the Writeback latch holds it with that value, and three cycles
    later the value is in its destination register (if it has one), the
    retired-instruction counter has moved by one and, for HALT, the core
    is marked halted. *)
Theorem alu_result_retires (s : Sim) (j : nat) (c : Core)
    (Hlen : length (requests s) = length (cores s))
    (Hc : cores s !! j = Some c)
    (He : e_valid (exec c) = true)
    (Hm : m_valid (mem c) = false)
    (Hlw : i_op (e_inst (exec c)) ≠ OP_LW)
    (Hsw : i_op (e_inst (exec c)) ≠ OP_SW) :
  let inst := e_inst (exec c) in
  let v := perform_alu inst (e_rs_val (exec c)) (e_rt_val (exec c)) in
  ∃ c1 c2 c3,
    cores (run 1 s) !! j = Some c1 ∧
    cores (run 2 s) !! j = Some c2 ∧
    cores (run 3 s) !! j = Some c3 ∧
    (m_valid (mem c1) = true ∧ m_inst (mem c1) = inst ∧ m_alu_result (mem c1) = v) ∧
    wb c2 = {| w_valid := true; w_inst := inst; w_value := v |} ∧
    (0 ≤ dest_reg inst → rdw (regs c3) (dest_reg inst) = v) ∧
    instructions (stats c3) = inc (instructions (stats c2)) ∧
    (i_op inst = OP_HALT → halted c3 = true).
Proof.
  intros inst v.
  change (run 1 s) with (sim_cycle s).
  change (run 2 s) with (sim_cycle (sim_cycle s)).
  change (run 3 s) with (sim_cycle (sim_cycle (sim_cycle s))).
  assert (Hlen1 : length (requests (sim_cycle s)) = length (cores (sim_cycle s))).
  { destruct (sim_cycle_length s) as [-> ->]. done. }
  assert (Hlen2 : length (requests (sim_cycle (sim_cycle s)))
                  = length (cores (sim_cycle (sim_cycle s)))).
  { destruct (sim_cycle_length (sim_cycle s)) as [-> ->]. done. }
  (* first cycle *)
  destruct (sim_cycle_core_next s j c Hlen Hc) as (r & c1 & _ & Hc1 & Hsp1).
  pose proof (wb_commit_frame c) as Hwf. cbv zeta in Hwf.
  destruct Hwf as (_&_&_&_&_&_&_&_&_&Hwe&Hwm&_).
  pose proof (advance_core_exec_to_mem (Z.of_nat j) (wb_commit c) r) as H1.
  cbv zeta in H1. rewrite Hwe, Hwm in H1. specialize (H1 He Hm Hlw Hsw).
  revert Hsp1 H1. generalize (advance_core (Z.of_nat j) (wb_commit c) r).1.
  intros a1 Hsp1 (V1 & I1 & A1 & W1 & _).
  assert (Hm1 : m_valid (mem c1) = true ∧ m_inst (mem c1) = inst ∧
                m_alu_result (mem c1) = v ∧ m_waiting (mem c1) = false).
  { destruct Hsp1 as (_&_&_&_&_&_&_&_&_&_&_&_&_&_&[->| ->]); by split_and!. }
  clear Hsp1 V1 I1 A1 W1 a1. destruct Hm1 as (V1 & I1 & A1 & W1).
  (* second cycle *)
  destruct (sim_cycle_core_next (sim_cycle s) j c1 Hlen1 Hc1) as (r1 & c2 & _ & Hc2 & Hsp2).
  pose proof (wb_commit_frame c1) as Hwf. cbv zeta in Hwf.
  destruct Hwf as (_&_&_&_&_&_&_&_&_&_&Hwm1&_).
  pose proof (advance_core_mem_to_wb (Z.of_nat j) (wb_commit c1) r1) as H2.
  rewrite Hwm1, I1, A1 in H2. specialize (H2 V1 W1 Hlw Hsw).
  revert Hsp2 H2. generalize (advance_core (Z.of_nat j) (wb_commit c1) r1).1.
  intros a2 Hsp2 H2.
  assert (Hw2 : wb c2 = {| w_valid := true; w_inst := inst; w_value := v |}).
  { destruct Hsp2 as (_&_&_&_&_&_&_&_&_&_&_&_&->&_). exact H2. }
  clear Hsp2 H2 a2.
  (* third cycle *)
  destruct (sim_cycle_core_next (sim_cycle (sim_cycle s)) j c2 Hlen2 Hc2)
    as (r2 & c3 & _ & Hc3 & Hsp3).
  assert (Hv2 : w_valid (wb c2) = true) by (by rewrite Hw2).
  pose proof (wb_commit_regs c2 Hv2) as Hrg. rewrite Hw2 in Hrg. cbn [w_inst w_value] in Hrg.
  pose proof (wb_commit_instructions c2 Hv2) as Hin.
  destruct (wb_commit_stats c2) as [_ Hha]. rewrite Hw2 in Hha. cbn [w_valid w_inst] in Hha.
  pose proof (advance_core_regs (Z.of_nat j) (wb_commit c2) r2) as Hr3.
  pose proof (advance_core_stages (Z.of_nat j) (wb_commit c2) r2) as Hs3. cbv zeta in Hs3.
  destruct Hs3 as (_&_&_&_&_&_&_&_&_&_&_&_&_&_&Hh3&Hi3&_).
  revert Hsp3 Hr3 Hh3 Hi3. generalize (advance_core (Z.of_nat j) (wb_commit c2) r2).1.
  intros a3 (_&_&S3&_&_&_&_&S8&_&_&_&_&_&S14&_) Hr3 Hh3 Hi3.
  exists c1, c2, c3.
  split; [done|]. split; [done|]. split; [done|]. split; [done|]. split; [done|].
  split.
  - intros Hd. rewrite S3, Hr3.
    assert (Hd2 : 2 ≤ dest_reg inst) by (destruct (dest_reg_reserved inst); lia).
    assert (Hget : rdw (regs (wb_commit c2)) (dest_reg inst) = v).
    { rewrite Hrg. destruct (Z.geb_spec (dest_reg inst) 0); [|lia]. apply rdw_wrw_eq. }
    destruct (d_valid (decode (wb_commit c2))); [|done].
    rewrite rdw_wrw_ne by lia. done.
  - split; [by rewrite S14, Hi3, Hin|].
    intros Hh. rewrite S8, Hh3, Hha, Hh. simpl. apply orb_true_r.
Qed.

(** Core 0 runs [ADD R2, R1, R1] with immediate 3, then HALT. *)
Definition alu_example : Sim :=
  init_sim [2166787; 335544320] [335544320] [335544320] [335544320] [].

Lemma alu_result_retires_witness :
  ∃ c3, cores (run 3 (run 2 alu_example)) !! 0%nat = Some c3 ∧ rdw (regs c3) 2 = 6.
Proof.
  destruct (alu_result_retires (run 2 alu_example) 0 (core_at 0 (run 2 alu_example)))
    as (c1 & c2 & c3 & _ & _ & H3 & _ & _ & Hr & _);
    [by vm_compute | apply core_at_lookup; by vm_compute | by vm_compute | by vm_compute
    | by vm_compute | by vm_compute |].
  exists c3. split; [exact H3|].
  cbv zeta in Hr.
  assert (Hd : dest_reg (e_inst (exec (core_at 0 (run 2 alu_example)))) = 2)
    by (by vm_compute).
  assert (Hv : perform_alu (e_inst (exec (core_at 0 (run 2 alu_example))))
                 (e_rs_val (exec (core_at 0 (run 2 alu_example))))
                 (e_rt_val (exec (core_at 0 (run 2 alu_example)))) = 6)
    by (by vm_compute).
  rewrite Hd, Hv in Hr. apply Hr. lia.
Defined.

(** ** Main memory and the cycle counter *)

Lemma arbitrate_main_mem s : main_mem (arbitrate s) = main_mem s.
Proof. by destruct (arbitrate_cases s) as [->|(w & req & _ & _ & _ & ->)]. Qed.

(** X23.  The cache is write-back: a cycle changes main memory only when
    it ends a flush.  Unless the bus starts the cycle in Flush with word 7
    (or beyond) next, main memory after the cycle is main memory before
    it, whatever the cores store. *)
Theorem memory_written_only_at_completion (s : Sim)
    (Hb : phase (bus s) ≠ 2 ∨ index (bus s) < 7) :
  main_mem (sim_cycle s) = main_mem s.
Proof.
  change (main_mem (sim_cycle s)) with (main_mem (bus_phase (before_bus s))).
  assert (Hmm : main_mem (before_bus s) = main_mem s).
  { unfold before_bus. by rewrite (proj2 (proj2 (pipeline_phase_bus _))). }
  pose proof (before_bus_bus s) as Hbb.
  unfold bus_phase.
  destruct (arbitrate_cases (before_bus s)) as [Heq|(w & req & H0 & _ & _ & Heq)].
  - rewrite Heq. unfold advance_bus. cbn [bus set_bus main_mem].
    destruct (_ && _); [exact Hmm|]. destruct (_ && _) eqn:Hfl; [|exact Hmm].
    cbn [index set_index].
    destruct (index (drive_bus (bus (before_bus s))) + 1 >=? BLOCK_WORDS) eqn:Hge;
      [|exact Hmm].
    exfalso. apply andb_true_iff in Hfl as [Hph _]. apply Z.eqb_eq in Hph.
    revert Hph Hge. unfold drive_bus. rewrite Hbb.
    unfold reset_bus_out. cbn [phase delay index bus_cmd_out set_bus_out].
    destruct (Z.eqb_spec (phase (bus s)) 2) as [H2|H2].
    + cbn [phase index set_bus_out]. intros _.
      destruct (Z.geb_spec (index (bus s) + 1) BLOCK_WORDS); [|done].
      unfold BLOCK_WORDS in *. lia.
    + destruct (_ && _ && _); cbn [phase index set_bus_out set_index set_phase];
        [|intros; lia].
      intros _. by vm_compute.
  - assert (Hmm' : main_mem (arbitrate (before_bus s)) = main_mem s)
      by (by rewrite arbitrate_main_mem).
    revert Hmm'. rewrite Heq. cbn [main_mem]. intros Hmm'.
    destruct (start_bus_transaction_out (bus (before_bus s)) req (cores (before_bus s))
                (main_mem (before_bus s))) as (Hph & _ & _ & _ & Hix & _).
    revert Hph Hix.
    generalize (start_bus_transaction (bus (before_bus s)) req (cores (before_bus s))
                  (main_mem (before_bus s))).
    intros [b1 cs1] Hph Hix. cbn [fst snd] in *.
    unfold advance_bus, drive_bus. cbn [bus set_bus main_mem cores requests rr_next cycle].
    rewrite Hph. cbn [Z.eqb Pos.eqb].
    change (1 =? 2) with false. change (1 =? 1) with true. cbn [andb].
    destruct (delay b1 =? 0) eqn:Hd; cbn [andb].
    + destruct (bool_decide (bus_cmd_out b1 = BUS_NONE)).
      * cbn [phase delay index bus_cmd_out set_bus_out set_index set_phase].
        change (2 =? 1) with false. change (2 =? 2) with true. cbn [andb].
        rewrite bool_decide_eq_true_2 by done.
        change (0 + 1 >=? BLOCK_WORDS) with false. done.
      * rewrite Hph. change (1 =? 1) with true. change (1 =? 2) with false. cbn [andb].
        by destruct (delay b1 >? 0).
    + rewrite Hph. change (1 =? 1) with true. change (1 =? 2) with false. cbn [andb].
      by destruct (delay b1 >? 0).
Qed.

Lemma memory_written_only_at_completion_witness :
  main_mem (sim_cycle (run 25 transfer_example)) = main_mem (run 25 transfer_example) ∧
  rdw (main_mem (sim_cycle (run 35 transfer_example))) 5 = 5.
Proof.
  split; [|by vm_compute].
  apply memory_written_only_at_completion. right. by vm_compute.
Defined.

Lemma inc_u32 (n : Z) : inc (u32 n) = u32 (n + 1).
Proof. unfold inc, u32. by rewrite Zplus_mod_idemp_l. Qed.

(** X24.  The cycle counter of a core that is not done is the number of
    cycles simulated so far (mod 2^32): in the state reached after [n]
    cycles every core with [done] clear has [cycles = n]; so the count
    written to the stats file is the number of cycles the core took to
    finish. *)
Theorem cycles_counts_cycles (imem0 imem1 imem2 imem3 memin : list Z)
    (n j : nat) (c : Core)
    (Hc : cores (run n (init_sim imem0 imem1 imem2 imem3 memin)) !! j = Some c)
    (Hd : done_ c = false) :
  cycles (stats c) = u32 (Z.of_nat n).
Proof.
  set (s0 := init_sim imem0 imem1 imem2 imem3 memin) in *.
  revert j c Hc Hd. induction n as [|n IH]; intros j c Hc Hd.
  - destruct j as [|[|[|[|j]]]]; simpl in Hc; try done;
      apply (inj Some) in Hc; subst c; done.
  - change (run (S n) s0) with (sim_cycle (run n s0)) in Hc.
    assert (Hlen : length (requests (run n s0)) = length (cores (run n s0)))
      by (by destruct (run_length n s0) as [-> ->]).
    destruct (sim_cycle_core (run n s0) j c Hlen Hc) as (c0 & r & Hc0 & _ & _).
    destruct (sim_cycle_done (run n s0) j c0 Hlen Hc0) as (c' & Hc' & Hdone & Hrun & _).
    rewrite Hc in Hc'. apply (inj Some) in Hc'. subst c'.
    destruct (done_ c0) eqn:Hd0.
    + destruct Hdone as [Hdn _]; [done|]. congruence.
    + destruct Hrun as [-> _]; [done|].
      rewrite (IH j c0 Hc0 Hd0), inc_u32. f_equal. lia.
Qed.

Lemma cycles_counts_cycles_witness :
  cycles (stats (core_at 0 (run 9 upgrade_example))) = 9.
Proof.
  etrans;
    [apply (cycles_counts_cycles
              [270532608; 287309824; 335544320] [270532608; 335544320]
              [335544320] [335544320] [7] 9 0 (core_at 0 (run 9 upgrade_example)));
     [apply (core_at_lookup 0 (run 9 upgrade_example)); by vm_compute | by vm_compute]|].
  by vm_compute.
Defined.
